(** * Explorer core of the download manager: path guard, listing, PNG and probe metadata

    A shallow embedding of [src/services/files_service.py] (class
    [FilesService]) together with the properties of its path guard, directory
    listing, archive naming, PNG chunk scanner and video tag merge.

    Conventions of the embedding:
    - a Python [str] is a Rocq [string], one character per code point (the
      texts the properties speak about are Latin-1 decoded or plain ASCII);
    - a [bytes] value is a [list byte];
    - a resolved [pathlib.Path] is the list of its segments below the
      filesystem root, so ["/data/out"] is [["data"; "out"]];
    - Python's [None] for an optional field is [None] of an [option], except
      for the JSON-valued fields, where [None] and JSON [null] are the one
      value [JNull], as they are in Python;
    - library calls whose result the module only passes on ([json.loads],
      [zlib.decompress], [int], float division, UTF-8 decoding) are parameters
      of the sections that use them; small executable instances are given for
      evaluating concrete inputs. *)

From Stdlib Require Import ZArith Lia Ascii.
From Stdlib Require Strings.Byte.
From stdpp Require Import base option list sorting strings gmap.

Set Warnings "-register-all".

(** ** Paths *)

Module Paths.

(** A resolved absolute path: its segments below ["/"]. *)
Definition path := list string.

Definition slash : ascii := "/"%char.

(** [s.split("/")]: the pieces between separators, empty pieces kept. *)
Fixpoint split_on (sep : ascii) (s : string) : list string :=
  match s with
  | EmptyString => [EmptyString]
  | String c r =>
      if Ascii.eqb c sep then EmptyString :: split_on sep r
      else match split_on sep r with
           | h :: t => String c h :: t
           | [] => [String c EmptyString]
           end
  end.

(** The segments [pathlib] keeps when it parses a string: empty pieces and
    ["."] pieces are dropped, [".."] is kept until [resolve]. *)
Definition keep_segment (seg : string) : bool :=
  negb (String.eqb seg "") && negb (String.eqb seg ".").

Definition parse_segments (s : string) : list string :=
  filter (fun seg => keep_segment seg = true) (split_on slash s).

Definition is_absolute (s : string) : bool := String.prefix "/" s.

(** [base / relative]: an absolute right operand replaces the left one. *)
Definition joinpath (base : path) (relative : string) : list string :=
  if is_absolute relative then parse_segments relative
  else base ++ parse_segments relative.

(** One segment of [Path.resolve()] on a tree without symbolic links:
    [".."] drops the last segment (and stays at the filesystem root). *)
Definition resolve_step (acc : path) (seg : string) : path :=
  if String.eqb seg ".." then removelast acc else acc ++ [seg].

Definition resolve (segs : list string) : path :=
  fold_left resolve_step segs [].

(** [str(path)] of an absolute path. *)
Fixpoint str_segments (p : path) : string :=
  match p with
  | [] => ""
  | seg :: rest => "/" +:+ seg +:+ str_segments rest
  end.

Definition str_path (p : path) : string :=
  match p with
  | [] => "/"
  | _ => str_segments p
  end.

(** [name]: the last segment, [""] for the filesystem root. *)
Definition name (p : path) : string := List.last p "".

(** [current.relative_to(base)]: the segments below [base], or [ValueError]
    (here [None]) when [base] is not a segment-wise prefix of [current]. *)
Fixpoint relative_to (current base : path) {struct base} : option (list string) :=
  match base, current with
  | [], _ => Some current
  | b :: base', c :: current' =>
      if String.eqb b c then relative_to current' base' else None
  | _ :: _, [] => None
  end.

(** [str(rel)] of a relative path: ["."] when it has no segment. *)
Fixpoint join_rel (segs : list string) : string :=
  match segs with
  | [] => ""
  | [seg] => seg
  | seg :: rest => seg +:+ "/" +:+ join_rel rest
  end.

Definition str_rel (segs : list string) : string :=
  match segs with
  | [] => "."
  | _ => join_rel segs
  end.

(** A segment of a resolved path is never ["."]. *)
Definition plain (seg : string) : Prop := seg <> ".".

(** Containment as the specification words it: the path is the root itself
    or lies below it, segment by segment. *)
Definition inside (root p : path) : Prop := exists rest, p = root ++ rest.

End Paths.

(** ** The service's path guard, listing and archive naming *)

Module FilesService.
Import Paths.

(** [get_safe_path]: [None] is the traversal verdict. *)
Definition get_safe_path (workdir : path) (relative_path : string) : option path :=
  let target := resolve (joinpath workdir relative_path) in
  if negb (String.prefix (str_path workdir) (str_path target)) then None
  else Some target.

(** Truthiness of an [Optional[str]] argument. *)
Definition truthy (relative_path : option string) : option string :=
  match relative_path with
  | Some s => if String.eqb s "" then None else Some s
  | None => None
  end.

(** [(base / relative_path).resolve() if relative_path else base] *)
Definition target_of (base : path) (relative_path : option string) : path :=
  match truthy relative_path with
  | Some s => resolve (joinpath base s)
  | None => base
  end.

Inductive kind := KDir | KFile | KOther.

Definition is_dir (k : kind) : bool := match k with KDir => true | _ => false end.
Definition is_file (k : kind) : bool := match k with KFile => true | _ => false end.

Record listing := Listing {
  l_error : option string;
  l_current : string;
  l_parts : list string;
  l_folders : list string;
  l_files : list string;
  l_can_go_up : bool
}.

Definition denied (msg : string) : listing :=
  Listing (Some msg) "" [] [] [] false.

(** [sorted] on a list of [str]: ascending by code points. *)
Definition sorted (l : list string) : list string := merge_sort String.le l.

Definition hidden (n : string) : bool := String.prefix "." n.

Definition backslash : ascii := "\"%char.

(** [s.replace("\\", "/")] *)
Fixpoint replace_backslash (s : string) : string :=
  match s with
  | EmptyString => EmptyString
  | String c r =>
      String (if Ascii.eqb c backslash then slash else c) (replace_backslash r)
  end.

Section Browse.

(** The directory tree the service looks at: [iterdir] of a path gives the
    children's names and kinds, or the message of the exception it raises
    (missing directory, not a directory, permission). *)
Variable iterdir : path -> string + list (string * kind).
(** The message of the [ValueError] that [relative_to] raises. *)
Variable relative_to_message : path -> path -> string.

Definition names_where (p : kind -> bool) (entries : list (string * kind)) : list string :=
  map fst (filter (fun e => p (snd e) && negb (hidden (fst e)) = true) entries).

Definition browse (base : path) (relative_path : option string) : listing :=
  let current := target_of base relative_path in
  if negb (String.prefix (str_path base) (str_path current)) then
    denied "Access denied"
  else
    match iterdir current with
    | inl msg => denied msg
    | inr entries =>
        let folders := sorted (names_where is_dir entries) in
        let files := sorted (names_where is_file entries) in
        match relative_to current base with
        | None => denied (relative_to_message current base)
        | Some rel =>
            let at_root := String.eqb (str_rel rel) "." in
            Listing None
              (if at_root then "" else replace_backslash (str_rel rel))
              (if at_root then [] else rel)
              folders files (negb at_root)
        end
    end.

End Browse.

Inductive zip_error := PermissionError | ValueError.

Section BuildZip.

(** [is_dir()] of a path and the descendants [rglob("*")] yields, each with
    its segments below the target and its kind. *)
Variable path_is_dir : path -> bool.
Variable rglob : path -> list (list string * kind).

(** Order of [Path] objects: segment lists compared lexicographically. *)
Fixpoint parts_leb (a b : list string) : bool :=
  match a, b with
  | [], _ => true
  | _ :: _, [] => false
  | x :: a', y :: b' =>
      if String.eqb x y then parts_leb a' b' else String.leb x y
  end.

Definition parts_le (a b : list string * kind) : Prop :=
  parts_leb (fst a) (fst b) = true.

#[local] Instance parts_le_dec : RelDecision parts_le.
Proof. intros a b. unfold parts_le. apply _. Defined.

(** The archive is returned as the ordered list of member names written to
    it (segments relative to the target) and the suggested file name. *)
Definition build_zip (base : path) (relative_path : option string)
  : zip_error + (list (list string) * string) :=
  let target := target_of base relative_path in
  if negb (String.prefix (str_path base) (str_path target)) then inl PermissionError
  else if negb (path_is_dir target) then inl ValueError
  else
    let members :=
      map fst
        (filter (fun fp => is_file (snd fp) && negb (hidden (name (fst fp))) = true)
                (merge_sort parts_le (rglob target))) in
    let stem := if String.eqb (name target) "" then "export" else name target in
    inr (members, stem +:+ ".zip").

End BuildZip.

End FilesService.

(** ** JSON values and the metadata record *)

(** What [json.loads] returns.  A JSON object is a Python [dict]: an
    association list whose keys are looked up from the front. *)
Inductive json :=
| JNull
| JBool (b : bool)
| JNum (n : Z)
| JStr (s : string)
| JArr (items : list json)
| JObj (fields : list (string * json)).

Module Json.

(** [key in d] and [d[key]] for a [dict] with [str] keys. *)
Fixpoint get (fields : list (string * json)) (key : string) : option json :=
  match fields with
  | [] => None
  | (k, v) :: rest => if String.eqb k key then Some v else get rest key
  end.

Definition has_key (fields : list (string * json)) (key : string) : bool :=
  match get fields key with Some _ => true | None => false end.

(** [isinstance(v, dict)] *)
Definition is_dict (v : json) : bool :=
  match v with JObj _ => true | _ => false end.

(** [v is None] *)
Definition is_none (v : json) : bool :=
  match v with JNull => true | _ => false end.

End Json.

(** [FileMetadata].  [float] is the type of Python floats, left abstract. *)
Record FileMetadata {float : Type} := Meta {
  width : option Z;
  height : option Z;
  workflow : json;
  prompt : json;
  raw_text_chunks : gmap string string;
  duration : option float;
  fps : option float;
  video_codec : option string;
  comment : option string;
  error : option string
}.
Arguments FileMetadata : clear implicits.
Arguments Meta {float}.

(** [FileMetadata()] *)
Definition empty_meta {float : Type} : FileMetadata float :=
  Meta None None JNull JNull ∅ None None None None None.

(** Field assignments on the record. *)
Section Setters.

Context {float : Type}.
Abbreviation meta := (FileMetadata float).

Definition set_dims (m : meta) (w h : option Z) : meta :=
  Meta w h (workflow m) (prompt m) (raw_text_chunks m)
       (duration m) (fps m) (video_codec m) (comment m) (error m).

(** [meta.raw_text_chunks[key] = value] *)
Definition set_text (m : meta) (key value : string) : meta :=
  Meta (width m) (height m) (workflow m) (prompt m)
       (<[key := value]> (raw_text_chunks m))
       (duration m) (fps m) (video_codec m) (comment m) (error m).

Definition set_workflow (m : meta) (v : json) : meta :=
  Meta (width m) (height m) v (prompt m) (raw_text_chunks m)
       (duration m) (fps m) (video_codec m) (comment m) (error m).

Definition set_prompt (m : meta) (v : json) : meta :=
  Meta (width m) (height m) (workflow m) v (raw_text_chunks m)
       (duration m) (fps m) (video_codec m) (comment m) (error m).

Definition set_duration (m : meta) (d : option float) : meta :=
  Meta (width m) (height m) (workflow m) (prompt m) (raw_text_chunks m)
       d (fps m) (video_codec m) (comment m) (error m).

Definition set_fps (m : meta) (f : option float) : meta :=
  Meta (width m) (height m) (workflow m) (prompt m) (raw_text_chunks m)
       (duration m) f (video_codec m) (comment m) (error m).

Definition set_video_codec (m : meta) (c : option string) : meta :=
  Meta (width m) (height m) (workflow m) (prompt m) (raw_text_chunks m)
       (duration m) (fps m) c (comment m) (error m).

Definition set_comment (m : meta) (c : string) : meta :=
  Meta (width m) (height m) (workflow m) (prompt m) (raw_text_chunks m)
       (duration m) (fps m) (video_codec m) (Some c) (error m).

Definition set_error (m : meta) (msg : string) : meta :=
  Meta (width m) (height m) (workflow m) (prompt m) (raw_text_chunks m)
       (duration m) (fps m) (video_codec m) (comment m) (Some msg).

End Setters.

(** [_try_json]: the parsed value, [None] when [json.loads] raises
    ([json_loads] returns [None]). *)
Definition _try_json (json_loads : string -> option json) (text : string) : json :=
  match json_loads text with Some v => v | None => JNull end.

(** ** PNG chunk scanner *)

Module Png.

Local Open Scope Z_scope.

Abbreviation byte := Byte.byte.
Definition bytes := list byte.

#[global] Instance byte_eq_dec : EqDecision byte := Byte.byte_eq_dec.

Definition PNG_SIG : bytes :=
  [Byte.x89; Byte.x50; Byte.x4e; Byte.x47; Byte.x0d; Byte.x0a; Byte.x1a; Byte.x0a].

Definition len (data : bytes) : Z := Z.of_nat (length data).

(** [data[lo:hi]] for non-negative bounds: both are clamped to the length. *)
Definition slice (data : bytes) (lo hi : Z) : bytes :=
  let lo' := Z.min lo (len data) in
  let hi' := Z.min hi (len data) in
  take (Z.to_nat (hi' - lo')) (drop (Z.to_nat lo') data).

(** [data[lo:]] *)
Definition slice_from (data : bytes) (lo : Z) : bytes :=
  drop (Z.to_nat (Z.min lo (len data))) data.

Definition byte_val (b : byte) : Z := Z.of_N (Byte.to_N b).

(** [struct.unpack(">I", bs)[0]]: big-endian unsigned. *)
Definition unpack_u32 (bs : bytes) : Z :=
  fold_left (fun acc b => acc * 256 + byte_val b) bs 0.

(** [data.startswith(prefix)] *)
Fixpoint startswith (data pre : bytes) {struct pre} : bool :=
  match pre, data with
  | [], _ => true
  | p :: pre', d :: data' => Byte.eqb p d && startswith data' pre'
  | _ :: _, [] => false
  end.

(** [data.find(b"\x00")], [-1] when there is none. *)
Fixpoint find_nul (data : bytes) : Z :=
  match data with
  | [] => -1
  | b :: rest =>
      if Byte.eqb b Byte.x00 then 0
      else let r := find_nul rest in if r =? -1 then -1 else r + 1
  end.

(** [bs.decode("latin-1")]: one character per byte, never fails. *)
Definition latin1 (bs : bytes) : string := String.string_of_list_byte bs.

(** The four type tags the scanner compares with.  A tag is decoded as ASCII
    with replacement, so it equals one of these names exactly when its four
    bytes are the name's bytes; the tag is kept as bytes here. *)
Definition tag (s : string) : bytes := String.list_byte_of_string s.

Definition bytes_eqb (a b : bytes) : bool := bool_decide (a = b).

Section Decoder.

Context {float : Type}.
(** [zlib.decompress]: [None] when it raises. *)
Variable zlib_decompress : bytes -> option bytes.
(** [bs.decode("utf-8")] ([None] when it raises) and
    [bs.decode("utf-8", errors="replace")]. *)
Variable utf8_decode : bytes -> option string.
Variable utf8_decode_replace : bytes -> string.
(** [json.loads]: [None] when it raises. *)
Variable json_loads : string -> option json.

Abbreviation meta := (FileMetadata float).

Definition text_chunk (chunk_data : bytes) (m : meta) : meta :=
  let nul := find_nul chunk_data in
  if negb (nul =? -1) then
    set_text m (latin1 (slice chunk_data 0 nul)) (latin1 (slice_from chunk_data (nul + 1)))
  else m.

Definition ztxt_chunk (chunk_data : bytes) (m : meta) : meta :=
  let nul := find_nul chunk_data in
  if negb (nul =? -1) && (nul + 2 <? len chunk_data) then
    let key := latin1 (slice chunk_data 0 nul) in
    match zlib_decompress (slice_from chunk_data (nul + 2)) with
    | Some value => set_text m key (latin1 value)
    | None => m
    end
  else m.

(** [rest = rest[i + 1:]] when [i = rest.find(b"\x00")] is not [-1]. *)
Definition skip_field (rest : bytes) : bytes :=
  let i := find_nul rest in
  if negb (i =? -1) then slice_from rest (i + 1) else rest.

Definition itxt_chunk (chunk_data : bytes) (m : meta) : meta :=
  let nul := find_nul chunk_data in
  if negb (nul =? -1) && (nul + 3 <? len chunk_data) then
    let key := utf8_decode_replace (slice chunk_data 0 nul) in
    (* chunk_data[nul + 1], read as the value of the one-byte slice *)
    let compression_flag := slice chunk_data (nul + 1) (nul + 2) in
    let rest := skip_field (skip_field (slice_from chunk_data (nul + 3))) in
    if negb (unpack_u32 compression_flag =? 0) then
      match zlib_decompress rest with
      | Some raw =>
          match utf8_decode raw with
          | Some text => set_text m key text
          | None => m
          end
      | None => m
      end
    else set_text m key (utf8_decode_replace rest)
  else m.

(** The body of the loop after the chunk has been cut out: the updated
    record, or [None] for [break]. *)
Definition handle_chunk (chunk_type chunk_data : bytes) (m : meta) : option meta :=
  if bytes_eqb chunk_type (tag "IHDR") && (8 <=? len chunk_data) then
    Some (set_dims m (Some (unpack_u32 (slice chunk_data 0 4)))
                     (Some (unpack_u32 (slice chunk_data 4 8))))
  else if bytes_eqb chunk_type (tag "tEXt") then Some (text_chunk chunk_data m)
  else if bytes_eqb chunk_type (tag "zTXt") then Some (ztxt_chunk chunk_data m)
  else if bytes_eqb chunk_type (tag "iTXt") then Some (itxt_chunk chunk_data m)
  else if bytes_eqb chunk_type (tag "IEND") then None
  else Some m.

(** [while offset + 8 <= len(data)]; [fuel] bounds the iterations and
    [None] is returned only when it runs out. *)
Fixpoint scan (fuel : nat) (data : bytes) (offset : Z) (m : meta) : option meta :=
  if offset + 8 <=? len data then
    match fuel with
    | O => None
    | S fuel' =>
        let length := unpack_u32 (slice data offset (offset + 4)) in
        let chunk_type := slice data (offset + 4) (offset + 8) in
        let chunk_data := slice data (offset + 8) (offset + 8 + length) in
        let offset' := offset + (12 + length) in
        match handle_chunk chunk_type chunk_data m with
        | Some m' => scan fuel' data offset' m'
        | None => Some m
        end
    end
  else Some m.

(** The two [for candidate in (...)] loops after the scan. *)
Definition lift_candidates (raw : gmap string string) (lower upper : string)
  : option json :=
  match raw !! lower with
  | Some text => Some (_try_json json_loads text)
  | None =>
      match raw !! upper with
      | Some text => Some (_try_json json_loads text)
      | None => None
      end
  end.

Definition lift (m : meta) : meta :=
  let m1 :=
    match lift_candidates (raw_text_chunks m) "workflow" "Workflow" with
    | Some v => set_workflow m v
    | None => m
    end in
  match lift_candidates (raw_text_chunks m1) "prompt" "Prompt" with
  | Some v => set_prompt m1 v
  | None => m1
  end.

(** [_parse_png] on the bytes of the file. *)
Definition parse_png_bytes (data : bytes) : option meta :=
  if negb (startswith data PNG_SIG) then
    Some (set_error empty_meta "Not a valid PNG file")
  else
    match scan (length data) data 8 empty_meta with
    | Some m => Some (lift m)
    | None => None
    end.

(** [_parse_png]: [file] is what [read_bytes] gives, [inl msg] for an
    [OSError] with that message. *)
Definition _parse_png (file : string + bytes) : option meta :=
  match file with
  | inl msg => Some (set_error empty_meta msg)
  | inr data => parse_png_bytes data
  end.

End Decoder.

End Png.

(** ** Video probe adapter *)

Module Video.

Local Open Scope Z_scope.

(** The exceptions the frame-rate expression can raise. *)
Inductive exn := ValueError | ZeroDivisionError | OverflowError.

(** A small error monad for code that may raise. *)
Definition raises (A : Type) : Type := exn + A.
Definition ret {A} (a : A) : raises A := inr a.
Definition raise {A} (e : exn) : raises A := inl e.
Definition bind {A B} (k : A -> raises B) (c : raises A) : raises B :=
  match c with inl e => inl e | inr a => k a end.

#[global] Instance raises_ret : MRet raises := @ret.
#[global] Instance raises_bind : MBind raises := @bind.

(** [try: body except (ValueError, ZeroDivisionError): pass], where [body]
    ends in an assignment and [old] is the value the target keeps. *)
Definition try_except {A} (body : raises A) (old : A) : raises A :=
  match body with
  | inl ValueError => inr old
  | inl ZeroDivisionError => inr old
  | inl e => inl e
  | inr a => inr a
  end.

(** One entry of ["streams"] in the probe's output, with the fields the
    adapter reads; [None] is a missing key. *)
Record stream := Stream {
  codec_type : option string;
  s_width : option Z;
  s_height : option Z;
  codec_name : option string;
  r_frame_rate : option string;
  avg_frame_rate : option string
}.

(** The parsed output: the stream list, the format-level duration text and
    the container tags. *)
Record probe := Probe {
  streams : list stream;
  format_duration : option string;
  tags : gmap string string
}.

(** What running the probe gives: the three failures of the subprocess, or
    its output, [None] when the output is not JSON. *)
Inductive run_result :=
| ToolMissing
| ToolTimeout
| ToolFailed (msg : string)
| ToolOutput (data : option probe).

(** Truthiness of an optional string: [None] and [""] are falsy. *)
Definition truthy (v : option string) : bool :=
  match v with
  | Some s => negb (String.eqb s "")
  | None => false
  end.

(** [a or b] *)
Definition py_or (a b : option string) : option string :=
  if truthy a then a else b.

(** ["/" in s] *)
Fixpoint has_slash (s : string) : bool :=
  match s with
  | EmptyString => false
  | String c r => Ascii.eqb c Paths.slash || has_slash r
  end.

(** [s.split("/", 1)] for a string that has a slash. *)
Fixpoint split_once (s : string) : string * string :=
  match s with
  | EmptyString => (EmptyString, EmptyString)
  | String c r =>
      if Ascii.eqb c Paths.slash then (EmptyString, r)
      else let '(a, b) := split_once r in (String c a, b)
  end.

(** [stream.get("r_frame_rate") or stream.get("avg_frame_rate", "")] *)
Definition fps_text (s : stream) : string :=
  match py_or (r_frame_rate s) (Some (default "" (avg_frame_rate s))) with
  | Some text => text
  | None => ""
  end.

(** [tags.get("comment") or tags.get("Comment") or tags.get("COMMENT")] *)
Definition comment_tag (tg : gmap string string) : option string :=
  py_or (py_or (tg !! "comment") (tg !! "Comment")) (tg !! "COMMENT").

Section Adapter.

Context {float : Type}.
(** [int(text)]: [None] when it raises [ValueError]. *)
Variable py_int : string -> option Z.
(** [n / d] for a divisor other than zero: [None] when the quotient is too
    large for a float ([OverflowError]). *)
Variable float_div : Z -> Z -> option float.
(** [round(x, 3)] *)
Variable round3 : float -> float.
(** [float(text)] ([None] when it raises) and [x == 0.0]. *)
Variable float_of_str : string -> option float.
Variable float_is_zero : float -> bool.
Variable json_loads : string -> option json.

Abbreviation meta := (FileMetadata float).

Definition int_of (text : string) : raises Z :=
  match py_int text with Some n => ret n | None => raise ValueError end.

(** [n / d] on Python integers. *)
Definition truediv (n d : Z) : raises float :=
  if d =? 0 then raise ZeroDivisionError
  else match float_div n d with
       | Some q => ret q
       | None => raise OverflowError
       end.

(** [round(int(num) / int(den), 3) if int(den) else None] *)
Definition fps_expr (num den : string) : raises (option float) :=
  d ← int_of den;
  if negb (d =? 0) then
    n ← int_of num;
    d' ← int_of den;
    q ← truediv n d';
    ret (Some (round3 q))
  else ret None.

(** The frame-rate block of the stream loop: the value [meta.fps] has
    afterwards, or the exception that escapes. *)
Definition frame_rate (s : stream) (old : option float) : raises (option float) :=
  let fps_str := fps_text s in
  if has_slash fps_str then
    let '(num, den) := split_once fps_str in
    try_except (fps_expr num den) old
  else ret old.

(** [for stream in data.get("streams", [])]: the first video stream is
    read and the loop is left. *)
Fixpoint stream_loop (ss : list stream) (m : meta) : raises meta :=
  match ss with
  | [] => ret m
  | s :: rest =>
      if negb (bool_decide (codec_type s = Some "video")) then stream_loop rest m
      else
        let m1 := set_video_codec (set_dims m (s_width s) (s_height s)) (codec_name s) in
        f ← frame_rate s (fps m1);
        ret (set_fps m1 f)
  end.

(** [float(fmt.get("duration", 0)) or None], exceptions passed over. *)
Definition read_duration (fmt_duration : option string) (m : meta) : meta :=
  match fmt_duration with
  | None => set_duration m None
  | Some text =>
      match float_of_str text with
      | Some x => set_duration m (if float_is_zero x then None else Some x)
      | None => m
      end
  end.

(** The comment block: the tag under [comment], [Comment] or [COMMENT]. *)
Definition comment_pass (tg : gmap string string) (m : meta) : meta :=
  let comment_raw := comment_tag tg in
  match comment_raw with
  | Some text =>
      if truthy comment_raw then
        let m1 := set_comment m text in
        match _try_json json_loads text with
        | JObj fields =>
            let parsed := JObj fields in
            if Json.has_key fields "nodes" then
              let m2 := set_workflow m1 parsed in
              match Json.get fields "prompt" with
              | Some (JObj p) => set_prompt m2 (JObj p)
              | _ => m2
              end
            else if Json.has_key fields "prompt" then
              let m2 := set_prompt m1 (default JNull (Json.get fields "prompt")) in
              match Json.get fields "workflow" with
              | Some (JObj w) => set_workflow m2 (JObj w)
              | _ => m2
              end
            else set_prompt m1 parsed
        | _ => m1
        end
      else m
  | None => m
  end.

(** [for key in ("workflow", "Workflow", "WORKFLOW")]: the first key with a
    non-empty tag decides, then the loop is left. *)
Fixpoint workflow_loop (keys : list string) (tg : gmap string string) (m : meta) : meta :=
  match keys with
  | [] => m
  | key :: rest =>
      match tg !! key with
      | Some raw =>
          if truthy (Some raw) then
            match _try_json json_loads raw with
            | JObj fields =>
                if Json.has_key fields "nodes" then
                  let m1 := set_workflow m (JObj fields) in
                  match comment m1 with
                  | None => set_comment m1 raw
                  | Some _ => m1
                  end
                else m
            | _ => m
            end
          else workflow_loop rest tg m
      | None => workflow_loop rest tg m
      end
  end.

(** [for key in ("prompt", "Prompt", "PROMPT")] *)
Fixpoint prompt_loop (keys : list string) (tg : gmap string string) (m : meta) : meta :=
  match keys with
  | [] => m
  | key :: rest =>
      match tg !! key with
      | Some raw =>
          if truthy (Some raw) then
            match _try_json json_loads raw with
            | JObj fields => set_prompt m (JObj fields)
            | _ => m
            end
          else prompt_loop rest tg m
      | None => prompt_loop rest tg m
      end
  end.

Definition standalone_pass (tg : gmap string string) (m : meta) : meta :=
  let m1 :=
    if Json.is_none (workflow m) then
      workflow_loop ["workflow"; "Workflow"; "WORKFLOW"] tg m
    else m in
  if Json.is_none (prompt m1) then
    prompt_loop ["prompt"; "Prompt"; "PROMPT"] tg m1
  else m1.

(** The tag-precedence merge: the comment block, then the standalone tags. *)
Definition merge_tags (tg : gmap string string) (m : meta) : meta :=
  standalone_pass tg (comment_pass tg m).

(** [_parse_video] from the result of running the probe. *)
Definition _parse_video (run : run_result) : raises meta :=
  match run with
  | ToolMissing =>
      ret (set_error empty_meta "ffprobe not found; install ffmpeg to read video metadata")
  | ToolTimeout => ret (set_error empty_meta "ffprobe timed out")
  | ToolFailed msg => ret (set_error empty_meta msg)
  | ToolOutput None => ret (set_error empty_meta "Failed to parse ffprobe output")
  | ToolOutput (Some data) =>
      m1 ← stream_loop (streams data) empty_meta;
      ret (merge_tags (tags data) (read_duration (format_duration data) m1))
  end.

End Adapter.

End Video.

(** ** Executable instances of the library calls

    The theorems below hold for every [json_loads], [zlib_decompress], [int]
    and float arithmetic.  To evaluate concrete inputs the parameters are
    instantiated with the small functions of this part, each of which agrees
    with the Python call on the inputs it accepts. *)

Module JsonText.

Local Open Scope char_scope.

(** A text between double quotes, as it is written inside a JSON document. *)
Definition quoted (s : string) : string :=
  String "034" (s +:+ String "034" EmptyString).

Definition is_ws (c : ascii) : bool :=
  Ascii.eqb c " " || Ascii.eqb c "009" || Ascii.eqb c "010" || Ascii.eqb c "013".

Fixpoint skip_ws (s : string) : string :=
  match s with
  | String c r => if is_ws c then skip_ws r else s
  | EmptyString => s
  end.

Definition digit_val (c : ascii) : option Z :=
  let n := Z.of_N (N_of_ascii c) in
  if ((48 <=? n) && (n <=? 57))%Z then Some (n - 48)%Z else None.

(** The digits at the front of [s], accumulated in base ten. *)
Fixpoint digits (s : string) (acc : Z) : Z * string :=
  match s with
  | String c r =>
      match digit_val c with
      | Some d => digits r (acc * 10 + d)%Z
      | None => (acc, s)
      end
  | EmptyString => (acc, s)
  end.

(** An integer literal; a fraction or an exponent is outside the subset. *)
Definition number (s : string) : option (Z * string) :=
  let '(neg, body) :=
    match s with
    | String "-" r => (true, r)
    | _ => (false, s)
    end in
  match body with
  | String c r =>
      match digit_val c with
      | Some d =>
          let '(n, rest) := if (d =? 0)%Z then (0%Z, r) else digits r d in
          match rest with
          | String "." _ | String "e" _ | String "E" _ => None
          | _ => Some (if neg then (- n)%Z else n, rest)
          end
      | None => None
      end
  | EmptyString => None
  end.

(** The body of a string literal after its opening quote, with the simple
    escapes; control characters and [\u] escapes are outside the subset. *)
Fixpoint string_body (s : string) : option (string * string) :=
  match s with
  | EmptyString => None
  | String "034" r => Some (EmptyString, r)
  | String "\" (String e r) =>
      let unescaped :=
        if Ascii.eqb e "034" then Some "034"
        else if Ascii.eqb e "\" then Some "\"
        else if Ascii.eqb e "/" then Some "/"
        else if Ascii.eqb e "n" then Some "010"
        else if Ascii.eqb e "t" then Some "009"
        else if Ascii.eqb e "r" then Some "013"
        else if Ascii.eqb e "b" then Some "008"
        else if Ascii.eqb e "f" then Some "012"
        else None in
      match unescaped, string_body r with
      | Some c, Some (body, rest) => Some (String c body, rest)
      | _, _ => None
      end
  | String c r =>
      if (N_of_ascii c <? 32)%N then None
      else match string_body r with
           | Some (body, rest) => Some (String c body, rest)
           | None => None
           end
  end.

(** [d[key] = value] on the association list: a repeated key keeps its
    place and takes the later value. *)
Fixpoint dict_set (fields : list (string * json)) (key : string) (v : json)
  : list (string * json) :=
  match fields with
  | [] => [(key, v)]
  | (k, old) :: rest =>
      if String.eqb k key then (k, v) :: rest else (k, old) :: dict_set rest key v
  end.

Definition strip_prefix (pre s : string) : option string :=
  if String.prefix pre s
  then Some (String.substring (String.length pre) (String.length s - String.length pre) s)
  else None.

(** Recursive descent; [fuel] bounds the nesting and the number of items. *)
Fixpoint value (fuel : nat) (s : string) : option (json * string) :=
  match fuel with
  | O => None
  | S fuel' =>
      match skip_ws s with
      | String "{" r =>
          match skip_ws r with
          | String "}" r' => Some (JObj [], r')
          | _ => members fuel' r []
          end
      | String "[" r =>
          match skip_ws r with
          | String "]" r' => Some (JArr [], r')
          | _ => elements fuel' r []
          end
      | String "034" r =>
          match string_body r with
          | Some (body, rest) => Some (JStr body, rest)
          | None => None
          end
      | String "t" _ as w =>
          match strip_prefix "true" w with Some rest => Some (JBool true, rest) | None => None end
      | String "f" _ as w =>
          match strip_prefix "false" w with Some rest => Some (JBool false, rest) | None => None end
      | String "n" _ as w =>
          match strip_prefix "null" w with Some rest => Some (JNull, rest) | None => None end
      | w =>
          match number w with
          | Some (n, rest) => Some (JNum n, rest)
          | None => None
          end
      end
  end
with members (fuel : nat) (s : string) (acc : list (string * json))
  : option (json * string) :=
  match fuel with
  | O => None
  | S fuel' =>
      match skip_ws s with
      | String "034" r =>
          match string_body r with
          | Some (key, rest) =>
              match skip_ws rest with
              | String ":" rest' =>
                  match value fuel' rest' with
                  | Some (v, rest'') =>
                      let acc' := dict_set acc key v in
                      match skip_ws rest'' with
                      | String "," more => members fuel' more acc'
                      | String "}" done => Some (JObj acc', done)
                      | _ => None
                      end
                  | None => None
                  end
              | _ => None
              end
          | None => None
          end
      | _ => None
      end
  end
with elements (fuel : nat) (s : string) (acc : list json) : option (json * string) :=
  match fuel with
  | O => None
  | S fuel' =>
      match value fuel' s with
      | Some (v, rest) =>
          match skip_ws rest with
          | String "," more => elements fuel' more (acc ++ [v])
          | String "]" done => Some (JArr (acc ++ [v]), done)
          | _ => None
          end
      | None => None
      end
  end.

(** [json.loads] on the subset: objects, arrays, strings with the simple
    escapes, integers, [true], [false] and [null]. *)
Definition loads (text : string) : option json :=
  match value (S (String.length text)) text with
  | Some (v, rest) =>
      match skip_ws rest with
      | EmptyString => Some v
      | _ => None
      end
  | None => None
  end.

End JsonText.

Module Instances.

Import Png.
Local Open Scope Z_scope.

(** [int(text)] for an optional sign followed by decimal digits. *)
Definition int_decimal (text : string) : option Z :=
  let '(neg, body) :=
    match text with
    | String "-"%char r => (true, r)
    | String "+"%char r => (false, r)
    | _ => (false, text)
    end in
  match body with
  | EmptyString => None
  | _ =>
      match JsonText.digits body 0 with
      | (n, EmptyString) => Some (if neg then - n else n)
      | _ => None
      end
  end.

(** Exact quotients [n / d] as reduced-free pairs stand in for floats. *)
Definition ratio : Type := Z * Z.

Definition ratio_div (n d : Z) : option ratio := Some (n, d).

(** Nearest multiple of 1/1000, ties to even. *)
Definition ratio_round3 (q : ratio) : ratio :=
  let '(n, d) := q in
  let n' := if d <? 0 then - n else n in
  let d' := Z.abs d in
  let k := (1000 * n') / d' in
  let r := (1000 * n') mod d' in
  let k' :=
    if 2 * r <? d' then k
    else if d' <? 2 * r then k + 1
    else if Z.even k then k else k + 1 in
  (k', 1000).

Definition ratio_of_str (text : string) : option ratio :=
  match int_decimal text with Some n => Some (n, 1) | None => None end.

Definition ratio_is_zero (q : ratio) : bool := fst q =? 0.

(** UTF-8 decoding of ASCII bytes. *)
Definition is_ascii (bs : bytes) : bool := forallb (fun b => byte_val b <? 128) bs.

Definition utf8_ascii (bs : bytes) : option string :=
  if is_ascii bs then Some (latin1 bs) else None.

Definition utf8_ascii_replace (bs : bytes) : string :=
  latin1 (map (fun b => if byte_val b <? 128 then b else Byte.x3f) bs).

(** [zlib.decompress] for streams made of stored (uncompressed) blocks. *)
Definition adler32 (bs : bytes) : Z :=
  let '(a, b) :=
    fold_left (fun '(a, b) x =>
                 let a' := (a + byte_val x) mod 65521 in (a', (b + a') mod 65521))
              bs (1, 0) in
  b * 65536 + a.

Definition zlib_header_ok (cmf flg : byte) : bool :=
  (Z.land (byte_val cmf) 15 =? 8) && (byte_val cmf <? 128)
  && ((byte_val cmf * 256 + byte_val flg) mod 31 =? 0)
  && (Z.land (byte_val flg) 32 =? 0).

Fixpoint stored_blocks (fuel : nat) (bs : bytes) (out : bytes) : option (bytes * bytes) :=
  match fuel with
  | O => None
  | S fuel' =>
      match bs with
      | hd :: l0 :: l1 :: n0 :: n1 :: rest =>
          let size := byte_val l0 + 256 * byte_val l1 in
          let nsize := byte_val n0 + 256 * byte_val n1 in
          if (Z.land (byte_val hd) 6 =? 0) && (size + nsize =? 65535)
             && (size <=? len rest) then
            let out' := out ++ slice rest 0 size in
            let rest' := slice_from rest size in
            if Z.odd (byte_val hd) then Some (out', rest')
            else stored_blocks fuel' rest' out'
          else None
      | _ => None
      end
  end.

Definition inflate_stored (bs : bytes) : option bytes :=
  match bs with
  | cmf :: flg :: body =>
      if zlib_header_ok cmf flg then
        match stored_blocks (length body) body [] with
        | Some (out, trailer) =>
            if (len trailer =? 4) && (unpack_u32 trailer =? adler32 out)
            then Some out else None
        | None => None
        end
      else None
  | _ => None
  end.

End Instances.

(** ** Chunk-level view of a PNG buffer *)

Module Chunks.

Import Png.
Local Open Scope Z_scope.

(** A chunk as it lies in the file: tag, payload and the four CRC bytes. *)
Record chunk := Chunk {
  c_type : bytes;
  c_data : bytes;
  c_crc : bytes
}.

Definition byte_of (z : Z) : byte :=
  match Byte.of_N (Z.to_N (z mod 256)) with
  | Some b => b
  | None => Byte.x00
  end.

(** [struct.pack(">I", n)] *)
Definition pack_u32 (n : Z) : bytes :=
  [byte_of (n / 16777216); byte_of (n / 65536); byte_of (n / 256); byte_of n].

Definition encode (c : chunk) : bytes :=
  pack_u32 (len (c_data c)) ++ c_type c ++ c_data c ++ c_crc c.

Definition encode_all (cs : list chunk) : bytes := concat (map encode cs).

Definition well_formed (c : chunk) : Prop :=
  length (c_type c) = 4%nat /\ length (c_crc c) = 4%nat /\ len (c_data c) < 4294967296.

Definition is_iend (c : chunk) : bool := bytes_eqb (c_type c) (tag "IEND").

(** The dimensions an [IHDR] chunk with at least eight payload bytes holds. *)
Definition ihdr_dims (c : chunk) : option (Z * Z) :=
  if bytes_eqb (c_type c) (tag "IHDR") && (8 <=? len (c_data c)) then
    Some (unpack_u32 (slice (c_data c) 0 4), unpack_u32 (slice (c_data c) 4 8))
  else None.

(** The first such chunk of a list. *)
Fixpoint first_ihdr (cs : list chunk) : option (Z * Z) :=
  match cs with
  | [] => None
  | c :: rest =>
      match ihdr_dims c with
      | Some d => Some d
      | None => first_ihdr rest
      end
  end.

(** The last such chunk that lies before the first [IEND]. *)
Fixpoint last_ihdr (cs : list chunk) : option (Z * Z) :=
  match cs with
  | [] => None
  | c :: rest =>
      if is_iend c then None
      else match last_ihdr rest with
           | Some d => Some d
           | None => ihdr_dims c
           end
  end.

(** Number of chunks tagged [IHDR]. *)
Definition count_ihdr (cs : list chunk) : nat :=
  length (filter (fun c => c_type c = tag "IHDR") cs).

(** The key a text chunk would store a value under: the text before the
    first NUL byte of a [tEXt], [zTXt] or [iTXt] payload, whether or not the
    value after it decodes. *)
Definition text_key (utf8_decode_replace : bytes -> string) (c : chunk) : option string :=
  let nul := find_nul (c_data c) in
  if nul =? -1 then None
  else if bytes_eqb (c_type c) (tag "tEXt") then Some (latin1 (slice (c_data c) 0 nul))
  else if bytes_eqb (c_type c) (tag "zTXt") then Some (latin1 (slice (c_data c) 0 nul))
  else if bytes_eqb (c_type c) (tag "iTXt") then
    Some (utf8_decode_replace (slice (c_data c) 0 nul))
  else None.

(** A [tEXt] chunk for [key] and [value]. *)
Definition text (key value : string) (crc : bytes) : chunk :=
  Chunk (tag "tEXt")
        (String.list_byte_of_string key ++ [Byte.x00] ++ String.list_byte_of_string value)
        crc.

(** A [zTXt] chunk for [key] with compression method byte [method] and
    compressed stream [z]. *)
Definition ztxt (key : string) (method : byte) (z : bytes) (crc : bytes) : chunk :=
  Chunk (tag "zTXt") (String.list_byte_of_string key ++ [Byte.x00; method] ++ z) crc.

(** An [IHDR] chunk: width, height and the five further header bytes. *)
Definition ihdr (w h : Z) (crc : bytes) : chunk :=
  Chunk (tag "IHDR")
        (pack_u32 w ++ pack_u32 h ++ [Byte.x08; Byte.x02; Byte.x00; Byte.x00; Byte.x00])
        crc.

Definition iend (crc : bytes) : chunk := Chunk (tag "IEND") [] crc.

Definition no_nul (s : string) : Prop := Byte.x00 ∉ String.list_byte_of_string s.

Section Run.

Context {float : Type}.
Variable zlib_decompress : bytes -> option bytes.
Variable utf8_decode : bytes -> option string.
Variable utf8_decode_replace : bytes -> string.

(** The loop body applied to a list of chunks, left at the first [break]. *)
Fixpoint run (cs : list chunk) (m : FileMetadata float) : FileMetadata float :=
  match cs with
  | [] => m
  | c :: rest =>
      match handle_chunk zlib_decompress utf8_decode utf8_decode_replace
                         (c_type c) (c_data c) m with
      | Some m' => run rest m'
      | None => m
      end
  end.

End Run.

(** Sample buffers. *)
Definition crc0 : bytes := [Byte.x00; Byte.x00; Byte.x00; Byte.x00].

Definition two_ihdr : list chunk := [ihdr 1 2 crc0; ihdr 3 4 crc0; iend crc0].

(** The text [{"nodes":[]}]. *)
Definition workflow_text : string := "{" +:+ JsonText.quoted "nodes" +:+ ":[]}".

(** The text [{"x":1}]. *)
Definition prompt_text : string := "{" +:+ JsonText.quoted "x" +:+ ":1}".

Definition png_workflow : bytes :=
  PNG_SIG ++ encode_all [ihdr 512 768 crc0; text "workflow" workflow_text crc0; iend crc0].

Definition bad_stream : bytes := [Byte.xff; Byte.xff; Byte.x01].

Definition png_bad_ztxt : list chunk :=
  [ihdr 512 768 crc0; ztxt "workflow" Byte.x00 bad_stream crc0;
   text "prompt" prompt_text crc0; iend crc0].

(** The text [{"prompt": {"x":1}, "workflow": {"nodes":[]}}]. *)
Definition comment_text : string :=
  "{" +:+ JsonText.quoted "prompt" +:+ ": " +:+ prompt_text +:+ ", "
      +:+ JsonText.quoted "workflow" +:+ ": " +:+ workflow_text +:+ "}".

(** The text [{"foo":1}]. *)
Definition foo_text : string := "{" +:+ JsonText.quoted "foo" +:+ ":1}".

(** The decoder with the executable instances. *)
Definition sample_decode : bytes -> option (FileMetadata Instances.ratio) :=
  parse_png_bytes Instances.inflate_stored Instances.utf8_ascii
                  Instances.utf8_ascii_replace JsonText.loads.

End Chunks.

(** Sample probe results and directory trees. *)

Module Samples.

Import Video.

(** The adapter with the executable instances. *)
Definition sample_frame_rate : stream -> option Instances.ratio -> raises (option Instances.ratio) :=
  frame_rate Instances.int_decimal Instances.ratio_div Instances.ratio_round3.

Definition sample_merge
  : gmap string string -> FileMetadata Instances.ratio -> FileMetadata Instances.ratio :=
  merge_tags JsonText.loads.

Definition sample_parse_video : run_result -> raises (FileMetadata Instances.ratio) :=
  _parse_video Instances.int_decimal Instances.ratio_div Instances.ratio_round3
               Instances.ratio_of_str Instances.ratio_is_zero JsonText.loads.

Definition ntsc_stream : stream :=
  Stream (Some "video") (Some 1920%Z) (Some 1080%Z) (Some "h264")
         (Some "30000/1001") (Some "30000/1001").

Definition zero_den_stream : stream :=
  Stream (Some "video") (Some 640%Z) (Some 480%Z) (Some "vp9") (Some "0/0") (Some "0/0").

Definition comment_tags : gmap string string := {[ "comment" := Chunks.comment_text ]}.

Definition foo_tags : gmap string string := {[ "workflow" := Chunks.foo_text ]}.

(** A work directory [/data/out] next to a directory [/data/outside]. *)
Definition workdir : Paths.path := ["data"; "out"].

Definition sample_iterdir (p : Paths.path) : string + list (string * FilesService.kind) :=
  if bool_decide (p = ["data"; "out"]) then
    inr [("b.png", FilesService.KFile); (".cache", FilesService.KDir);
         ("sub", FilesService.KDir); ("a.png", FilesService.KFile);
         (".hidden.txt", FilesService.KFile); ("alpha", FilesService.KDir)]
  else if bool_decide (p = ["data"; "out"; "sub"]) then
    inr [("z.mp4", FilesService.KFile); ("clip.mp4", FilesService.KFile)]
  else if bool_decide (p = ["data"; "outside"]) then
    inr [("secret.txt", FilesService.KFile)]
  else inl "No such file or directory".

Definition sample_is_dir (p : Paths.path) : bool :=
  match sample_iterdir p with inr _ => true | inl _ => false end.

Definition sample_rglob (p : Paths.path) : list (list string * FilesService.kind) :=
  if bool_decide (p = ["data"; "out"]) then
    [(["sub"], FilesService.KDir); (["b.png"], FilesService.KFile);
     (["sub"; "z.mp4"], FilesService.KFile); (["a.png"], FilesService.KFile);
     ([".hidden.txt"], FilesService.KFile); (["sub"; "clip.mp4"], FilesService.KFile)]
  else if bool_decide (p = ["data"; "outside"]) then
    [(["secret.txt"], FilesService.KFile)]
  else [].

Definition sample_message (current base : Paths.path) : string :=
  "path is not in the subpath of the base".

End Samples.


(** ** Further chunk shapes *)

Module MoreChunks.

Import Png Chunks.
Local Open Scope Z_scope.

(** An [iTXt] chunk: keyword, compression flag and method, language tag,
    translated keyword and text. *)
Definition itxt (key : bytes) (flag method : byte) (lang translated body : bytes)
  (crc : bytes) : chunk :=
  Chunk (tag "iTXt")
        (key ++ [Byte.x00; flag; method] ++ lang ++ [Byte.x00]
             ++ translated ++ [Byte.x00] ++ body)
        crc.

(** Two chunks that differ at most in their CRC bytes. *)
Definition same_payload (c c' : chunk) : Prop :=
  c_type c = c_type c' /\ c_data c = c_data c'.

(** Chunks the loop body passes over: a tag that is none of the five it
    knows, an [IHDR] with fewer than eight payload bytes, or a text chunk
    whose payload has no NUL byte. *)
Definition known_tags : list bytes :=
  [tag "IHDR"; tag "tEXt"; tag "zTXt"; tag "iTXt"; tag "IEND"].

Definition text_tags : list bytes := [tag "tEXt"; tag "zTXt"; tag "iTXt"].

Definition inert (c : chunk) : Prop :=
  c_type c ∉ known_tags
  \/ (c_type c = tag "IHDR" /\ len (c_data c) < 8)
  \/ (c_type c ∈ text_tags /\ Byte.x00 ∉ c_data c).

(** The record's dimensions are both unset or both u32 values. *)
Definition dims_u32 {float : Type} (m : FileMetadata float) : Prop :=
  match width m, height m with
  | None, None => True
  | Some w, Some h => 0 <= w < 4294967296 /\ 0 <= h < 4294967296
  | _, _ => False
  end.

(** Sample data: the zlib stream of two stored bytes [hi], an image data
    chunk, and an [iTXt] chunk with key [prompt]. *)
Definition hi_stream : bytes :=
  [Byte.x78; Byte.x01; Byte.x01; Byte.x02; Byte.x00; Byte.xfd; Byte.xff;
   Byte.x68; Byte.x69; Byte.x01; Byte.x3b; Byte.x00; Byte.xd2].

Definition idat : chunk := Chunk (tag "IDAT") [Byte.x01; Byte.x02; Byte.x03] crc0.

Definition crc1 : bytes := [Byte.xde; Byte.xad; Byte.xbe; Byte.xef].

Definition itxt_prompt : chunk :=
  itxt (tag "prompt") Byte.x00 Byte.x00 (tag "en") (tag "Prompt")
       (String.list_byte_of_string prompt_text) crc0.

End MoreChunks.

(** ** Further probe samples *)

Module MoreVideo.

Import Video.

(** The fields the tag merge leaves alone: everything read from the streams
    and the format, the raw text mapping and the error. *)
Definition same_probe_fields {float : Type} (m m' : FileMetadata float) : Prop :=
  width m' = width m /\ height m' = height m /\ fps m' = fps m
  /\ video_codec m' = video_codec m /\ duration m' = duration m
  /\ error m' = error m /\ raw_text_chunks m' = raw_text_chunks m.

(** The nine tag names the merge looks up. *)
Definition tag_keys : list string :=
  ["comment"; "Comment"; "COMMENT"; "workflow"; "Workflow"; "WORKFLOW";
   "prompt"; "Prompt"; "PROMPT"].

Definition is_video (s : stream) : Prop := codec_type s = Some "video".

(** [float(fmt.get("duration", 0)) or None] as a value. *)
Definition duration_of {float : Type}
  (float_of_str : string -> option float) (float_is_zero : float -> bool)
  (fmt_duration : option string) : option float :=
  match fmt_duration with
  | None => None
  | Some text =>
      match float_of_str text with
      | Some x => if float_is_zero x then None else Some x
      | None => None
      end
  end.

Definition audio_stream : stream :=
  Stream (Some "audio") None None (Some "aac") (Some "0/0") (Some "0/0").

Definition second_video : stream :=
  Stream (Some "video") (Some 320%Z) (Some 240%Z) (Some "mjpeg") (Some "25/1") (Some "25/1").

(** A video stream whose [r_frame_rate] is [0/0] beside a usable
    [avg_frame_rate]. *)
Definition zero_rate_stream : stream :=
  Stream (Some "video") (Some 640%Z) (Some 480%Z) (Some "vp9") (Some "0/0") (Some "24/1").

Definition sample_probe : probe :=
  Probe [audio_stream; Samples.ntsc_stream; second_video] (Some "12") Samples.comment_tags.

(** Tags of a newer exporter: separate [workflow] and [prompt] tags. *)
Definition split_tags : gmap string string :=
  {[ "workflow" := Chunks.workflow_text; "prompt" := Chunks.prompt_text ]}.

(** The same with tags in other spellings beside them. *)
Definition noisy_tags : gmap string string :=
  <[ "cOMMENT" := Chunks.comment_text ]>
    (<[ "Workflow" := Chunks.foo_text ]> split_tags).

End MoreVideo.

(** ** Well-formed segments and further directory samples *)

Module MorePaths.

Import Paths FilesService.

(** No separator inside a segment. *)
Fixpoint slash_free (s : string) : bool :=
  match s with
  | EmptyString => true
  | String c r => negb (Ascii.eqb c slash) && slash_free r
  end.

(** A segment as a file system has them: not empty and without separator. *)
Definition proper (seg : string) : Prop := seg <> "" /\ slash_free seg = true.

(** A text that is empty or starts with a separator: what follows a
    segment inside the string of a path. *)
Definition boundary (s : string) : Prop := s = "" \/ exists r, s = String slash r.

(** A resolved path as the file system gives it: proper segments, none of
    them [.] or [..]. *)
Definition canonical (p : path) : Prop :=
  Forall (fun seg => proper seg /\ seg <> "." /\ seg <> "..") p.

(** Order of the archive members: [parts_leb] on segment lists. *)
Definition members_le (a b : list string) : Prop := parts_leb a b = true.

(** A tree with a dot-directory below the work directory. *)
Definition dotted_rglob (p : path) : list (list string * kind) :=
  [([".git"], KDir); ([".git"; "config"], KFile); (["readme.txt"], KFile);
   ([".env"], KFile); (["media"], KDir); (["media"; "a.png"], KFile)].

End MorePaths.

(** ** Preview, metadata dispatch and the HTTP layer *)

Module Facade.

Import Paths.
Local Open Scope Z_scope.

Definition PREVIEW_EXTS : list string :=
  [".jpg"; ".jpeg"; ".png"; ".gif"; ".webp";
   ".bmp"; ".svg"; ".ico"; ".tiff"; ".avif";
   ".mp4"; ".webm"; ".ogg"; ".mov"].

Definition VIDEO_EXTS : list string :=
  [".mp4"; ".webm"; ".ogg"; ".mov"; ".mkv"; ".avi"].

(** The exceptions of the preview path, each with its message: the two the
    service raises itself and whatever else reading the file raises. *)
Inductive preview_exn :=
| FileNotFoundError (msg : string)
| PermissionError (msg : string)
| OSError (msg : string).

Definition message (e : preview_exn) : string :=
  match e with
  | FileNotFoundError msg => msg
  | PermissionError msg => msg
  | OSError msg => msg
  end.

Record PreviewResult := Preview {
  content : Png.bytes;
  media_type : string;
  cache_max_age : Z
}.

(** What an endpoint answers: an [HTTPException], a response, or an
    exception that no handler of the endpoint catches. *)
Inductive answer (A : Type) :=
| HTTPException (status_code : Z) (detail : string)
| Response (body : A)
| Unhandled.
Arguments HTTPException {A}.
Arguments Response {A}.
Arguments Unhandled {A}.

(** [str(exc)] of the two exceptions [build_zip] raises. *)
Definition zip_message (e : FilesService.zip_error) : string :=
  match e with
  | FilesService.PermissionError => "Access denied"
  | FilesService.ValueError => "Path is not a directory"
  end.

(** The response fields of [files_meta]: the record without its error. *)
Definition response_of {float : Type} (m : FileMetadata float) : FileMetadata float :=
  Meta (width m) (height m) (workflow m) (prompt m) (raw_text_chunks m)
       (duration m) (fps m) (video_codec m) (comment m) None.

Section Service.

Context {float : Type}.
(** The file system: [is_file()], [read_bytes()] (or the exception it
    raises), children and descendants of a directory. *)
Variable is_file : path -> bool.
Variable read_bytes : path -> preview_exn + Png.bytes.
Variable path_is_dir : path -> bool.
Variable iterdir : path -> string + list (string * FilesService.kind).
Variable rglob : path -> list (list string * FilesService.kind).
Variable relative_to_message : path -> path -> string.
(** [Path.suffix], [str.lower], [repr] and [mimetypes.guess_type]. *)
Variable suffix : path -> string.
Variable lower : string -> string.
Variable repr : string -> string.
Variable guess_type : string -> option string.
(** The probe run on a file and the Pillow fallback, which catches every
    exception itself. *)
Variable run_probe : path -> Video.run_result.
Variable generic_image : path -> FileMetadata float.
(** The library calls of the two parsers. *)
Variable zlib_decompress : Png.bytes -> option Png.bytes.
Variable utf8_decode : Png.bytes -> option string.
Variable utf8_decode_replace : Png.bytes -> string.
Variable json_loads : string -> option json.
Variable py_int : string -> option Z.
Variable float_div : Z -> Z -> option float.
Variable round3 : float -> float.
Variable float_of_str : string -> option float.
Variable float_is_zero : float -> bool.

Definition not_found (p : string) : string := "File not found: " +:+ repr p.

(** [media_type or "application/octet-stream"] *)
Definition media_type_of (target : path) : string :=
  match guess_type (str_path target) with
  | Some t => if String.eqb t "" then "application/octet-stream" else t
  | None => "application/octet-stream"
  end.

Definition get_preview (workdir : path) (p : string) : preview_exn + PreviewResult :=
  match FilesService.get_safe_path workdir p with
  | None => inl (FileNotFoundError (not_found p))
  | Some target =>
      if negb (is_file target) then inl (FileNotFoundError (not_found p))
      else if negb (bool_decide (lower (suffix target) ∈ PREVIEW_EXTS)) then
        inl (PermissionError
               ("Preview not supported for extension " +:+ repr (suffix target)))
      else
        match read_bytes target with
        | inl e => inl e
        | inr data => inr (Preview data (media_type_of target) 3600)
        end
  end.

(** [get_file_meta]: the record, [None] only if the PNG scan ran out of
    fuel, or the exception that escapes the video parser. *)
Definition get_file_meta (workdir : path) (p : string)
  : Video.raises (option (FileMetadata float)) :=
  match FilesService.get_safe_path workdir p with
  | None => Video.ret (Some (set_error empty_meta (not_found p)))
  | Some target =>
      if negb (is_file target) then Video.ret (Some (set_error empty_meta (not_found p)))
      else
        let ext := lower (suffix target) in
        if String.eqb ext ".png" then
          Video.ret
            (Png._parse_png zlib_decompress utf8_decode utf8_decode_replace json_loads
               (match read_bytes target with
                | inl e => inl (message e)
                | inr data => inr data
                end))
        else if bool_decide (ext ∈ VIDEO_EXTS) then
          m ← Video._parse_video py_int float_div round3 float_of_str float_is_zero
                                 json_loads (run_probe target);
          Video.ret (Some m)
        else Video.ret (Some (generic_image target))
  end.

(** The endpoints of [files_router]. *)
Definition files_browse (workdir : path) (p : option string)
  : answer FilesService.listing :=
  let data := FilesService.browse iterdir relative_to_message workdir p in
  match FilesService.l_error data with
  | Some e => if String.eqb e "" then Response data else HTTPException 400 e
  | None => Response data
  end.

Definition files_preview (workdir : path) (p : string) : answer PreviewResult :=
  match get_preview workdir p with
  | inl (FileNotFoundError msg) => HTTPException 404 msg
  | inl (PermissionError msg) => HTTPException 400 msg
  | inl (OSError _) => Unhandled
  | inr result => Response result
  end.

Definition files_export_zip (workdir : path) (p : option string)
  : answer (list (list string) * string) :=
  match FilesService.build_zip path_is_dir rglob workdir p with
  | inl FilesService.PermissionError =>
      HTTPException 403 (zip_message FilesService.PermissionError)
  | inl FilesService.ValueError => HTTPException 400 (zip_message FilesService.ValueError)
  | inr archive => Response archive
  end.

Definition files_meta (workdir : path) (p : string) : answer (FileMetadata float) :=
  match get_file_meta workdir p with
  | inl _ => Unhandled
  | inr None => Unhandled
  | inr (Some m) =>
      match error m with
      | Some e => if String.eqb e "" then Response (response_of m) else HTTPException 404 e
      | None => Response (response_of m)
      end
  end.

End Service.

End Facade.

(** ** The preset guard of the config loader *)

Module ConfigLoader.

Import Paths.

(** [s.endswith(suffix)] *)
Definition endswith (s suffix : string) : bool :=
  let n := String.length s in
  let k := String.length suffix in
  (k <=? n)%nat && String.eqb (String.substring (n - k) k s) suffix.

(** [os.path.join(a, b)] *)
Definition os_join (a b : string) : string :=
  if String.prefix "/" b then b
  else if String.eqb a "" || endswith a "/" then a +:+ b
  else a +:+ "/" +:+ b.

(** [os.path.realpath(p)] on a tree without symbolic links, from the
    working directory [cwd]. *)
Definition realpath (cwd : path) (p : string) : path := resolve (joinpath cwd p).

(** [_safe_filepath]: the joined path, [None] for the [ValueError]. *)
Definition _safe_filepath (cwd : path) (presets_path config_name : string)
  : option string :=
  let config_name :=
    if negb (endswith config_name ".json") then config_name +:+ ".json"
    else config_name in
  let filepath := os_join presets_path config_name in
  let real_path := realpath cwd filepath in
  let real_dir := realpath cwd presets_path in
  if negb (String.prefix (str_path real_dir +:+ "/") (str_path real_path))
     && negb (String.eqb (str_path real_path) (str_path real_dir))
  then None
  else Some filepath.

End ConfigLoader.

(** ** Sample file system for the endpoints *)

Module FacadeSamples.

Import Paths Facade.
Local Open Scope Z_scope.

Definition files : list path :=
  [["data"; "out"; "a.png"]; ["data"; "out"; "b.PNG"]; ["data"; "out"; "notes.txt"];
   ["data"; "out"; "sub"; "clip.mp4"]].

Definition sample_is_file (p : path) : bool := bool_decide (p ∈ files).

Definition sample_read_bytes (p : path) : preview_exn + Png.bytes :=
  if bool_decide (p ∈ files) then inr Chunks.png_workflow
  else inl (FileNotFoundError "No such file or directory").

(** The text from the last dot of a name on, when there is a dot. *)
Fixpoint from_last_dot (s : string) : option string :=
  match s with
  | EmptyString => None
  | String c r =>
      match from_last_dot r with
      | Some found => Some found
      | None => if Ascii.eqb c "."%char then Some s else None
      end
  end.

(** [Path.suffix]: the text from the last dot of the name, unless that dot
    is the first or the last character. *)
Definition sample_suffix (p : path) : string :=
  match from_last_dot (name p) with
  | Some found =>
      if (String.length found <? String.length (name p))%nat
         && (1 <? String.length found)%nat
      then found else ""
  | None => ""
  end.

(** [str.lower] on the ASCII letters. *)
Definition lower_char (c : ascii) : ascii :=
  let n := N_of_ascii c in
  if ((65 <=? n) && (n <=? 90))%N then ascii_of_N (n + 32) else c.

Fixpoint sample_lower (s : string) : string :=
  match s with
  | EmptyString => EmptyString
  | String c r => String (lower_char c) (sample_lower r)
  end.

(** [repr] of a text without quotes or escapes. *)
Definition sample_repr (s : string) : string := "'" +:+ s +:+ "'".

Definition sample_guess_type (p : string) : option string :=
  if ConfigLoader.endswith p ".png" then Some "image/png"
  else if ConfigLoader.endswith p ".mp4" then Some "video/mp4"
  else None.

Definition sample_run_probe (p : path) : Video.run_result :=
  Video.ToolOutput (Some MoreVideo.sample_probe).

Definition sample_generic_image (p : path) : FileMetadata Instances.ratio :=
  set_dims empty_meta (Some 64) (Some 64).

Definition sample_preview : path -> string -> preview_exn + PreviewResult :=
  get_preview sample_is_file sample_read_bytes sample_suffix sample_lower sample_repr
              sample_guess_type.


End FacadeSamples.

(** * Properties *)

(** ** The path guard, the listing and the archive name *)

Module PathFacts.

Import Paths FilesService.

Lemma string_prefix_empty (s : string) : String.prefix "" s = true.
Proof. destruct s; reflexivity. Qed.

Lemma string_prefix_app (s t : string) : String.prefix s (s +:+ t) = true.
Proof.
  induction s as [|c s IH].
  - destruct t; reflexivity.
  - change (String c s +:+ t) with (String c (s +:+ t)). simpl.
    destruct (Ascii.ascii_dec c c) as [_|Hc]; [exact IH|congruence].
Qed.

Lemma string_app_assoc (s t u : string) : (s +:+ t) +:+ u = s +:+ (t +:+ u).
Proof.
  induction s as [|c s IH]; [reflexivity|].
  change (String c ((s +:+ t) +:+ u) = String c (s +:+ (t +:+ u))).
  rewrite IH. reflexivity.
Qed.

Lemma str_segments_app (a b : path) :
  str_segments (a ++ b) = str_segments a +:+ str_segments b.
Proof.
  induction a as [|seg a IH]; simpl; [reflexivity|].
  rewrite IH, !string_app_assoc. reflexivity.
Qed.

(** Every path that lies inside the root passes the prefix test. *)
Lemma inside_passes (root p : path) :
  inside root p -> String.prefix (str_path root) (str_path p) = true.
Proof.
  intros [rest ->]. destruct root as [|r root].
  - destruct rest as [|s rest]; [reflexivity|].
    change (str_path ([] ++ s :: rest)) with (String "/" (s +:+ str_segments rest)).
    simpl. apply string_prefix_empty.
  - change (str_path ((r :: root) ++ rest)) with (str_segments ((r :: root) ++ rest)).
    change (str_path (r :: root)) with (str_segments (r :: root)).
    rewrite str_segments_app. apply string_prefix_app.
Qed.

Lemma relative_to_app (current base rel : path) :
  relative_to current base = Some rel -> current = base ++ rel.
Proof.
  revert current. induction base as [|b base IH]; intros current; simpl.
  - intros [= ->]. reflexivity.
  - destruct current as [|c current]; [discriminate|].
    destruct (String.eqb b c) eqn:Hbc; [|discriminate].
    apply String.eqb_eq in Hbc as ->. intros H%IH. rewrite H. reflexivity.
Qed.

Lemma relative_to_self (base : path) : relative_to base base = Some [].
Proof.
  induction base as [|b base IH]; simpl; [reflexivity|].
  rewrite String.eqb_refl. exact IH.
Qed.

Lemma parse_segments_plain (s : string) : Forall plain (parse_segments s).
Proof.
  unfold parse_segments. apply Forall_forall. intros seg Hin.
  apply list_elem_of_filter in Hin as [Hkeep _].
  unfold keep_segment in Hkeep. apply andb_true_iff in Hkeep as [_ Hdot].
  intros ->. discriminate.
Qed.

Lemma removelast_plain (p : path) : Forall plain p -> Forall plain (removelast p).
Proof.
  induction 1 as [|seg p Hs Hp IH]; simpl; [constructor|].
  destruct p; [constructor|]. constructor; assumption.
Qed.

Lemma resolve_fold_plain (segs : list string) :
  forall acc : path,
    Forall plain acc -> Forall plain segs -> Forall plain (fold_left resolve_step segs acc).
Proof.
  induction segs as [|seg segs IH]; intros acc Hacc Hsegs; simpl; [assumption|].
  apply Forall_cons in Hsegs as [Hseg Hsegs]. apply IH; [|assumption].
  unfold resolve_step. destruct (String.eqb seg "..").
  - apply removelast_plain, Hacc.
  - apply Forall_app. split; [assumption|]. constructor; [assumption|constructor].
Qed.

Lemma target_plain (base : path) (relative_path : option string) :
  Forall plain base -> Forall plain (target_of base relative_path).
Proof.
  intros Hbase. unfold target_of. destruct (truthy relative_path) as [s|]; [|assumption].
  unfold resolve. apply resolve_fold_plain; [constructor|].
  unfold joinpath. destruct (is_absolute s).
  - apply parse_segments_plain.
  - apply Forall_app. split; [assumption|apply parse_segments_plain].
Qed.

Lemma str_rel_dot (rel : list string) :
  Forall plain rel -> String.eqb (str_rel rel) "." = true -> rel = [].
Proof.
  intros Hrel Hdot. apply String.eqb_eq in Hdot.
  destruct rel as [|seg rest]; [reflexivity|exfalso].
  apply Forall_cons in Hrel as [Hseg _].
  destruct rest as [|seg' rest]; simpl in Hdot; [contradiction|].
  destruct seg as [|c seg]; [discriminate|].
  destruct seg as [|c' seg]; simpl in Hdot; [|discriminate].
  injection Hdot as Hc Hrest. discriminate.
Qed.

Lemma names_where_visible (p : kind -> bool) (entries : list (string * kind)) :
  Forall (fun n => hidden n = false) (names_where p entries).
Proof.
  unfold names_where. apply Forall_forall. intros n Hn.
  apply list_elem_of_fmap in Hn as (e & -> & He).
  apply list_elem_of_filter in He as [He _].
  apply andb_true_iff in He as [_ He]. apply negb_true_iff in He. exact He.
Qed.

Lemma sorted_visible (l : list string) :
  Forall (fun n => hidden n = false) l -> Forall (fun n => hidden n = false) (sorted l).
Proof. unfold sorted. rewrite merge_sort_Permutation. auto. Qed.

Lemma sorted_ascending (l : list string) : StronglySorted String.le (sorted l).
Proof. unfold sorted. apply StronglySorted_merge_sort; apply _. Qed.

(** C1: the guard is a plain string-prefix test, so a sibling of the work
    directory whose name starts with the work directory's name passes it.
    With the work directory [/data/out], the relative path
    [../outside/secret.txt] resolves to [/data/outside/secret.txt], which is
    not inside the work directory, and [get_safe_path] returns it instead of
    the traversal verdict; [build_zip] archives [/data/outside] the same
    way. *)
Theorem get_safe_path_accepts_sibling :
  get_safe_path Samples.workdir "../outside/secret.txt"
  = Some ["data"; "outside"; "secret.txt"]
  /\ ~ inside Samples.workdir ["data"; "outside"; "secret.txt"]
  /\ build_zip Samples.sample_is_dir Samples.sample_rglob Samples.workdir (Some "../outside")
     = inr ([["secret.txt"]], "outside.zip")
  /\ ~ inside Samples.workdir (target_of Samples.workdir (Some "../outside")).
Proof.
  split; [reflexivity|]. split.
  { intros [rest H]. discriminate H. }
  split; [vm_compute; reflexivity|].
  intros [rest H]. discriminate H.
Qed.

(** C8: a listing that [browse] produces has no name starting with a dot,
    its folders and its files are each in ascending order, and [can_go_up]
    is false exactly when the listed directory is the root itself. *)
Theorem browse_listing
  (iterdir : path -> string + list (string * kind))
  (relative_to_message : path -> path -> string)
  (base : path) (relative_path : option string) :
  Forall plain base ->
  l_error (browse iterdir relative_to_message base relative_path) = None ->
  let l := browse iterdir relative_to_message base relative_path in
  Forall (fun n => hidden n = false) (l_folders l)
  /\ Forall (fun n => hidden n = false) (l_files l)
  /\ StronglySorted String.le (l_folders l)
  /\ StronglySorted String.le (l_files l)
  /\ (l_can_go_up l = false <-> target_of base relative_path = base).
Proof.
  intros Hbase. unfold browse.
  pose proof (target_plain base relative_path Hbase) as Hplain.
  set (current := target_of base relative_path) in *.
  destruct (negb (String.prefix (str_path base) (str_path current))); [discriminate|].
  destruct (iterdir current) as [msg|entries]; [discriminate|].
  destruct (relative_to current base) as [rel|] eqn:Hrel; [|discriminate].
  intros _. cbv zeta. simpl.
  pose proof (relative_to_app _ _ _ Hrel) as Hcur.
  split; [apply sorted_visible, names_where_visible|].
  split; [apply sorted_visible, names_where_visible|].
  split; [apply sorted_ascending|]. split; [apply sorted_ascending|].
  rewrite negb_false_iff. split.
  - intros Hdot. apply str_rel_dot in Hdot.
    + rewrite Hcur, Hdot. apply app_nil_r.
    + rewrite Hcur in Hplain. apply Forall_app in Hplain. apply Hplain.
  - intros Heq. rewrite Heq, relative_to_self in Hrel.
    injection Hrel as <-. reflexivity.
Qed.

Lemma browse_listing_witness :
  let l := browse Samples.sample_iterdir Samples.sample_message Samples.workdir (Some "sub") in
  Forall (fun n => hidden n = false) (l_folders l)
  /\ Forall (fun n => hidden n = false) (l_files l)
  /\ StronglySorted String.le (l_folders l)
  /\ StronglySorted String.le (l_files l)
  /\ (l_can_go_up l = false <-> target_of Samples.workdir (Some "sub") = Samples.workdir).
Proof.
  apply (browse_listing Samples.sample_iterdir Samples.sample_message
           Samples.workdir (Some "sub")).
  - repeat constructor; discriminate.
  - reflexivity.
Defined.

(** C9, as stated, fails: an archive built from the root [/data/out] itself
    is named after the root directory, not by the fallback name. *)
Lemma build_zip_root_named :
  build_zip Samples.sample_is_dir Samples.sample_rglob Samples.workdir None
  = inr ([["a.png"]; ["b.png"]; ["sub"; "clip.mp4"]; ["sub"; "z.mp4"]], "out.zip")
  /\ "out.zip" <> "export.zip".
Proof. split; [vm_compute; reflexivity|discriminate]. Qed.

(** C9 (amended): for every successful archive build the suggested file
    name is the name of the target directory followed by [.zip]; building
    from the root itself gives the root directory's own name, and the
    fallback name [export.zip] is used only when the target has an empty
    name, which is the filesystem root. *)
Theorem build_zip_filename
  (path_is_dir : path -> bool) (rglob : path -> list (list string * kind))
  (base : path) (relative_path : option string)
  (members : list (list string)) (filename : string) :
  build_zip path_is_dir rglob base relative_path = inr (members, filename) ->
  let target := target_of base relative_path in
  (name target <> "" -> filename = name target +:+ ".zip")
  /\ (name target = "" -> filename = "export.zip")
  /\ (truthy relative_path = None -> name base <> "" -> filename = name base +:+ ".zip").
Proof.
  intros H. cbv zeta. unfold build_zip in H.
  set (target := target_of base relative_path) in *.
  destruct (negb (String.prefix (str_path base) (str_path target))); [discriminate|].
  destruct (negb (path_is_dir target)); [discriminate|].
  injection H as _ <-.
  assert (name target <> "" -> String.eqb (name target) "" = false) as Hne
    by (intros Hn; apply String.eqb_neq, Hn).
  split; [intros Hn; rewrite (Hne Hn); reflexivity|].
  split; [intros ->; reflexivity|].
  intros Hroot Hn. subst target. unfold target_of in *. rewrite Hroot in *.
  rewrite (Hne Hn). reflexivity.
Qed.

Lemma build_zip_filename_witness :
  build_zip Samples.sample_is_dir Samples.sample_rglob Samples.workdir (Some "sub")
  = inr ([], "sub.zip")
  /\ ((name (target_of Samples.workdir (Some "sub")) <> "" ->
       "sub.zip" = name (target_of Samples.workdir (Some "sub")) +:+ ".zip")
      /\ (name (target_of Samples.workdir (Some "sub")) = "" -> "sub.zip" = "export.zip")
      /\ (truthy (Some "sub") = None -> name Samples.workdir <> "" ->
          "sub.zip" = name Samples.workdir +:+ ".zip")).
Proof.
  split; [vm_compute; reflexivity|].
  apply (build_zip_filename Samples.sample_is_dir Samples.sample_rglob
           Samples.workdir (Some "sub") [] "sub.zip").
  vm_compute. reflexivity.
Defined.

End PathFacts.

(** ** The PNG scanner *)

Module PngFacts.

Import Png Chunks.
Local Open Scope Z_scope.

Lemma byte_val_range (b : byte) : 0 <= byte_val b < 256.
Proof.
  unfold byte_val. pose proof (Byte.to_N_bounded b) as Hb.
  lia.
Qed.

Lemma unpack_from_bounds (bs : bytes) (acc : Z) :
  0 <= acc ->
  0 <= fold_left (fun a b => a * 256 + byte_val b) bs acc
    < (acc + 1) * 256 ^ Z.of_nat (length bs).
Proof.
  revert acc. induction bs as [|b bs IH]; intros acc Hacc; simpl length; simpl fold_left.
  - change (256 ^ Z.of_nat 0) with 1. lia.
  - pose proof (byte_val_range b) as Hb.
    specialize (IH (acc * 256 + byte_val b) ltac:(lia)).
    rewrite Nat2Z.inj_succ, Z.pow_succ_r by lia.
    split; [lia|].
    eapply Z.lt_le_trans; [apply IH|].
    assert (0 < 256 ^ Z.of_nat (length bs)) by (apply Z.pow_pos_nonneg; lia).
    nia.
Qed.

Lemma unpack_u32_nonneg (bs : bytes) : 0 <= unpack_u32 bs.
Proof. unfold unpack_u32. apply (unpack_from_bounds bs 0). lia. Qed.

Lemma unpack_u32_lt (bs : bytes) :
  (length bs <= 4)%nat -> unpack_u32 bs < 4294967296.
Proof.
  intros Hlen. unfold unpack_u32.
  pose proof (unpack_from_bounds bs 0 ltac:(lia)) as [_ H].
  eapply Z.lt_le_trans; [apply H|].
  change 4294967296 with (256 ^ 4). rewrite Z.add_0_l, Z.mul_1_l.
  apply Z.pow_le_mono_r; lia.
Qed.

Lemma len_nonneg (data : bytes) : 0 <= len data.
Proof. unfold len. lia. Qed.

Lemma len_app (a b : bytes) : len (a ++ b) = len a + len b.
Proof. unfold len. rewrite length_app. lia. Qed.

Lemma slice_length_le (data : bytes) (lo hi : Z) :
  Z.of_nat (length (slice data lo hi)) <= Z.max 0 (hi - lo).
Proof.
  unfold slice. rewrite length_take. pose proof (len_nonneg data). lia.
Qed.


Lemma slice_middle (a b c : bytes) :
  slice (a ++ b ++ c) (len a) (len a + len b) = b.
Proof.
  unfold slice. rewrite !len_app.
  pose proof (len_nonneg a). pose proof (len_nonneg b). pose proof (len_nonneg c).
  rewrite !Z.min_l by lia.
  replace (Z.to_nat (len a)) with (length a) by (unfold len; lia).
  replace (Z.to_nat (len a + len b - len a)) with (length b) by (unfold len; lia).
  rewrite drop_app_length. apply take_app_length.
Qed.

Lemma slice_from_tail (a b : bytes) : slice_from (a ++ b) (len a) = b.
Proof.
  unfold slice_from. rewrite len_app. pose proof (len_nonneg b).
  rewrite Z.min_l by lia.
  replace (Z.to_nat (len a)) with (length a) by (unfold len; lia).
  apply drop_app_length.
Qed.

Lemma slice_head (a b : bytes) : slice (a ++ b) 0 (len a) = a.
Proof. apply (slice_middle [] a b). Qed.

Lemma byte_val_of (z : Z) : byte_val (byte_of z) = z mod 256.
Proof.
  unfold byte_val, byte_of.
  pose proof (Z.mod_pos_bound z 256 ltac:(lia)) as Hz.
  destruct (Byte.of_N (Z.to_N (z mod 256))) as [b|] eqn:Hb.
  - apply Byte.to_of_N in Hb. rewrite Hb. lia.
  - apply Byte.of_N_None_iff in Hb. lia.
Qed.

Lemma unpack_pack_u32 (n : Z) :
  0 <= n < 4294967296 -> unpack_u32 (pack_u32 n) = n.
Proof.
  intros Hn. unfold unpack_u32, pack_u32. simpl fold_left.
  rewrite !byte_val_of.
  rewrite (Z.mod_small (n / 16777216)) by (split; [apply Z.div_pos; lia|apply Z.div_lt_upper_bound; lia]).
  Z.to_euclidean_division_equations. lia.
Qed.

Lemma pack_u32_length (n : Z) : length (pack_u32 n) = 4%nat.
Proof. reflexivity. Qed.

Lemma encode_length (c : chunk) :
  well_formed c -> len (encode c) = 12 + len (c_data c).
Proof.
  intros (Ht & Hc & _). unfold encode, len.
  rewrite !length_app, pack_u32_length, Ht, Hc. lia.
Qed.

Lemma slice_at (data a b c : bytes) (lo hi : Z) :
  data = a ++ b ++ c -> lo = len a -> hi = lo + len b -> slice data lo hi = b.
Proof. intros -> -> ->. apply slice_middle. Qed.

Ltac len_arith :=
  unfold len; rewrite ?length_app, ?pack_u32_length; simpl length; lia.

(** Cutting a chunk out of a buffer at the offset where it starts. *)
Lemma chunk_at (pre rest : bytes) (c : chunk) :
  well_formed c ->
  let data := pre ++ encode c ++ rest in
  let offset := len pre in
  unpack_u32 (slice data offset (offset + 4)) = len (c_data c)
  /\ slice data (offset + 4) (offset + 8) = c_type c
  /\ slice data (offset + 8) (offset + 8 + len (c_data c)) = c_data c.
Proof.
  intros (Ht & Hc & Hd) data offset. subst data offset. unfold encode.
  pose proof (len_nonneg (c_data c)).
  set (n := pack_u32 (len (c_data c))).
  split; [|split].
  - rewrite (slice_at _ pre n (c_type c ++ c_data c ++ c_crc c ++ rest)).
    + apply unpack_pack_u32. lia.
    + rewrite <- !app_assoc. reflexivity.
    + reflexivity.
    + reflexivity.
  - apply (slice_at _ (pre ++ n) (c_type c) (c_data c ++ c_crc c ++ rest)).
    + rewrite <- !app_assoc. reflexivity.
    + subst n. len_arith.
    + unfold len. rewrite Ht. lia.
  - apply (slice_at _ (pre ++ n ++ c_type c) (c_data c) (c_crc c ++ rest)).
    + rewrite <- !app_assoc. reflexivity.
    + subst n. unfold len. rewrite !length_app, pack_u32_length, Ht. lia.
    + lia.
Qed.

Lemma find_nul_app (k r : bytes) :
  Byte.x00 ∉ k -> find_nul (k ++ Byte.x00 :: r) = len k.
Proof.
  induction k as [|b k IH]; intros Hk; [reflexivity|].
  apply not_elem_of_cons in Hk as [Hb Hk]. specialize (IH Hk).
  simpl. destruct (Byte.eqb b Byte.x00) eqn:Hbe.
  - apply Byte.byte_dec_bl in Hbe. congruence.
  - rewrite IH. pose proof (len_nonneg k).
    destruct (len k =? -1) eqn:Hm; [apply Z.eqb_eq in Hm; lia|].
    unfold len. simpl length. lia.
Qed.

Lemma no_nul_workflow : no_nul "workflow".
Proof. unfold no_nul. rewrite list_elem_of_In. simpl. intuition discriminate. Qed.

Lemma latin1_bytes (s : string) : latin1 (String.list_byte_of_string s) = s.
Proof. apply String.string_of_list_byte_of_string. Qed.

Section DecoderFacts.

Context {float : Type}.
Variable zlib_decompress : bytes -> option bytes.
Variable utf8_decode : bytes -> option string.
Variable utf8_decode_replace : bytes -> string.
Variable json_loads : string -> option json.

Abbreviation meta := (FileMetadata float).
Abbreviation handle := (@handle_chunk float zlib_decompress utf8_decode utf8_decode_replace).
Abbreviation scan_from := (@scan float zlib_decompress utf8_decode utf8_decode_replace).
Abbreviation decode :=
  (@parse_png_bytes float zlib_decompress utf8_decode utf8_decode_replace json_loads).
Abbreviation run_chunks := (@run float zlib_decompress utf8_decode utf8_decode_replace).

(** Enough fuel: the scan returns whenever the fuel exceeds the bytes left. *)
Lemma scan_returns (fuel : nat) (data : bytes) :
  forall (offset : Z) (m : meta),
    len data - offset < Z.of_nat fuel ->
    exists m', scan_from fuel data offset m = Some m'.
Proof.
  induction fuel as [|fuel IH]; intros offset m Hfuel; simpl.
  - destruct (offset + 8 <=? len data) eqn:Hle; [apply Z.leb_le in Hle; lia|eauto].
  - destruct (offset + 8 <=? len data) eqn:Hle; [|eauto].
    destruct (handle _ _ m) as [m1|]; [|eauto].
    apply IH.
    pose proof (unpack_u32_nonneg (slice data offset (offset + 4))). lia.
Qed.

(** C10: the chunk loop of [_parse_png] terminates on every buffer.  The
    decoder returns a record for every byte list, and at every offset the
    length field read there is a u32, so the next offset lies at least
    twelve bytes further. *)
Theorem png_scan_terminates (data : bytes) :
  (exists m, decode data = Some m)
  /\ (forall offset : Z,
        let length := unpack_u32 (slice data offset (offset + 4)) in
        0 <= length < 4294967296 /\ offset + 12 <= offset + (12 + length)).
Proof.
  split.
  - unfold parse_png_bytes. destruct (negb (startswith data PNG_SIG)); [eauto|].
    destruct (scan_returns (length data) data 8 empty_meta) as [m Hm].
    + unfold len. lia.
    + rewrite Hm. eauto.
  - intros offset length.
    pose proof (unpack_u32_nonneg (slice data offset (offset + 4))) as H0.
    assert (length < 4294967296).
    { apply unpack_u32_lt.
      pose proof (slice_length_le data offset (offset + 4)). lia. }
    subst length. lia.
Qed.

Lemma scan_step (fuel : nat) (data : bytes) (offset : Z) (m : meta) :
  scan_from (S fuel) data offset m =
  if offset + 8 <=? len data then
    let length := unpack_u32 (slice data offset (offset + 4)) in
    match handle (slice data (offset + 4) (offset + 8))
                 (slice data (offset + 8) (offset + 8 + length)) m with
    | Some m' => scan_from fuel data (offset + (12 + length)) m'
    | None => Some m
    end
  else Some m.
Proof. reflexivity. Qed.

Lemma scan_stop (fuel : nat) (data : bytes) (offset : Z) (m : meta) :
  len data < offset + 8 -> scan_from fuel data offset m = Some m.
Proof.
  intros Hend. apply Z.leb_gt in Hend.
  destruct fuel; simpl; rewrite Hend; reflexivity.
Qed.

(** Scanning a buffer made of whole chunks is running the loop body over
    the chunks; up to seven stray bytes may follow the last chunk. *)
Lemma scan_run (cs : list chunk) :
  forall (fuel : nat) (pre tail : bytes) (m : meta),
    Forall well_formed cs ->
    (length cs <= fuel)%nat ->
    len tail < 8 ->
    scan_from fuel (pre ++ encode_all cs ++ tail) (len pre) m = Some (run_chunks cs m).
Proof.
  induction cs as [|c cs IH]; intros fuel pre tail m Hwf Hfuel Htail.
  - unfold encode_all. simpl concat. simpl app.
    apply scan_stop. rewrite len_app. lia.
  - apply Forall_cons in Hwf as [Hc Hcs].
    destruct fuel as [|fuel]; [simpl in Hfuel; lia|].
    change (encode_all (c :: cs)) with (encode c ++ encode_all cs).
    rewrite <- (app_assoc (encode c)).
    destruct (chunk_at pre (encode_all cs ++ tail) c Hc) as (Hlen & Hty & Hdat).
    pose proof (encode_length c Hc) as Henc.
    pose proof (len_nonneg (c_data c)).
    pose proof (len_nonneg (encode_all cs)). pose proof (len_nonneg tail).
    rewrite scan_step.
    assert ((len pre + 8 <=? len (pre ++ encode c ++ encode_all cs ++ tail)) = true) as ->.
    { apply Z.leb_le. rewrite !len_app. lia. }
    cbv zeta. rewrite Hlen, Hty, Hdat. simpl run.
    destruct (handle (c_type c) (c_data c) m) as [m1|]; [|reflexivity].
    rewrite (app_assoc pre).
    replace (len pre + (12 + len (c_data c))) with (len (pre ++ encode c))
      by (rewrite len_app; lia).
    apply IH; [assumption|simpl in Hfuel; lia|assumption].
Qed.

Lemma encode_all_length (cs : list chunk) :
  Forall well_formed cs -> (length cs <= length (encode_all cs))%nat.
Proof.
  induction 1 as [|c cs Hc _ IH]; [simpl; lia|].
  change (encode_all (c :: cs)) with (encode c ++ encode_all cs).
  rewrite length_app. pose proof (encode_length c Hc) as Hl.
  pose proof (len_nonneg (c_data c)). unfold len in Hl. simpl length. lia.
Qed.

(** Decoding signature, chunks and at most seven trailing bytes. *)
Lemma decode_chunks (cs : list chunk) (tail : bytes) :
  Forall well_formed cs ->
  len tail < 8 ->
  decode (PNG_SIG ++ encode_all cs ++ tail)
  = Some (lift json_loads (run_chunks cs empty_meta)).
Proof.
  intros Hwf Htail. unfold parse_png_bytes.
  assert (startswith (PNG_SIG ++ encode_all cs ++ tail) PNG_SIG = true) as ->
    by reflexivity.
  simpl negb. cbv iota.
  change 8 with (len PNG_SIG) at 1.
  rewrite scan_run; [reflexivity|assumption| |assumption].
  pose proof (encode_all_length cs Hwf). rewrite !length_app. lia.
Qed.

(** What one chunk does to the record. *)
Lemma handle_iend (c : chunk) (m : meta) :
  is_iend c = true -> handle (c_type c) (c_data c) m = None.
Proof.
  unfold is_iend, bytes_eqb. intros Hc%bool_decide_eq_true.
  unfold handle_chunk. rewrite Hc. reflexivity.
Qed.

Lemma handle_continues (c : chunk) (m : meta) :
  is_iend c = false -> exists m', handle (c_type c) (c_data c) m = Some m'.
Proof.
  unfold is_iend. intros Hc. unfold handle_chunk. rewrite Hc.
  repeat match goal with |- context [if ?b then _ else _] => destruct b end; eauto.
Qed.

Lemma text_chunk_fields (d : bytes) (m : meta) :
  let m' := text_chunk d m in
  width m' = width m /\ height m' = height m /\ workflow m' = workflow m
  /\ prompt m' = prompt m /\ error m' = error m.
Proof. unfold text_chunk. destruct (negb _); simpl; auto. Qed.

Lemma ztxt_chunk_fields (d : bytes) (m : meta) :
  let m' := ztxt_chunk zlib_decompress d m in
  width m' = width m /\ height m' = height m /\ workflow m' = workflow m
  /\ prompt m' = prompt m /\ error m' = error m.
Proof.
  unfold ztxt_chunk. destruct (_ && _); simpl; auto.
  destruct (zlib_decompress _); simpl; auto.
Qed.

Lemma itxt_chunk_fields (d : bytes) (m : meta) :
  let m' := itxt_chunk zlib_decompress utf8_decode utf8_decode_replace d m in
  width m' = width m /\ height m' = height m /\ workflow m' = workflow m
  /\ prompt m' = prompt m /\ error m' = error m.
Proof.
  unfold itxt_chunk. destruct (_ && _); simpl; auto.
  destruct (negb _); simpl; auto.
  destruct (zlib_decompress _); simpl; auto.
  destruct (utf8_decode _); simpl; auto.
Qed.

(** No chunk touches the lifted fields or the error field. *)
Lemma handle_fields (t d : bytes) (m m' : meta) :
  handle t d m = Some m' ->
  workflow m' = workflow m /\ prompt m' = prompt m /\ error m' = error m.
Proof.
  unfold handle_chunk.
  pose proof (text_chunk_fields d m) as (_ & _ & Ht).
  pose proof (ztxt_chunk_fields d m) as (_ & _ & Hz).
  pose proof (itxt_chunk_fields d m) as (_ & _ & Hi).
  repeat match goal with |- context [if ?b then _ else _] => destruct b end;
    intros [= <-]; auto.
Qed.

(** Only an [IHDR] chunk with eight payload bytes touches the dimensions. *)
Lemma handle_dims (c : chunk) (m m' : meta) :
  handle (c_type c) (c_data c) m = Some m' ->
  (width m', height m') =
  match ihdr_dims c with
  | Some (w, h) => (Some w, Some h)
  | None => (width m, height m)
  end.
Proof.
  unfold handle_chunk, ihdr_dims.
  pose proof (text_chunk_fields (c_data c) m) as (Ht1 & Ht2 & _).
  pose proof (ztxt_chunk_fields (c_data c) m) as (Hz1 & Hz2 & _).
  pose proof (itxt_chunk_fields (c_data c) m) as (Hi1 & Hi2 & _).
  destruct (bytes_eqb (c_type c) (tag "IHDR") && (8 <=? len (c_data c))).
  - intros [= <-]. reflexivity.
  - repeat match goal with |- context [if ?b then _ else _] => destruct b end;
      intros [= <-]; congruence.
Qed.

(** A chunk writes the raw mapping at its own key only. *)
Lemma handle_raw (c : chunk) (m m' : meta) (k : string) :
  handle (c_type c) (c_data c) m = Some m' ->
  text_key utf8_decode_replace c ≠ Some k ->
  raw_text_chunks m' !! k = raw_text_chunks m !! k.
Proof.
  unfold handle_chunk, text_key.
  destruct (bytes_eqb (c_type c) (tag "IHDR") && _); [intros [= <-]; reflexivity|].
  destruct (bytes_eqb (c_type c) (tag "tEXt")).
  { intros [= <-] Hk. unfold text_chunk.
    destruct (find_nul (c_data c) =? -1); simpl; [reflexivity|].
    apply lookup_insert_ne. congruence. }
  destruct (bytes_eqb (c_type c) (tag "zTXt")).
  { intros [= <-] Hk. unfold ztxt_chunk.
    destruct (find_nul (c_data c) =? -1); simpl; [reflexivity|].
    destruct (_ <? _); [|reflexivity].
    destruct (zlib_decompress _); simpl; [|reflexivity].
    apply lookup_insert_ne. congruence. }
  destruct (bytes_eqb (c_type c) (tag "iTXt")).
  { intros [= <-] Hk. unfold itxt_chunk.
    destruct (find_nul (c_data c) =? -1); simpl; [reflexivity|].
    destruct (_ <? _); [|reflexivity].
    destruct (negb _).
    - destruct (zlib_decompress _); simpl; [|reflexivity].
      destruct (utf8_decode _); simpl; [|reflexivity].
      apply lookup_insert_ne. congruence.
    - simpl. apply lookup_insert_ne. congruence. }
  destruct (bytes_eqb (c_type c) (tag "IEND")); intros [= <-]; reflexivity.
Qed.

(** A [tEXt] chunk stores its value under its key. *)
Lemma handle_text (key value : string) (crc : bytes) (m : meta) :
  no_nul key ->
  handle (c_type (text key value crc)) (c_data (text key value crc)) m
  = Some (set_text m key value).
Proof.
  intros Hk. unfold text. simpl c_type. simpl c_data.
  unfold handle_chunk.
  change (bytes_eqb (tag "tEXt") (tag "IHDR")) with false.
  change (bytes_eqb (tag "tEXt") (tag "tEXt")) with true.
  cbv iota. simpl andb. cbv iota.
  unfold text_chunk. simpl app.
  rewrite (find_nul_app _ _ Hk).
  pose proof (len_nonneg (String.list_byte_of_string key)) as Hlen.
  destruct (len (String.list_byte_of_string key) =? -1) eqn:Hm;
    [apply Z.eqb_eq in Hm; lia|].
  simpl negb. cbv iota.
  rewrite slice_head, latin1_bytes.
  replace (String.list_byte_of_string key ++ Byte.x00 :: String.list_byte_of_string value)
    with ((String.list_byte_of_string key ++ [Byte.x00]) ++ String.list_byte_of_string value)
    by (rewrite <- app_assoc; reflexivity).
  replace (len (String.list_byte_of_string key) + 1)
    with (len (String.list_byte_of_string key ++ [Byte.x00]))
    by (rewrite len_app; reflexivity).
  rewrite slice_from_tail, latin1_bytes. reflexivity.
Qed.

(** A [zTXt] chunk whose stream does not decompress leaves the record as
    it was. *)
Lemma handle_bad_ztxt (key : string) (method : byte) (z crc : bytes) (m : meta) :
  no_nul key ->
  zlib_decompress z = None ->
  handle (c_type (ztxt key method z crc)) (c_data (ztxt key method z crc)) m = Some m.
Proof.
  intros Hk Hz. unfold ztxt. simpl c_type. simpl c_data.
  unfold handle_chunk.
  change (bytes_eqb (tag "zTXt") (tag "IHDR")) with false.
  change (bytes_eqb (tag "zTXt") (tag "tEXt")) with false.
  change (bytes_eqb (tag "zTXt") (tag "zTXt")) with true.
  cbv iota. simpl andb. cbv iota.
  unfold ztxt_chunk. simpl app.
  rewrite (find_nul_app _ _ Hk).
  destruct (_ && _); [|reflexivity].
  replace (String.list_byte_of_string key ++ Byte.x00 :: method :: z)
    with ((String.list_byte_of_string key ++ [Byte.x00; method]) ++ z)
    by (rewrite <- app_assoc; reflexivity).
  replace (len (String.list_byte_of_string key) + 2)
    with (len (String.list_byte_of_string key ++ [Byte.x00; method]))
    by (rewrite len_app; reflexivity).
  rewrite slice_from_tail, Hz. reflexivity.
Qed.

(** The loop body over a list of chunks. *)
Lemma run_cons (c : chunk) (cs : list chunk) (m : meta) :
  run_chunks (c :: cs) m =
  match handle (c_type c) (c_data c) m with
  | Some m' => run_chunks cs m'
  | None => m
  end.
Proof. reflexivity. Qed.

Lemma run_fields (cs : list chunk) :
  forall m : meta,
    workflow (run_chunks cs m) = workflow m
    /\ prompt (run_chunks cs m) = prompt m
    /\ error (run_chunks cs m) = error m.
Proof.
  induction cs as [|c cs IH]; intros m; simpl; [auto|].
  destruct (handle (c_type c) (c_data c) m) as [m1|] eqn:Hc; [|auto].
  apply handle_fields in Hc as (Hw & Hp & He).
  destruct (IH m1) as (-> & -> & ->). auto.
Qed.

Lemma run_dims (cs : list chunk) :
  forall m : meta,
    (width (run_chunks cs m), height (run_chunks cs m)) =
    match last_ihdr cs with
    | Some (w, h) => (Some w, Some h)
    | None => (width m, height m)
    end.
Proof.
  induction cs as [|c cs IH]; intros m; simpl; [reflexivity|].
  destruct (is_iend c) eqn:Hend.
  - rewrite (handle_iend c m Hend). reflexivity.
  - destruct (handle_continues c m Hend) as [m1 Hm1]. rewrite Hm1, IH.
    destruct (last_ihdr cs) as [[w h]|]; [reflexivity|].
    apply (handle_dims c m m1 Hm1).
Qed.

Lemma run_raw (cs : list chunk) (k : string) :
  forall m : meta,
    Forall (fun c => text_key utf8_decode_replace c ≠ Some k) cs ->
    raw_text_chunks (run_chunks cs m) !! k = raw_text_chunks m !! k.
Proof.
  induction cs as [|c cs IH]; intros m Hcs; simpl; [reflexivity|].
  apply Forall_cons in Hcs as [Hc Hcs].
  destruct (handle (c_type c) (c_data c) m) as [m1|] eqn:Hm1; [|reflexivity].
  rewrite IH by assumption. apply (handle_raw c m m1 k Hm1 Hc).
Qed.

Lemma run_app (cs1 cs2 : list chunk) :
  forall m : meta,
    Forall (fun c => is_iend c = false) cs1 ->
    run_chunks (cs1 ++ cs2) m = run_chunks cs2 (run_chunks cs1 m).
Proof.
  induction cs1 as [|c cs1 IH]; intros m Hcs; simpl; [reflexivity|].
  apply Forall_cons in Hcs as [Hc Hcs].
  destruct (handle_continues c m Hc) as [m1 ->]. apply IH, Hcs.
Qed.

Lemma run_skip (cs1 cs2 : list chunk) (c : chunk) :
  (forall m : meta, handle (c_type c) (c_data c) m = Some m) ->
  forall m : meta, run_chunks (cs1 ++ c :: cs2) m = run_chunks (cs1 ++ cs2) m.
Proof.
  intros Hc. induction cs1 as [|c1 cs1 IH]; intros m; simpl.
  - rewrite Hc. reflexivity.
  - destruct (handle (c_type c1) (c_data c1) m); [apply IH|reflexivity].
Qed.

(** The lifting step reads the raw mapping and writes the two fields. *)
Lemma lift_fields (m : meta) :
  let m' := lift json_loads m in
  width m' = width m /\ height m' = height m
  /\ raw_text_chunks m' = raw_text_chunks m /\ error m' = error m
  /\ workflow m' =
     default (workflow m)
       (lift_candidates json_loads (raw_text_chunks m) "workflow" "Workflow")
  /\ prompt m' =
     default (prompt m)
       (lift_candidates json_loads (raw_text_chunks m) "prompt" "Prompt").
Proof.
  unfold lift.
  destruct (lift_candidates json_loads (raw_text_chunks m) "workflow" "Workflow");
    simpl;
    destruct (lift_candidates json_loads (raw_text_chunks m) "prompt" "Prompt");
    simpl; auto 10.
Qed.

Lemma scan_fields (fuel : nat) (data : bytes) :
  forall (offset : Z) (m m' : meta),
    scan_from fuel data offset m = Some m' ->
    workflow m' = workflow m /\ prompt m' = prompt m /\ error m' = error m.
Proof.
  induction fuel as [|fuel IH]; intros offset m m'; simpl.
  - destruct (_ <=? _); [discriminate|]. intros [= <-]. auto.
  - destruct (_ <=? _); [|intros [= <-]; auto].
    destruct (handle _ _ m) as [m1|] eqn:Hc; [|intros [= <-]; auto].
    intros Hs. apply IH in Hs as (-> & -> & ->). apply (handle_fields _ _ _ _ Hc).
Qed.

Lemma decode_lifted (data : bytes) (m : meta) :
  decode data = Some m ->
  workflow m =
    default JNull (lift_candidates json_loads (raw_text_chunks m) "workflow" "Workflow")
  /\ prompt m =
    default JNull (lift_candidates json_loads (raw_text_chunks m) "prompt" "Prompt").
Proof.
  unfold parse_png_bytes. destruct (negb _).
  - intros [= <-]. split; reflexivity.
  - destruct (scan_from _ _ _ _) as [m0|] eqn:Hs; [|discriminate].
    intros [= <-]. apply scan_fields in Hs as (Hw & Hp & _).
    destruct (lift_fields m0) as (_ & _ & -> & _ & -> & ->).
    rewrite Hw, Hp. split; reflexivity.
Qed.

(** C4 (amended): every [IHDR] chunk with at least eight payload bytes
    overwrites the dimensions, so for a buffer made of whole chunks the
    reported width and height are the two big-endian u32 values of the last
    such chunk before [IEND]; without one they stay unset. *)
Theorem png_dims_last_ihdr (cs : list chunk) (tail : bytes) :
  Forall well_formed cs ->
  len tail < 8 ->
  exists m,
    decode (PNG_SIG ++ encode_all cs ++ tail) = Some m
    /\ (width m, height m) =
       match last_ihdr cs with
       | Some (w, h) => (Some w, Some h)
       | None => (None, None)
       end.
Proof.
  intros Hwf Htail. eexists. split; [apply decode_chunks; assumption|].
  destruct (lift_fields (run_chunks cs empty_meta)) as (-> & -> & _).
  apply (run_dims cs empty_meta).
Qed.

(** C5: a [tEXt] chunk with key [workflow] that no later chunk overwrites
    is reported in [raw_text_chunks] with its raw text and in [workflow]
    with the parsed value, the JSON object with an empty [nodes] list for
    the text [{"nodes":[]}].  For every buffer, when the text under the
    candidate key that is consulted does not parse, the lifted field stays
    unset while the raw mapping keeps the text. *)
Theorem png_text_workflow_lifted :
  (forall (cs1 cs2 : list chunk) (value : string) (crc tail : bytes),
      Forall well_formed cs1 ->
      Forall well_formed cs2 ->
      well_formed (text "workflow" value crc) ->
      Forall (fun c => is_iend c = false) cs1 ->
      Forall (fun c => text_key utf8_decode_replace c ≠ Some "workflow") cs2 ->
      len tail < 8 ->
      exists m,
        decode (PNG_SIG ++ encode_all (cs1 ++ text "workflow" value crc :: cs2) ++ tail)
        = Some m
        /\ raw_text_chunks m !! "workflow" = Some value
        /\ workflow m = _try_json json_loads value
        /\ (value = workflow_text ->
            json_loads workflow_text = Some (JObj [("nodes", JArr [])]) ->
            workflow m = JObj [("nodes", JArr [])]))
  /\ (forall (data : bytes) (m : meta) (text : string),
        decode data = Some m ->
        json_loads text = None ->
        (raw_text_chunks m !! "workflow" = Some text -> workflow m = JNull)
        /\ (raw_text_chunks m !! "workflow" = None ->
            raw_text_chunks m !! "Workflow" = Some text -> workflow m = JNull)
        /\ (raw_text_chunks m !! "prompt" = Some text -> prompt m = JNull)
        /\ (raw_text_chunks m !! "prompt" = None ->
            raw_text_chunks m !! "Prompt" = Some text -> prompt m = JNull)).
Proof.
  split.
  - intros cs1 cs2 value crc tail Hwf1 Hwf2 Hwf Hend Hkeys Htail.
    eexists. split.
    { apply decode_chunks; [|assumption].
      apply Forall_app. split; [assumption|]. constructor; assumption. }
    set (m0 := run_chunks (cs1 ++ text "workflow" value crc :: cs2) empty_meta).
    assert (raw_text_chunks m0 !! "workflow" = Some value) as Hraw.
    { subst m0. rewrite run_app by assumption. rewrite run_cons.
      rewrite handle_text by apply no_nul_workflow.
      rewrite run_raw by assumption. simpl. apply lookup_insert_eq. }
    destruct (lift_fields m0) as (_ & _ & Hr & _ & Hw & _).
    destruct (run_fields (cs1 ++ text "workflow" value crc :: cs2) empty_meta)
      as (Hw0 & _). fold m0 in Hw0.
    assert (workflow (lift json_loads m0) = _try_json json_loads value) as Hlift.
    { rewrite Hw. unfold lift_candidates. rewrite Hraw. reflexivity. }
    split; [rewrite Hr; exact Hraw|]. split; [exact Hlift|].
    intros -> Hparse. rewrite Hlift. unfold _try_json. rewrite Hparse. reflexivity.
  - intros data m text Hdec Hparse.
    destruct (decode_lifted data m Hdec) as (Hw & Hp).
    unfold lift_candidates, _try_json in Hw, Hp.
    repeat split.
    + intros Hk. rewrite Hw, Hk, Hparse. reflexivity.
    + intros Hn Hk. rewrite Hw, Hn, Hk, Hparse. reflexivity.
    + intros Hk. rewrite Hp, Hk, Hparse. reflexivity.
    + intros Hn Hk. rewrite Hp, Hn, Hk, Hparse. reflexivity.
Qed.

(** C6: a [zTXt] chunk whose stream fails to decompress is skipped.  The
    decoder returns the record it returns for the same buffer without that
    chunk, so the chunks after it are decoded as usual; the error field is
    unset, and the chunk's key is absent from [raw_text_chunks] when no
    other chunk carries it. *)
Theorem png_bad_ztxt_skipped
  (cs1 cs2 : list chunk) (key : string) (method : byte) (z crc tail : bytes) :
  Forall well_formed cs1 ->
  Forall well_formed cs2 ->
  well_formed (ztxt key method z crc) ->
  no_nul key ->
  zlib_decompress z = None ->
  len tail < 8 ->
  exists m,
    decode (PNG_SIG ++ encode_all (cs1 ++ ztxt key method z crc :: cs2) ++ tail) = Some m
    /\ decode (PNG_SIG ++ encode_all (cs1 ++ cs2) ++ tail) = Some m
    /\ error m = None
    /\ (Forall (fun c => text_key utf8_decode_replace c ≠ Some key) (cs1 ++ cs2) ->
        raw_text_chunks m !! key = None).
Proof.
  intros Hwf1 Hwf2 Hwf Hkey Hz Htail.
  assert (Forall well_formed (cs1 ++ cs2)) as Hwf12
    by (apply Forall_app; split; assumption).
  eexists. split; [|split; [|split]].
  - apply decode_chunks; [|assumption].
    apply Forall_app. split; [assumption|]. constructor; assumption.
  - rewrite decode_chunks by assumption. f_equal. f_equal.
    symmetry. apply run_skip. intros m. apply handle_bad_ztxt; assumption.
  - destruct (lift_fields (run_chunks (cs1 ++ ztxt key method z crc :: cs2) empty_meta))
      as (_ & _ & _ & -> & _).
    apply run_fields.
  - intros Hkeys.
    destruct (lift_fields (run_chunks (cs1 ++ ztxt key method z crc :: cs2) empty_meta))
      as (_ & _ & -> & _).
    rewrite run_skip by (intros m; apply handle_bad_ztxt; assumption).
    rewrite run_raw by assumption. reflexivity.
Qed.

End DecoderFacts.

Ltac sample_chunks := repeat constructor.

(** C4, as stated, fails: with two [IHDR] chunks, 1x2 then 3x4, the decoder
    reports 3x4, not the dimensions of the first one. *)
Lemma png_first_ihdr_overwritten :
  (1 < count_ihdr two_ihdr)%nat
  /\ first_ihdr two_ihdr = Some (1, 2)
  /\ exists m,
      sample_decode (PNG_SIG ++ encode_all two_ihdr) = Some m
      /\ (width m, height m) = (Some 3, Some 4)
      /\ (width m, height m) <> (Some 1, Some 2).
Proof.
  split; [vm_compute; lia|]. split; [reflexivity|].
  eexists. split; [vm_compute; reflexivity|]. split; [reflexivity|discriminate].
Qed.

Lemma png_dims_last_ihdr_witness :
  exists m,
    sample_decode (PNG_SIG ++ encode_all two_ihdr ++ []) = Some m
    /\ (width m, height m) = (Some 3, Some 4).
Proof.
  apply (png_dims_last_ihdr (float := Instances.ratio) Instances.inflate_stored Instances.utf8_ascii
           Instances.utf8_ascii_replace JsonText.loads two_ihdr []).
  - sample_chunks.
  - reflexivity.
Defined.

Lemma png_text_workflow_lifted_witness :
  exists m,
    sample_decode png_workflow = Some m
    /\ raw_text_chunks m !! "workflow" = Some workflow_text
    /\ workflow m = JObj [("nodes", JArr [])].
Proof.
  destruct (proj1 (png_text_workflow_lifted (float := Instances.ratio)
                     Instances.inflate_stored Instances.utf8_ascii
                     Instances.utf8_ascii_replace JsonText.loads)
              [ihdr 512 768 crc0] [iend crc0] workflow_text crc0 [])
    as (m & Hdec & Hraw & _ & Hw).
  - sample_chunks.
  - sample_chunks.
  - sample_chunks.
  - sample_chunks.
  - constructor; [discriminate|constructor].
  - reflexivity.
  - exists m. split; [exact Hdec|]. split; [exact Hraw|].
    apply Hw; reflexivity.
Defined.

Lemma png_bad_ztxt_skipped_witness :
  exists m,
    sample_decode (PNG_SIG ++ encode_all png_bad_ztxt ++ []) = Some m
    /\ sample_decode
         (PNG_SIG ++ encode_all [ihdr 512 768 crc0; text "prompt" prompt_text crc0; iend crc0]
                  ++ []) = Some m
    /\ error m = None
    /\ raw_text_chunks m !! "workflow" = None.
Proof.
  destruct (png_bad_ztxt_skipped (float := Instances.ratio) Instances.inflate_stored Instances.utf8_ascii
              Instances.utf8_ascii_replace JsonText.loads
              [ihdr 512 768 crc0] [text "prompt" prompt_text crc0; iend crc0]
              "workflow" Byte.x00 bad_stream crc0 [])
    as (m & Hdec & Hsame & Herr & Hraw).
  - sample_chunks.
  - sample_chunks.
  - sample_chunks.
  - apply no_nul_workflow.
  - reflexivity.
  - reflexivity.
  - exists m. split; [exact Hdec|]. split; [exact Hsame|]. split; [exact Herr|].
    apply Hraw. repeat constructor; discriminate.
Defined.

End PngFacts.

(** ** The video probe adapter *)

Module VideoFacts.

Import Video.
Local Open Scope Z_scope.

Lemma truthy_nonempty (text : string) : text <> "" -> truthy (Some text) = true.
Proof. intros Hne. simpl. apply negb_true_iff, String.eqb_neq, Hne. Qed.

Ltac run_raises := unfold mbind, raises_bind, bind, ret, raise; simpl.

Section AdapterFacts.

Context {float : Type}.
Variable py_int : string -> option Z.
Variable float_div : Z -> Z -> option float.
Variable round3 : float -> float.
Variable float_of_str : string -> option float.
Variable float_is_zero : float -> bool.
Variable json_loads : string -> option json.

Abbreviation meta := (FileMetadata float).
Abbreviation rate := (@frame_rate float py_int float_div round3).
Abbreviation loop := (@stream_loop float py_int float_div round3).
Abbreviation parse_video :=
  (@_parse_video float py_int float_div round3 float_of_str float_is_zero json_loads).
Abbreviation from_comment := (@comment_pass float json_loads).
Abbreviation from_tags := (@standalone_pass float json_loads).
Abbreviation merge := (@merge_tags float json_loads).

(** *** Frame rate *)

Lemma try_except_escapes {A} (body : raises A) (old : A) (e : exn) :
  try_except body old = inl e -> e = OverflowError.
Proof. destruct body as [[]|]; simpl; congruence. Qed.

Lemma frame_rate_escapes (s : stream) (old : option float) (e : exn) :
  rate s old = inl e -> e = OverflowError.
Proof.
  unfold frame_rate. destruct (has_slash (fps_text s)); [|discriminate].
  destruct (split_once (fps_text s)) as [num den]. apply try_except_escapes.
Qed.

Lemma stream_loop_escapes (ss : list stream) (m : meta) (e : exn) :
  loop ss m = inl e -> e = OverflowError.
Proof.
  induction ss as [|s ss IH]; simpl; [discriminate|].
  destruct (negb _); [exact IH|].
  destruct (rate s _) as [e'|f] eqn:Hrate; simpl; [|discriminate].
  intros [= <-]. apply (frame_rate_escapes _ _ _ Hrate).
Qed.

Lemma parse_video_escapes (run : run_result) (e : exn) :
  parse_video run = inl e -> e = OverflowError.
Proof.
  destruct run as [| |msg|[data|]]; simpl; try discriminate.
  destruct (loop (streams data) empty_meta) as [e'|m] eqn:Hloop; simpl; [|discriminate].
  intros [= <-]. apply (stream_loop_escapes _ _ _ Hloop).
Qed.

Lemma fps_expr_zero (num den : string) :
  py_int den = Some 0 -> fps_expr py_int float_div round3 num den = ret None.
Proof. intros Hden. unfold fps_expr, int_of. rewrite Hden. reflexivity. Qed.


(** C7: the frame rate of a stream.  When the rational text splits into two
    integers with a divisor other than zero, [fps] is the quotient rounded
    to three places; with a zero divisor it is [None]; when the field is
    missing, has no slash or does not parse, [fps] keeps the value it had
    (unset for the fresh record).  Neither [ZeroDivisionError] nor
    [ValueError] leaves [_parse_video]. *)
Theorem frame_rate_safe :
  (forall run : run_result,
      parse_video run <> raise ZeroDivisionError
      /\ parse_video run <> raise ValueError)
  /\ (forall (s : stream) (old : option float) (num den : string) (n d : Z) (q : float),
        has_slash (fps_text s) = true ->
        split_once (fps_text s) = (num, den) ->
        py_int num = Some n ->
        py_int den = Some d ->
        d <> 0 ->
        float_div n d = Some q ->
        rate s old = ret (Some (round3 q)))
  /\ (forall (s : stream) (old : option float) (num den : string),
        has_slash (fps_text s) = true ->
        split_once (fps_text s) = (num, den) ->
        py_int den = Some 0 ->
        rate s old = ret None)
  /\ (forall (s : stream) (old : option float) (num den : string),
        has_slash (fps_text s) = true ->
        split_once (fps_text s) = (num, den) ->
        py_int den = None
        \/ (py_int num = None /\ exists d, py_int den = Some d /\ d <> 0) ->
        rate s old = ret old)
  /\ (forall (s : stream) (old : option float),
        has_slash (fps_text s) = false -> rate s old = ret old)
  /\ (forall (s : stream) (old : option float),
        r_frame_rate s = None -> avg_frame_rate s = None -> rate s old = ret old).
Proof.
  split; [|split; [|split; [|split; [|split]]]].
  - intros run. split; intros H; apply parse_video_escapes in H; discriminate.
  - intros s old num den n d q Hslash Hsplit Hnum Hden Hd Hq.
    unfold frame_rate. rewrite Hslash, Hsplit.
    unfold fps_expr, int_of, truediv. rewrite Hden, Hnum. run_raises.
    apply Z.eqb_neq in Hd. rewrite Hd. simpl. rewrite Hq. reflexivity.
  - intros s old num den Hslash Hsplit Hden.
    unfold frame_rate. rewrite Hslash, Hsplit, fps_expr_zero by assumption.
    reflexivity.
  - intros s old num den Hslash Hsplit Hbad.
    unfold frame_rate. rewrite Hslash, Hsplit. unfold fps_expr, int_of.
    destruct Hbad as [Hden|(Hnum & d & Hden & Hd)]; rewrite Hden; run_raises.
    + reflexivity.
    + apply Z.eqb_neq in Hd. rewrite Hd. simpl. rewrite Hnum. reflexivity.
  - intros s old Hslash. unfold frame_rate. rewrite Hslash. reflexivity.
  - intros s old Hr Ha. unfold frame_rate, fps_text. rewrite Hr, Ha. reflexivity.
Qed.

(** *** Tag precedence *)

Lemma try_json_object (text : string) (fields : list (string * json)) :
  json_loads text = Some (JObj fields) -> _try_json json_loads text = JObj fields.
Proof. intros H. unfold _try_json. rewrite H. reflexivity. Qed.

Lemma workflow_loop_prompt (keys : list string) (tg : gmap string string) (m : meta) :
  prompt (workflow_loop json_loads keys tg m) = prompt m.
Proof.
  induction keys as [|key keys IH]; simpl; [reflexivity|].
  destruct (tg !! key) as [raw|]; [|exact IH].
  destruct (negb (String.eqb raw "")); [|exact IH].
  destruct (_try_json json_loads raw) as [| | | | |fields]; try reflexivity.
  destruct (Json.has_key fields "nodes"); [|reflexivity].
  simpl. destruct (comment m); reflexivity.
Qed.

Lemma prompt_loop_workflow (keys : list string) (tg : gmap string string) (m : meta) :
  workflow (prompt_loop json_loads keys tg m) = workflow m.
Proof.
  induction keys as [|key keys IH]; simpl; [reflexivity|].
  destruct (tg !! key) as [raw|]; [|exact IH].
  destruct (negb (String.eqb raw "")); [|exact IH].
  destruct (_try_json json_loads raw); reflexivity.
Qed.

(** The workflow loop either leaves the field or takes an object with a
    [nodes] key from one of its keys. *)
Lemma workflow_loop_result (keys : list string) (tg : gmap string string) (m : meta) :
  workflow (workflow_loop json_loads keys tg m) = workflow m
  \/ exists key raw fields,
      key ∈ keys /\ tg !! key = Some raw
      /\ json_loads raw = Some (JObj fields)
      /\ Json.has_key fields "nodes" = true
      /\ workflow (workflow_loop json_loads keys tg m) = JObj fields.
Proof.
  induction keys as [|key keys IH]; simpl; [left; reflexivity|].
  destruct (tg !! key) as [raw|] eqn:Hraw.
  2:{ destruct IH as [IH|(k & r & f & Hk & IH)]; [left; exact IH|].
      right. exists k, r, f. split; [apply elem_of_cons; right; exact Hk|exact IH]. }
  destruct (negb (String.eqb raw "")).
  2:{ destruct IH as [IH|(k & r & f & Hk & IH)]; [left; exact IH|].
      right. exists k, r, f. split; [apply elem_of_cons; right; exact Hk|exact IH]. }
  unfold _try_json. destruct (json_loads raw) as [[| | | | |fields]|] eqn:Hparse;
    try (left; reflexivity).
  destruct (Json.has_key fields "nodes") eqn:Hnodes; [|left; reflexivity].
  right. exists key, raw, fields.
  split; [apply elem_of_cons; left; reflexivity|].
  split; [exact Hraw|]. split; [exact Hparse|]. split; [exact Hnodes|].
  simpl. destruct (comment m); reflexivity.
Qed.

Lemma workflow_loop_no_nodes
  (keys : list string) (tg : gmap string string) (m : meta) (raw : string)
  (fields : list (string * json)) :
  tg !! "workflow" = Some raw ->
  raw <> "" ->
  json_loads raw = Some (JObj fields) ->
  Json.has_key fields "nodes" = false ->
  workflow_loop json_loads ("workflow" :: keys) tg m = m.
Proof.
  intros Htag Hne Hparse Hnodes. simpl. rewrite Htag.
  assert (negb (String.eqb raw "") = true) as ->
    by (apply negb_true_iff, String.eqb_neq, Hne).
  rewrite (try_json_object _ _ Hparse), Hnodes. reflexivity.
Qed.

(** The standalone tags are read only for a field that is still unset. *)
Lemma standalone_keeps (tg : gmap string string) (m : meta) :
  (workflow m <> JNull -> workflow (from_tags tg m) = workflow m)
  /\ (prompt m <> JNull -> prompt (from_tags tg m) = prompt m).
Proof.
  unfold standalone_pass. split; intros Hset.
  - assert (Json.is_none (workflow m) = false) as ->
      by (destruct (workflow m); [contradiction|reflexivity..]).
    destruct (Json.is_none (prompt m)); [apply prompt_loop_workflow|reflexivity].
  - destruct (Json.is_none (workflow m)).
    + rewrite workflow_loop_prompt.
      assert (Json.is_none (prompt m) = false) as ->
        by (destruct (prompt m); [contradiction|reflexivity..]).
      apply workflow_loop_prompt.
    + assert (Json.is_none (prompt m) = false) as ->
        by (destruct (prompt m); [contradiction|reflexivity..]).
      reflexivity.
Qed.

Lemma comment_pass_none (tg : gmap string string) (m : meta) :
  truthy (comment_tag tg) = false -> from_comment tg m = m.
Proof.
  intros Hc. unfold comment_pass. rewrite Hc. destruct (comment_tag tg); reflexivity.
Qed.

(** The comment block on a tag that parses to an object. *)
Lemma comment_pass_object
  (tg : gmap string string) (m : meta) (text : string) (fields : list (string * json)) :
  comment_tag tg = Some text ->
  text <> "" ->
  json_loads text = Some (JObj fields) ->
  from_comment tg m =
  let m1 := set_comment m text in
  if Json.has_key fields "nodes" then
    let m2 := set_workflow m1 (JObj fields) in
    match Json.get fields "prompt" with
    | Some (JObj p) => set_prompt m2 (JObj p)
    | _ => m2
    end
  else if Json.has_key fields "prompt" then
    let m2 := set_prompt m1 (default JNull (Json.get fields "prompt")) in
    match Json.get fields "workflow" with
    | Some (JObj w) => set_workflow m2 (JObj w)
    | _ => m2
    end
  else set_prompt m1 (JObj fields).
Proof.
  intros Htag Hne Hparse. unfold comment_pass.
  rewrite Htag, (truthy_nonempty text Hne), (try_json_object _ _ Hparse).
  reflexivity.
Qed.

(** C2: the comment tag.  For the text
    [{"prompt": {"x":1}, "workflow": {"nodes":[]}}] in the comment tag the
    merge gives that prompt and that workflow.  In general a comment
    that parses to an object with a [nodes] key becomes the workflow and a
    nested [prompt] object is lifted; an object with a [prompt] key and no
    [nodes] key has the nested value lifted as prompt and a nested
    [workflow] object lifted; any other object becomes the prompt.  What the
    comment block sets is what the merge returns. *)
Theorem comment_merge :
  (forall (tg : gmap string string) (m : meta),
      comment_tag tg = Some Chunks.comment_text ->
      json_loads Chunks.comment_text
      = Some (JObj [("prompt", JObj [("x", JNum 1)]);
                    ("workflow", JObj [("nodes", JArr [])])]) ->
      prompt (merge tg m) = JObj [("x", JNum 1)]
      /\ workflow (merge tg m) = JObj [("nodes", JArr [])])
  /\ (forall (tg : gmap string string) (m : meta) (text : string)
             (fields : list (string * json)),
        comment_tag tg = Some text ->
        text <> "" ->
        json_loads text = Some (JObj fields) ->
        (Json.has_key fields "nodes" = true ->
         workflow (from_comment tg m) = JObj fields
         /\ (forall p, Json.get fields "prompt" = Some (JObj p) ->
                      prompt (from_comment tg m) = JObj p))
        /\ (Json.has_key fields "nodes" = false ->
            forall v, Json.get fields "prompt" = Some v ->
                      prompt (from_comment tg m) = v
                      /\ (forall w, Json.get fields "workflow" = Some (JObj w) ->
                                   workflow (from_comment tg m) = JObj w))
        /\ (Json.has_key fields "nodes" = false ->
            Json.has_key fields "prompt" = false ->
            prompt (from_comment tg m) = JObj fields))
  /\ (forall (tg : gmap string string) (m : meta),
        (workflow (from_comment tg m) <> JNull ->
         workflow (merge tg m) = workflow (from_comment tg m))
        /\ (prompt (from_comment tg m) <> JNull ->
            prompt (merge tg m) = prompt (from_comment tg m))).
Proof.
  split; [|split].
  - intros tg m Hc Hparse.
    assert (Chunks.comment_text <> "") as Hne by discriminate.
    pose proof (comment_pass_object tg m _ _ Hc Hne Hparse) as Hpass.
    simpl in Hpass. unfold merge_tags.
    destruct (standalone_keeps tg (from_comment tg m)) as [Hw Hp].
    rewrite Hp, Hw by (rewrite Hpass; discriminate).
    rewrite Hpass. split; reflexivity.
  - intros tg m text fields Htag Hne Hparse.
    rewrite (comment_pass_object tg m _ _ Htag Hne Hparse). cbv zeta.
    split; [|split].
    + intros ->. split.
      * destruct (Json.get fields "prompt") as [[]|]; reflexivity.
      * intros p ->. reflexivity.
    + intros -> v Hv.
      assert (Json.has_key fields "prompt" = true) as ->
        by (unfold Json.has_key; rewrite Hv; reflexivity).
      rewrite Hv. split.
      * destruct (Json.get fields "workflow") as [[]|]; reflexivity.
      * intros w ->. reflexivity.
    + intros -> ->. reflexivity.
  - intros tg m. apply standalone_keeps.
Qed.

(** C3: the standalone workflow tag.  Without a comment tag, a [workflow]
    tag that parses to an object lacking a [nodes] key leaves the workflow
    unset.  Whenever the standalone pass sets the workflow, it took it from
    a tag that parses to an object with a [nodes] key; and a field that the
    comment block has set is not touched by the standalone tags. *)
Theorem standalone_workflow :
  (forall (tg : gmap string string) (m : meta) (raw : string)
          (fields : list (string * json)),
      truthy (comment_tag tg) = false ->
      workflow m = JNull ->
      tg !! "workflow" = Some raw ->
      raw <> "" ->
      json_loads raw = Some (JObj fields) ->
      Json.has_key fields "nodes" = false ->
      workflow (merge tg m) = JNull)
  /\ (forall (tg : gmap string string) (m : meta),
        workflow (from_comment tg m) = JNull ->
        workflow (merge tg m) <> JNull ->
        exists key raw fields,
          key ∈ ["workflow"; "Workflow"; "WORKFLOW"]
          /\ tg !! key = Some raw
          /\ json_loads raw = Some (JObj fields)
          /\ Json.has_key fields "nodes" = true
          /\ workflow (merge tg m) = JObj fields)
  /\ (forall (tg : gmap string string) (m : meta),
        (workflow (from_comment tg m) <> JNull ->
         workflow (merge tg m) = workflow (from_comment tg m))
        /\ (prompt (from_comment tg m) <> JNull ->
            prompt (merge tg m) = prompt (from_comment tg m))).
Proof.
  split; [|split].
  - intros tg m raw fields Hc Hunset Htag Hne Hparse Hnodes.
    unfold merge_tags. rewrite (comment_pass_none tg m Hc).
    unfold standalone_pass. rewrite Hunset.
    change (Json.is_none JNull) with true. cbv iota.
    rewrite (workflow_loop_no_nodes _ tg m raw fields) by assumption.
    destruct (Json.is_none (prompt m)); [|exact Hunset].
    rewrite prompt_loop_workflow. exact Hunset.
  - intros tg m Hunset Hset. unfold merge_tags, standalone_pass in *.
    rewrite Hunset in *. change (Json.is_none JNull) with true in *. cbv iota in *.
    set (m1 := workflow_loop json_loads ["workflow"; "Workflow"; "WORKFLOW"] tg
                 (from_comment tg m)) in *.
    assert (workflow (if Json.is_none (prompt m1)
                      then prompt_loop json_loads ["prompt"; "Prompt"; "PROMPT"] tg m1
                      else m1) = workflow m1) as Hsame
      by (destruct (Json.is_none (prompt m1)); [apply prompt_loop_workflow|reflexivity]).
    rewrite Hsame in *.
    destruct (workflow_loop_result ["workflow"; "Workflow"; "WORKFLOW"] tg
                (from_comment tg m)) as [Hkeep|Hfound].
    + fold m1 in Hkeep. rewrite Hkeep, Hunset in Hset. contradiction.
    + exact Hfound.
  - intros tg m. apply standalone_keeps.
Qed.

End AdapterFacts.

Lemma frame_rate_safe_witness :
  Samples.sample_frame_rate Samples.ntsc_stream None = ret (Some (29970, 1000))
  /\ Samples.sample_frame_rate Samples.zero_den_stream None = ret None.
Proof.
  pose proof (frame_rate_safe (float := Instances.ratio) Instances.int_decimal
                Instances.ratio_div Instances.ratio_round3 Instances.ratio_of_str
                Instances.ratio_is_zero JsonText.loads) as (_ & Hrate & Hzero & _).
  split.
  - apply (Hrate Samples.ntsc_stream None "30000" "1001" 30000 1001 (30000, 1001));
      [reflexivity|reflexivity|reflexivity|reflexivity|discriminate|reflexivity].
  - apply (Hzero Samples.zero_den_stream None "0" "0"); reflexivity.
Defined.

Lemma comment_merge_witness :
  prompt (Samples.sample_merge Samples.comment_tags empty_meta) = JObj [("x", JNum 1)]
  /\ workflow (Samples.sample_merge Samples.comment_tags empty_meta)
     = JObj [("nodes", JArr [])].
Proof.
  apply (proj1 (comment_merge (float := Instances.ratio) JsonText.loads)).
  - reflexivity.
  - vm_compute. reflexivity.
Defined.

Lemma standalone_workflow_witness :
  workflow (Samples.sample_merge Samples.foo_tags empty_meta) = JNull.
Proof.
  apply (proj1 (standalone_workflow (float := Instances.ratio) JsonText.loads)
           Samples.foo_tags empty_meta Chunks.foo_text [("foo", JNum 1)]).
  - reflexivity.
  - reflexivity.
  - reflexivity.
  - discriminate.
  - vm_compute. reflexivity.
  - reflexivity.
Defined.

End VideoFacts.

(** ** Further properties of the listing and the archive *)

Module PathMore.

Import Paths FilesService MorePaths PathFacts.

(** X18: a listing is only ever returned for a directory inside the root.
    The prefix test lets a sibling such as [/data/outside] through, but
    [relative_to] then fails and the answer is an error with empty lists:
    [browse] never shows the content of a directory outside the root. *)
Theorem browse_lists_only_inside
  (iterdir : path -> string + list (string * kind))
  (relative_to_message : path -> path -> string)
  (base : path) (relative_path : option string) :
  let l := browse iterdir relative_to_message base relative_path in
  (l_error l = None -> inside base (target_of base relative_path))
  /\ (l_error l <> None ->
      l_folders l = [] /\ l_files l = [] /\ l_parts l = [] /\ l_current l = ""
      /\ l_can_go_up l = false).
Proof.
  cbv zeta. unfold browse.
  set (current := target_of base relative_path).
  destruct (negb (String.prefix (str_path base) (str_path current)));
    [split; [discriminate|intros _; simpl; auto]|].
  destruct (iterdir current) as [msg|entries];
    [split; [discriminate|intros _; simpl; auto]|].
  destruct (relative_to current base) as [rel|] eqn:Hrel;
    [|split; [discriminate|intros _; simpl; auto]].
  split; [|intros H; contradiction H; reflexivity].
  intros _. exists rel. apply relative_to_app, Hrel.
Qed.

(** X19: the parts of a listing are the segments from the root to the
    listed directory, and [current] is those segments joined with slashes
    (a backslash inside a name is written as a slash as well). *)
Theorem browse_parts
  (iterdir : path -> string + list (string * kind))
  (relative_to_message : path -> path -> string)
  (base : path) (relative_path : option string) :
  Forall plain base ->
  l_error (browse iterdir relative_to_message base relative_path) = None ->
  let l := browse iterdir relative_to_message base relative_path in
  target_of base relative_path = base ++ l_parts l
  /\ l_current l = replace_backslash (join_rel (l_parts l)).
Proof.
  intros Hbase. unfold browse.
  pose proof (target_plain base relative_path Hbase) as Hplain.
  set (current := target_of base relative_path) in *.
  destruct (negb (String.prefix (str_path base) (str_path current))); [discriminate|].
  destruct (iterdir current) as [msg|entries]; [discriminate|].
  destruct (relative_to current base) as [rel|] eqn:Hrel; [|discriminate].
  intros _. cbv zeta. simpl.
  pose proof (relative_to_app _ _ _ Hrel) as Hcur.
  assert (Forall plain rel) as Hrelp
    by (rewrite Hcur in Hplain; apply Forall_app in Hplain; apply Hplain).
  destruct (String.eqb (str_rel rel) ".") eqn:Hdot.
  - apply (str_rel_dot rel Hrelp) in Hdot. subst rel.
    split; [exact Hcur|reflexivity].
  - split; [exact Hcur|].
    destruct rel as [|seg rest]; [discriminate Hdot|reflexivity].
Qed.

Lemma names_where_elem (p : kind -> bool) (entries : list (string * kind)) (n : string) :
  n ∈ names_where p entries <->
  exists k, (n, k) ∈ entries /\ p k = true /\ hidden n = false.
Proof.
  unfold names_where. split.
  - intros Hn. apply list_elem_of_fmap in Hn as ([n' k] & -> & He).
    apply list_elem_of_filter in He as [Hp He]. simpl in *.
    apply andb_true_iff in Hp as [Hp Hh]. apply negb_true_iff in Hh.
    exists k. auto.
  - intros (k & He & Hp & Hh).
    apply list_elem_of_fmap. exists (n, k). split; [reflexivity|].
    apply list_elem_of_filter. split; [|exact He].
    simpl. rewrite Hp, Hh. reflexivity.
Qed.

Lemma sorted_elem (l : list string) (n : string) : n ∈ sorted l <-> n ∈ l.
Proof. unfold sorted. rewrite merge_sort_Permutation. reflexivity. Qed.

(** X20: a listing is complete.  Every child of the listed directory that
    is a directory and whose name does not start with a dot is among the
    folders, every such file among the files, and nothing else is listed;
    a child that is neither a directory nor a file appears in neither list. *)
Theorem browse_complete
  (iterdir : path -> string + list (string * kind))
  (relative_to_message : path -> path -> string)
  (base : path) (relative_path : option string) (entries : list (string * kind)) :
  l_error (browse iterdir relative_to_message base relative_path) = None ->
  iterdir (target_of base relative_path) = inr entries ->
  let l := browse iterdir relative_to_message base relative_path in
  forall n : string,
    (n ∈ l_folders l <-> (n, KDir) ∈ entries /\ hidden n = false)
    /\ (n ∈ l_files l <-> (n, KFile) ∈ entries /\ hidden n = false).
Proof.
  unfold browse.
  set (current := target_of base relative_path) in *.
  destruct (negb (String.prefix (str_path base) (str_path current))); [discriminate|].
  intros Herr Hdir. rewrite Hdir in *.
  destruct (relative_to current base) as [rel|]; [|discriminate].
  cbv zeta. simpl. intros n.
  rewrite !sorted_elem, !names_where_elem. split; split.
  - intros ([] & He & Hk & Hh); try discriminate. auto.
  - intros [He Hh]. exists KDir. auto.
  - intros ([] & He & Hk & Hh); try discriminate. auto.
  - intros [He Hh]. exists KFile. auto.
Qed.

(** The order of archive members is a total preorder. *)
Lemma parts_leb_total (a b : list string) : parts_leb a b = true \/ parts_leb b a = true.
Proof.
  revert b. induction a as [|x a IH]; intros [|y b]; simpl; auto.
  destruct (String.eqb x y) eqn:Hxy.
  - apply String.eqb_eq in Hxy as ->. rewrite String.eqb_refl. apply IH.
  - rewrite String.eqb_sym, Hxy. apply String.leb_total.
Qed.

Lemma string_leb_trans (x y z : string) :
  String.leb x y = true -> String.leb y z = true -> String.leb x z = true.
Proof.
  intros Hxy Hyz. apply Is_true_true. apply Is_true_true in Hxy, Hyz.
  exact (transitivity (R := String.le) Hxy Hyz).
Qed.

Lemma parts_leb_trans (a b c : list string) :
  parts_leb a b = true -> parts_leb b c = true -> parts_leb a c = true.
Proof.
  revert b c. induction a as [|x a IH]; intros [|y b] [|z c]; simpl; auto; try discriminate.
  destruct (String.eqb x y) eqn:Hxy.
  - apply String.eqb_eq in Hxy as ->.
    destruct (String.eqb y z); [apply IH|auto].
  - destruct (String.eqb y z) eqn:Hyz.
    + apply String.eqb_eq in Hyz as <-. rewrite Hxy. auto.
    + intros Hle1 Hle2. destruct (String.eqb x z) eqn:Hxz.
      * apply String.eqb_eq in Hxz as <-.
        apply String.eqb_neq in Hxy. exfalso. apply Hxy.
        apply String.leb_antisym; assumption.
      * apply (string_leb_trans x y z); assumption.
Qed.

#[local] Instance parts_le_total : Total parts_le.
Proof. intros a b. apply parts_leb_total. Qed.

#[local] Instance parts_le_trans : Transitive parts_le.
Proof. intros a b c. apply parts_leb_trans. Qed.

Lemma strongly_sorted_filter {A} (R : relation A) (P : A -> Prop)
  `{forall x, Decision (P x)} (l : list A) :
  StronglySorted R l -> StronglySorted R (filter P l).
Proof.
  induction 1 as [|x l Hl IH Hx]; [constructor|].
  rewrite filter_cons. destruct (decide (P x)); [|exact IH].
  constructor; [exact IH|].
  apply Forall_forall. intros y Hy. apply list_elem_of_filter in Hy as [_ Hy].
  rewrite Forall_forall in Hx. apply Hx, Hy.
Qed.

(** X21: what an archive holds.  The members are exactly the descendants
    of the target that are files and whose own name does not start with a
    dot, in ascending order of their relative paths.  Only the file's own
    name is looked at: a file inside a dot-directory is archived. *)
Theorem build_zip_members
  (path_is_dir : path -> bool) (rglob : path -> list (list string * kind))
  (base : path) (relative_path : option string)
  (members : list (list string)) (filename : string) :
  build_zip path_is_dir rglob base relative_path = inr (members, filename) ->
  (forall p : list string,
      p ∈ members <->
      (p, KFile) ∈ rglob (target_of base relative_path) /\ hidden (name p) = false)
  /\ StronglySorted members_le members.
Proof.
  unfold build_zip. set (target := target_of base relative_path).
  destruct (negb (String.prefix (str_path base) (str_path target))); [discriminate|].
  destruct (negb (path_is_dir target)); [discriminate|].
  intros [= <- _]. split.
  - intros p. split.
    + intros Hp. apply list_elem_of_fmap in Hp as ([p' k] & -> & He).
      apply list_elem_of_filter in He as [Hf He]. simpl in *.
      rewrite merge_sort_Permutation in He.
      apply andb_true_iff in Hf as [Hk Hh]. apply negb_true_iff in Hh.
      destruct k; try discriminate. auto.
    + intros [He Hh]. apply list_elem_of_fmap. exists (p, KFile). split; [reflexivity|].
      apply list_elem_of_filter. split.
      * simpl. rewrite Hh. reflexivity.
      * rewrite merge_sort_Permutation. exact He.
  - apply StronglySorted_fmap with (R1 := parts_le).
    + intros a b Hab. exact Hab.
    + apply strongly_sorted_filter. apply StronglySorted_merge_sort; apply _.
Qed.

(** *** Strings of segments *)

Lemma string_app_nil_r (s : string) : s +:+ "" = s.
Proof.
  induction s as [|c s IH]; [reflexivity|].
  change (String c (s +:+ "") = String c s). rewrite IH. reflexivity.
Qed.

Lemma string_app_cons (c : ascii) (s t : string) : String c s +:+ t = String c (s +:+ t).
Proof. reflexivity. Qed.

Lemma prefix_cons (a c : ascii) (s t : string) :
  String.prefix (String a s) (String c t) = true <-> a = c /\ String.prefix s t = true.
Proof.
  simpl. destruct (Ascii.ascii_dec a c) as [->|Hne]; [tauto|].
  split; [discriminate|]. intros [Hac _]. contradiction.
Qed.

Lemma prefix_nil_r (s : string) : String.prefix s "" = true -> s = "".
Proof. destruct s; [reflexivity|discriminate]. Qed.

Lemma str_segments_boundary (p : path) : boundary (str_segments p).
Proof. destruct p as [|seg p]; [left; reflexivity|right; eexists; reflexivity]. Qed.

Lemma slash_free_cons (c : ascii) (s : string) :
  slash_free (String c s) = true -> c <> slash /\ slash_free s = true.
Proof.
  simpl. intros H. apply andb_true_iff in H as [Hc Hs]. split; [|exact Hs].
  apply negb_true_iff in Hc. intros ->. rewrite Ascii.eqb_refl in Hc. discriminate.
Qed.

(** A separator-free segment in front of a separator matches exactly one
    segment of the other string. *)
Lemma prefix_segment (r : string) :
  forall (t x s : string),
    slash_free r = true -> slash_free t = true -> boundary s ->
    String.prefix (r +:+ String slash x) (t +:+ s) = true ->
    r = t /\ String.prefix (String slash x) s = true.
Proof.
  induction r as [|a r IH]; intros t x s Hr Ht Hs Hp.
  - destruct t as [|c t]; [split; [reflexivity|exact Hp]|].
    rewrite string_app_cons in Hp. apply prefix_cons in Hp as [<- _].
    apply slash_free_cons in Ht as [Hc _]. contradiction.
  - apply slash_free_cons in Hr as [Ha Hr]. rewrite string_app_cons in Hp.
    destruct t as [|c t].
    + destruct Hs as [->|[s' ->]]; [discriminate Hp|].
      apply prefix_cons in Hp as [-> _]. contradiction.
    + rewrite string_app_cons in Hp. apply prefix_cons in Hp as [<- Hp].
      apply slash_free_cons in Ht as [_ Ht].
      destruct (IH t x s Hr Ht Hs Hp) as [-> Hrest]. auto.
Qed.

(** A separator-free text that is a prefix of a segment followed by a
    boundary is a prefix of the segment. *)
Lemma prefix_last_segment (r : string) :
  forall (t s : string),
    slash_free r = true -> boundary s ->
    String.prefix r (t +:+ s) = true -> String.prefix r t = true.
Proof.
  induction r as [|a r IH]; intros t s Hr Hs Hp; [apply string_prefix_empty|].
  apply slash_free_cons in Hr as [Ha Hr].
  destruct t as [|c t].
  - destruct Hs as [->|[s' ->]]; [discriminate Hp|].
    apply prefix_cons in Hp as [-> _]. contradiction.
  - rewrite string_app_cons in Hp. apply prefix_cons in Hp as [<- Hp].
    apply prefix_cons. split; [reflexivity|]. apply (IH t s Hr Hs Hp).
Qed.

Lemma split_on_slash_free (s : string) :
  Forall (fun seg => slash_free seg = true) (split_on slash s).
Proof.
  induction s as [|c s IH]; simpl; [repeat constructor|].
  destruct (Ascii.eqb c slash) eqn:Hc; [constructor; [reflexivity|exact IH]|].
  destruct (split_on slash s) as [|h t]; [repeat constructor; simpl; rewrite Hc; reflexivity|].
  apply Forall_cons in IH as [Hh Ht]. constructor; [|exact Ht].
  simpl. rewrite Hc, Hh. reflexivity.
Qed.

Lemma parse_segments_proper (s : string) : Forall proper (parse_segments s).
Proof.
  unfold parse_segments. apply Forall_forall. intros seg Hin.
  apply list_elem_of_filter in Hin as [Hkeep Hin].
  pose proof (split_on_slash_free s) as Hfree. rewrite Forall_forall in Hfree.
  split; [|apply Hfree, Hin].
  unfold keep_segment in Hkeep. apply andb_true_iff in Hkeep as [Hne _].
  intros ->. discriminate.
Qed.

Lemma removelast_forall {A} (P : A -> Prop) (l : list A) :
  Forall P l -> Forall P (removelast l).
Proof.
  induction 1 as [|x l Hx Hl IH]; simpl; [constructor|].
  destruct l; [constructor|]. constructor; assumption.
Qed.

Lemma resolve_fold_forall (P : string -> Prop) (segs : list string) :
  forall acc : path,
    Forall P acc -> Forall P segs -> Forall P (fold_left resolve_step segs acc).
Proof.
  induction segs as [|seg segs IH]; intros acc Hacc Hsegs; simpl; [assumption|].
  apply Forall_cons in Hsegs as [Hseg Hsegs]. apply IH; [|assumption].
  unfold resolve_step. destruct (String.eqb seg "..").
  - apply removelast_forall, Hacc.
  - apply Forall_app. split; [assumption|]. constructor; [assumption|constructor].
Qed.

Lemma resolved_proper (base : path) (relative : string) :
  Forall proper base -> Forall proper (resolve (joinpath base relative)).
Proof.
  intros Hbase. unfold resolve. apply resolve_fold_forall; [constructor|].
  unfold joinpath. destruct (is_absolute relative).
  - apply parse_segments_proper.
  - apply Forall_app. split; [assumption|apply parse_segments_proper].
Qed.

(** When the string of a path starts with the string of another, the two
    agree up to the last segment of the shorter one, which is a prefix of the
    segment at its place. *)
Lemma str_prefix_segments (d : path) :
  forall t : path,
    d <> [] -> Forall proper d -> Forall proper t ->
    String.prefix (str_segments d) (str_segments t) = true ->
    exists parent nm seg rest,
      d = parent ++ [nm] /\ t = parent ++ seg :: rest /\ String.prefix nm seg = true.
Proof.
  induction d as [|r d IH]; intros t Hne Hd Ht Hp; [contradiction|].
  apply Forall_cons in Hd as [[Hr0 Hr] Hd].
  destruct t as [|t1 ts]; [discriminate Hp|].
  apply Forall_cons in Ht as [[_ Ht1] Hts].
  simpl str_segments in Hp. rewrite !string_app_cons in Hp.
  apply prefix_cons in Hp as [_ Hp]. simpl in Hp.
  destruct d as [|r2 d].
  - simpl str_segments in Hp. rewrite string_app_nil_r in Hp.
    exists [], r, t1, ts. repeat split.
    apply (prefix_last_segment r t1 (str_segments ts) Hr (str_segments_boundary ts) Hp).
  - change (str_segments (r2 :: d)) with (String slash (r2 +:+ str_segments d)) in Hp.
    destruct (prefix_segment r t1 _ _ Hr Ht1 (str_segments_boundary ts) Hp) as [-> Hrest].
    change (String slash (r2 +:+ str_segments d)) with (str_segments (r2 :: d)) in Hrest.
    destruct (IH ts ltac:(discriminate) Hd Hts Hrest)
      as (parent & nm & seg & rest & Hd' & Hts' & Hpre).
    exists (t1 :: parent), nm, seg, rest. rewrite Hd', Hts'. auto.
Qed.

(** X22: how far the prefix test of the guard reaches.  Whatever path
    [get_safe_path] returns lies in the parent directory of the work
    directory, under an entry whose name starts with the work directory's
    name: either inside the work directory or inside a sibling such as
    [/data/outside] for [/data/out]; it never returns any other path. *)
Theorem get_safe_path_reach (workdir target : path) (relative_path : string) :
  workdir <> [] ->
  Forall proper workdir ->
  get_safe_path workdir relative_path = Some target ->
  exists parent nm seg rest,
    workdir = parent ++ [nm] /\ target = parent ++ seg :: rest
    /\ String.prefix nm seg = true
    /\ (seg = nm -> inside workdir target).
Proof.
  intros Hne Hwd. unfold get_safe_path.
  pose proof (resolved_proper workdir relative_path Hwd) as Ht.
  set (t := resolve (joinpath workdir relative_path)) in *.
  destruct (String.prefix (str_path workdir) (str_path t)) eqn:Hp; [|discriminate].
  simpl. intros [= <-].
  assert (str_path workdir = str_segments workdir) as Hsw
    by (destruct workdir; [contradiction|reflexivity]).
  rewrite Hsw in Hp.
  assert (t <> []) as Htne.
  { intros Ht0. rewrite Ht0 in Hp.
    destruct workdir as [|r d]; [contradiction|].
    apply Forall_cons in Hwd as [[Hr0 _] _].
    change (str_path []) with (String slash "") in Hp.
    change (str_segments (r :: d)) with (String slash (r +:+ str_segments d)) in Hp.
    apply prefix_cons in Hp as [_ Hp]. apply prefix_nil_r in Hp.
    destruct r; [contradiction|discriminate Hp]. }
  assert (str_path t = str_segments t) as Hst
    by (destruct t; [contradiction|reflexivity]).
  rewrite Hst in Hp.
  destruct (str_prefix_segments workdir t Hne Hwd Ht Hp)
    as (parent & nm & seg & rest & Hd & Htt & Hpre).
  exists parent, nm, seg, rest. repeat split; try assumption.
  intros ->. exists rest. rewrite Hd, Htt, <- app_assoc. reflexivity.
Qed.

Lemma resolve_fold_plain_app (segs : list string) :
  forall acc : path,
    Forall (fun seg => seg <> "..") segs ->
    fold_left resolve_step segs acc = acc ++ segs.
Proof.
  induction segs as [|seg segs IH]; intros acc Hsegs; simpl; [symmetry; apply app_nil_r|].
  apply Forall_cons in Hsegs as [Hseg Hsegs].
  unfold resolve_step at 2. apply String.eqb_neq in Hseg. rewrite Hseg.
  rewrite (IH _ Hsegs), <- app_assoc. reflexivity.
Qed.


Lemma split_on_single (s : string) : slash_free s = true -> split_on slash s = [s].
Proof.
  induction s as [|c s IH]; [reflexivity|]. intros Hs.
  apply andb_true_iff in Hs as [Hc Hs]. apply negb_true_iff in Hc.
  simpl. rewrite Hc, (IH Hs). reflexivity.
Qed.

Lemma split_on_segment (s x : string) :
  slash_free s = true ->
  split_on slash (s +:+ String slash x) = s :: split_on slash x.
Proof.
  induction s as [|c s IH]; intros Hs; [reflexivity|].
  apply andb_true_iff in Hs as [Hc Hs]. apply negb_true_iff in Hc.
  rewrite string_app_cons. simpl. rewrite Hc, (IH Hs). reflexivity.
Qed.

(** Splitting the string of a path gives its segments back, after the empty
    piece in front of the first separator. *)
Lemma split_str_segments (p : path) :
  p <> [] -> Forall (fun seg => slash_free seg = true) p ->
  split_on slash (str_segments p) = "" :: p.
Proof.
  induction p as [|s p IH]; intros Hne Hp; [contradiction|].
  apply Forall_cons in Hp as [Hs Hp].
  change (str_segments (s :: p)) with (String slash (s +:+ str_segments p)).
  change (split_on slash (String slash (s +:+ str_segments p)))
    with ("" :: split_on slash (s +:+ str_segments p)).
  f_equal. destruct p as [|s2 p].
  - simpl str_segments. rewrite string_app_nil_r. apply split_on_single, Hs.
  - change (str_segments (s2 :: p)) with (String slash (s2 +:+ str_segments p)).
    rewrite (split_on_segment s _ Hs). f_equal.
    specialize (IH ltac:(discriminate) Hp).
    change (str_segments (s2 :: p)) with (String slash (s2 +:+ str_segments p)) in IH.
    change (split_on slash (String slash (s2 +:+ str_segments p)))
      with ("" :: split_on slash (s2 +:+ str_segments p)) in IH.
    injection IH as IH. exact IH.
Qed.

Lemma filter_keep_canonical (p : list string) :
  canonical p -> filter (fun seg => keep_segment seg = true) p = p.
Proof.
  unfold canonical. induction 1 as [|seg p ((Hne & _) & Hdot & _) _ IH]; [reflexivity|].
  assert (keep_segment seg = true) as Hkeep.
  { unfold keep_segment. apply andb_true_iff.
    split; apply negb_true_iff, String.eqb_neq; assumption. }
  rewrite filter_cons, IH.
  destruct (decide (keep_segment seg = true)); [reflexivity|contradiction].
Qed.

(** Writing a path as a string and reading the string gives the path. *)
Lemma parse_str_path (p : path) : canonical p -> parse_segments (str_path p) = p.
Proof.
  intros Hp. unfold parse_segments. destruct p as [|s p]; [reflexivity|].
  change (str_path (s :: p)) with (str_segments (s :: p)).
  rewrite split_str_segments.
  - rewrite filter_cons.
    destruct (decide (keep_segment "" = true)) as [Hk|_]; [discriminate Hk|].
    apply filter_keep_canonical, Hp.
  - discriminate.
  - unfold canonical in Hp. eapply Forall_impl; [exact Hp|].
    intros seg ((_ & Hfree) & _). exact Hfree.
Qed.

Lemma is_absolute_str_path (p : path) : is_absolute (str_path p) = true.
Proof.
  destruct p as [|s p]; [reflexivity|].
  change (str_path (s :: p)) with (String slash (s +:+ str_segments p)).
  unfold is_absolute. apply prefix_cons. split; [reflexivity|apply string_prefix_empty].
Qed.

(** X24: an absolute path is not joined onto the work directory: it is
    taken as it stands.  For the string of any resolved path the guard
    returns that very path when its string starts with the string of the work
    directory and the traversal verdict otherwise; the string of a path inside
    the work directory is always accepted. *)
Theorem get_safe_path_absolute (workdir p : path) :
  canonical p ->
  get_safe_path workdir (str_path p)
  = (if String.prefix (str_path workdir) (str_path p) then Some p else None)
  /\ (inside workdir p -> get_safe_path workdir (str_path p) = Some p).
Proof.
  intros Hp.
  assert (resolve (joinpath workdir (str_path p)) = p) as Hres.
  { unfold joinpath, resolve. rewrite is_absolute_str_path, (parse_str_path p Hp).
    rewrite resolve_fold_plain_app; [reflexivity|].
    unfold canonical in Hp. eapply Forall_impl; [exact Hp|].
    intros seg (_ & _ & Hup). exact Hup. }
  assert (get_safe_path workdir (str_path p)
          = (if String.prefix (str_path workdir) (str_path p) then Some p else None)) as Heq.
  { unfold get_safe_path. rewrite Hres.
    destruct (String.prefix (str_path workdir) (str_path p)); reflexivity. }
  split; [exact Heq|].
  intros Hin. rewrite Heq, (inside_passes workdir p Hin). reflexivity.
Qed.

Lemma browse_lists_only_inside_witness :
  inside Samples.workdir (target_of Samples.workdir (Some "sub"))
  /\ (l_folders (browse Samples.sample_iterdir Samples.sample_message Samples.workdir
                        (Some "../outside")) = []
      /\ l_files (browse Samples.sample_iterdir Samples.sample_message Samples.workdir
                         (Some "../outside")) = []
      /\ l_parts (browse Samples.sample_iterdir Samples.sample_message Samples.workdir
                         (Some "../outside")) = []
      /\ l_current (browse Samples.sample_iterdir Samples.sample_message Samples.workdir
                           (Some "../outside")) = ""
      /\ l_can_go_up (browse Samples.sample_iterdir Samples.sample_message Samples.workdir
                             (Some "../outside")) = false).
Proof.
  split.
  - apply (proj1 (browse_lists_only_inside Samples.sample_iterdir Samples.sample_message
                    Samples.workdir (Some "sub"))).
    reflexivity.
  - apply (proj2 (browse_lists_only_inside Samples.sample_iterdir Samples.sample_message
                    Samples.workdir (Some "../outside"))).
    discriminate.
Defined.

Lemma browse_parts_witness :
  target_of Samples.workdir (Some "sub/../sub")
  = Samples.workdir
      ++ l_parts (browse Samples.sample_iterdir Samples.sample_message Samples.workdir
                         (Some "sub/../sub"))
  /\ l_current (browse Samples.sample_iterdir Samples.sample_message Samples.workdir
                       (Some "sub/../sub"))
     = replace_backslash
         (join_rel (l_parts (browse Samples.sample_iterdir Samples.sample_message
                                    Samples.workdir (Some "sub/../sub")))).
Proof.
  apply (browse_parts Samples.sample_iterdir Samples.sample_message
           Samples.workdir (Some "sub/../sub")).
  - repeat constructor; discriminate.
  - reflexivity.
Defined.

Lemma browse_complete_witness :
  ("alpha" ∈ l_folders (browse Samples.sample_iterdir Samples.sample_message
                               Samples.workdir None)
   <-> ("alpha", KDir) ∈ [("b.png", KFile); (".cache", KDir); ("sub", KDir);
                          ("a.png", KFile); (".hidden.txt", KFile); ("alpha", KDir)]
       /\ hidden "alpha" = false)
  /\ ("alpha" ∈ l_files (browse Samples.sample_iterdir Samples.sample_message
                                Samples.workdir None)
      <-> ("alpha", KFile) ∈ [("b.png", KFile); (".cache", KDir); ("sub", KDir);
                              ("a.png", KFile); (".hidden.txt", KFile); ("alpha", KDir)]
          /\ hidden "alpha" = false).
Proof.
  apply (browse_complete Samples.sample_iterdir Samples.sample_message
           Samples.workdir None).
  - reflexivity.
  - reflexivity.
Defined.

Lemma build_zip_members_witness :
  ([".git"; "config"]
     ∈ [[".git"; "config"]; ["media"; "a.png"]; ["readme.txt"]]
   <-> ([".git"; "config"], KFile) ∈ dotted_rglob (target_of Samples.workdir None)
       /\ hidden (name [".git"; "config"]) = false)
  /\ StronglySorted members_le [[".git"; "config"]; ["media"; "a.png"]; ["readme.txt"]].
Proof.
  destruct (build_zip_members (fun _ => true) dotted_rglob Samples.workdir None
              [[".git"; "config"]; ["media"; "a.png"]; ["readme.txt"]] "out.zip")
    as [Hmem Hsorted].
  - vm_compute. reflexivity.
  - split; [apply Hmem|exact Hsorted].
Defined.

Lemma get_safe_path_reach_witness :
  exists parent nm seg rest,
    Samples.workdir = parent ++ [nm]
    /\ ["data"; "outside"; "secret.txt"] = parent ++ seg :: rest
    /\ String.prefix nm seg = true
    /\ (seg = nm -> inside Samples.workdir ["data"; "outside"; "secret.txt"]).
Proof.
  apply (get_safe_path_reach Samples.workdir ["data"; "outside"; "secret.txt"]
           "../outside/secret.txt").
  - discriminate.
  - repeat constructor; discriminate.
  - reflexivity.
Defined.


Lemma get_safe_path_absolute_witness :
  get_safe_path Samples.workdir "/data/out/sub" = Some ["data"; "out"; "sub"]
  /\ get_safe_path Samples.workdir "/etc/passwd" = None.
Proof.
  split.
  - apply (proj2 (get_safe_path_absolute Samples.workdir ["data"; "out"; "sub"]
                    ltac:(repeat constructor; discriminate))).
    exists ["sub"]. reflexivity.
  - apply (proj1 (get_safe_path_absolute Samples.workdir ["etc"; "passwd"]
                    ltac:(repeat constructor; discriminate))).
Defined.

End PathMore.

(** ** Further properties of the PNG scanner *)

Module PngMore.

Import Png Chunks MoreChunks PngFacts.
Local Open Scope Z_scope.

Section ScannerFacts.

Context {float : Type}.
Variable zlib_decompress : bytes -> option bytes.
Variable utf8_decode : bytes -> option string.
Variable utf8_decode_replace : bytes -> string.
Variable json_loads : string -> option json.

Abbreviation meta := (FileMetadata float).
Abbreviation handle := (@handle_chunk float zlib_decompress utf8_decode utf8_decode_replace).
Abbreviation scan_from := (@scan float zlib_decompress utf8_decode utf8_decode_replace).
Abbreviation decode :=
  (@parse_png_bytes float zlib_decompress utf8_decode utf8_decode_replace json_loads).
Abbreviation run_chunks := (@run float zlib_decompress utf8_decode utf8_decode_replace).

(** X1: the error field is set exactly when the signature is wrong.  A
    buffer that does not start with the eight signature bytes gives the record
    with only the error set; a buffer that does gives a record without
    error, whatever follows the signature. *)
Theorem png_error_only_for_signature (data : bytes) :
  (startswith data PNG_SIG = false ->
   decode data = Some (set_error empty_meta "Not a valid PNG file"))
  /\ (startswith data PNG_SIG = true ->
      exists m, decode data = Some m /\ error m = None).
Proof.
  unfold parse_png_bytes. split; intros ->; simpl; [reflexivity|].
  destruct (scan_returns (float := float) zlib_decompress utf8_decode utf8_decode_replace
              (length data) data 8 empty_meta) as [m Hm]; [unfold len; lia|].
  rewrite Hm. eexists. split; [reflexivity|].
  destruct (lift_fields json_loads m) as (_ & _ & _ & -> & _).
  apply scan_fields in Hm as (_ & _ & ->). reflexivity.
Qed.

Lemma slice_length_max (data : bytes) (k : Z) :
  (length (slice data k (k + 4)) <= 4)%nat.
Proof. pose proof (slice_length_le data k (k + 4)). lia. Qed.

Lemma handle_dims_u32 (t d : bytes) (m m' : meta) :
  handle t d m = Some m' -> dims_u32 m -> dims_u32 m'.
Proof.
  unfold handle_chunk.
  pose proof (text_chunk_fields d m) as (Ht1 & Ht2 & _).
  pose proof (ztxt_chunk_fields zlib_decompress d m) as (Hz1 & Hz2 & _).
  pose proof (itxt_chunk_fields zlib_decompress utf8_decode utf8_decode_replace d m)
    as (Hi1 & Hi2 & _).
  destruct (bytes_eqb t (tag "IHDR") && (8 <=? len d)).
  - intros [= <-] _. unfold dims_u32. simpl.
    pose proof (unpack_u32_nonneg (slice d 0 4)).
    pose proof (unpack_u32_nonneg (slice d 4 8)).
    pose proof (unpack_u32_lt (slice d 0 4) (slice_length_max d 0)).
    pose proof (unpack_u32_lt (slice d 4 8) (slice_length_max d 4)).
    lia.
  - repeat match goal with |- context [if ?b then _ else _] => destruct b end;
      intros [= <-] Hm; unfold dims_u32 in *;
      rewrite ?Ht1, ?Ht2, ?Hz1, ?Hz2, ?Hi1, ?Hi2; exact Hm.
Qed.

Lemma scan_dims_u32 (fuel : nat) (data : bytes) :
  forall (offset : Z) (m m' : meta),
    scan_from fuel data offset m = Some m' -> dims_u32 m -> dims_u32 m'.
Proof.
  induction fuel as [|fuel IH]; intros offset m m'; simpl.
  - destruct (_ <=? _); [discriminate|]. intros [= <-]. auto.
  - destruct (_ <=? _); [|intros [= <-]; auto].
    destruct (handle _ _ m) as [m1|] eqn:Hc; [|intros [= <-]; auto].
    intros Hs Hm. apply (IH _ _ _ Hs). apply (handle_dims_u32 _ _ _ _ Hc Hm).
Qed.

(** X2: whatever the buffer holds, the reported width and height are
    either both unset or both values of 32 bits. *)
Theorem png_dims_are_u32 (data : bytes) (m : meta) :
  decode data = Some m -> dims_u32 m.
Proof.
  unfold parse_png_bytes. destruct (negb _).
  - intros [= <-]. exact I.
  - destruct (scan_from _ _ _ _) as [m0|] eqn:Hs; [|discriminate].
    intros [= <-]. unfold dims_u32.
    destruct (lift_fields json_loads m0) as (-> & -> & _).
    apply (scan_dims_u32 _ _ _ _ _ Hs). exact I.
Qed.

(** X3: up to seven bytes after the last whole chunk are not read: the
    result is the one for the buffer that ends with that chunk. *)
Theorem png_trailing_bytes_ignored (cs : list chunk) (tail : bytes) :
  Forall well_formed cs ->
  len tail < 8 ->
  decode (PNG_SIG ++ encode_all cs ++ tail) = decode (PNG_SIG ++ encode_all cs).
Proof.
  intros Hwf Htail. rewrite decode_chunks by assumption.
  pose proof (decode_chunks (float := float) zlib_decompress utf8_decode
                utf8_decode_replace json_loads cs [] Hwf eq_refl) as Hplain.
  rewrite app_nil_r in Hplain. rewrite Hplain. reflexivity.
Qed.

(** Scanning stops at the first [IEND] chunk, whatever follows it. *)
Lemma scan_until_iend (cs : list chunk) :
  forall (fuel : nat) (pre rest crc : bytes) (m : meta),
    Forall well_formed cs ->
    Forall (fun c => is_iend c = false) cs ->
    length crc = 4%nat ->
    (length cs < fuel)%nat ->
    scan_from fuel (pre ++ encode_all cs ++ encode (iend crc) ++ rest) (len pre) m
    = Some (run_chunks cs m).
Proof.
  induction cs as [|c cs IH]; intros fuel pre rest crc m Hwf Hend Hcrc Hfuel.
  - destruct fuel as [|fuel]; [simpl in Hfuel; lia|].
    assert (well_formed (iend crc)) as Hi
      by (split; [reflexivity|split; [exact Hcrc|reflexivity]]).
    destruct (chunk_at pre rest (iend crc) Hi) as (Hlen & Hty & Hdat).
    pose proof (encode_length _ Hi) as Henc. pose proof (len_nonneg rest).
    unfold encode_all. simpl concat. rewrite app_nil_l.
    rewrite scan_step.
    assert ((len pre + 8 <=? len (pre ++ encode (iend crc) ++ rest)) = true) as ->.
    { apply Z.leb_le. rewrite !len_app. simpl c_data in Henc. change (len []) with 0 in Henc. lia. }
    cbv zeta. rewrite Hlen, Hty, Hdat.
    rewrite (handle_iend zlib_decompress utf8_decode utf8_decode_replace (iend crc) m)
      by reflexivity.
    reflexivity.
  - apply Forall_cons in Hwf as [Hc Hcs]. apply Forall_cons in Hend as [Hce Hcse].
    destruct fuel as [|fuel]; [simpl in Hfuel; lia|].
    change (encode_all (c :: cs)) with (encode c ++ encode_all cs).
    rewrite <- (app_assoc (encode c)).
    destruct (chunk_at pre (encode_all cs ++ encode (iend crc) ++ rest) c Hc)
      as (Hlen & Hty & Hdat).
    pose proof (encode_length c Hc) as Henc.
    pose proof (len_nonneg (c_data c)).
    pose proof (len_nonneg (encode_all cs ++ encode (iend crc) ++ rest)).
    rewrite scan_step.
    assert ((len pre + 8 <=?
             len (pre ++ encode c ++ encode_all cs ++ encode (iend crc) ++ rest)) = true) as ->.
    { apply Z.leb_le. rewrite (len_app pre), (len_app (encode c)). lia. }
    cbv zeta. rewrite Hlen, Hty, Hdat. rewrite run_cons.
    destruct (handle_continues zlib_decompress utf8_decode utf8_decode_replace c m Hce)
      as [m1 ->].
    rewrite (app_assoc pre).
    replace (len pre + (12 + len (c_data c))) with (len (pre ++ encode c))
      by (rewrite len_app; lia).
    apply IH; [assumption|assumption|assumption|simpl in Hfuel; lia].
Qed.

(** X4: nothing after the first [IEND] chunk is read.  Any bytes may follow
    it, whole chunks or not; the result is the one for the buffer that ends
    with the [IEND] chunk. *)
Theorem png_bytes_after_iend_ignored (cs : list chunk) (crc rest : bytes) :
  Forall well_formed cs ->
  Forall (fun c => is_iend c = false) cs ->
  length crc = 4%nat ->
  decode (PNG_SIG ++ encode_all cs ++ encode (iend crc) ++ rest)
  = decode (PNG_SIG ++ encode_all cs ++ encode (iend crc)).
Proof.
  intros Hwf Hend Hcrc.
  assert (forall rest' : bytes,
             decode (PNG_SIG ++ encode_all cs ++ encode (iend crc) ++ rest')
             = Some (lift json_loads (run_chunks cs empty_meta))) as Hall.
  { intros rest'. unfold parse_png_bytes.
    assert (startswith (PNG_SIG ++ encode_all cs ++ encode (iend crc) ++ rest') PNG_SIG
            = true) as -> by reflexivity.
    simpl negb. cbv iota. change 8 with (len PNG_SIG) at 1.
    rewrite scan_until_iend; [reflexivity|assumption|assumption|assumption|].
    pose proof (encode_all_length cs Hwf). rewrite !length_app. simpl length. lia. }
  rewrite Hall. rewrite <- (app_nil_r (encode (iend crc))) at 1.
  rewrite Hall. reflexivity.
Qed.

Lemma run_same_payload (cs cs' : list chunk) :
  Forall2 same_payload cs cs' ->
  forall m : meta, run_chunks cs m = run_chunks cs' m.
Proof.
  induction 1 as [|c c' cs cs' [Ht Hd] _ IH]; intros m; [reflexivity|].
  rewrite !run_cons, Ht, Hd.
  destruct (handle (c_type c') (c_data c') m); [apply IH|reflexivity].
Qed.

(** X5: the CRC bytes of a chunk are never looked at.  Two buffers whose
    chunks carry the same tags and payloads give the same record, whatever
    their CRC fields hold. *)
Theorem png_crc_ignored (cs cs' : list chunk) (tail : bytes) :
  Forall2 same_payload cs cs' ->
  Forall well_formed cs ->
  Forall well_formed cs' ->
  len tail < 8 ->
  decode (PNG_SIG ++ encode_all cs ++ tail) = decode (PNG_SIG ++ encode_all cs' ++ tail).
Proof.
  intros Hsame Hwf Hwf' Htail. rewrite !decode_chunks by assumption.
  rewrite (run_same_payload cs cs' Hsame). reflexivity.
Qed.

Lemma find_nul_none (d : bytes) : Byte.x00 ∉ d -> find_nul d = -1.
Proof.
  induction d as [|b d IH]; intros Hd; [reflexivity|].
  apply not_elem_of_cons in Hd as [Hb Hd]. simpl.
  destruct (Byte.eqb b Byte.x00) eqn:Hbe.
  - apply Byte.byte_dec_bl in Hbe. congruence.
  - rewrite (IH Hd). reflexivity.
Qed.

Lemma bytes_eqb_false (a b : bytes) : a <> b -> bytes_eqb a b = false.
Proof. intros Hab. unfold bytes_eqb. apply bool_decide_eq_false. exact Hab. Qed.

Lemma bytes_eqb_true (a b : bytes) : a = b -> bytes_eqb a b = true.
Proof. intros Hab. unfold bytes_eqb. apply bool_decide_eq_true. exact Hab. Qed.

Lemma handle_inert (c : chunk) (m : meta) :
  inert c -> handle (c_type c) (c_data c) m = Some m.
Proof.
  unfold inert, known_tags, text_tags, handle_chunk.
  intros [Hunknown|[[Hty Hshort]|[Htext Hnul]]].
  - rewrite !not_elem_of_cons in Hunknown.
    destruct Hunknown as (H1 & H2 & H3 & H4 & H5 & _).
    rewrite !bytes_eqb_false by assumption. reflexivity.
  - rewrite Hty.
    assert ((8 <=? len (c_data c)) = false) as -> by (apply Z.leb_gt; lia).
    reflexivity.
  - unfold text_chunk, ztxt_chunk, itxt_chunk. rewrite (find_nul_none _ Hnul).
    rewrite !elem_of_cons in Htext.
    destruct Htext as [->|[->|[->|Hno]]]; [reflexivity..|].
    apply elem_of_nil in Hno. contradiction.
Qed.

(** X6: chunks the decoder has no use for are passed over.  A chunk with an
    unknown tag (image data, palette, ...), an [IHDR] chunk with fewer than
    eight payload bytes, or a text chunk without a NUL byte can be removed
    from the buffer without changing the result. *)
Theorem png_inert_chunk_skipped (cs1 cs2 : list chunk) (c : chunk) (tail : bytes) :
  Forall well_formed cs1 ->
  Forall well_formed cs2 ->
  well_formed c ->
  inert c ->
  len tail < 8 ->
  decode (PNG_SIG ++ encode_all (cs1 ++ c :: cs2) ++ tail)
  = decode (PNG_SIG ++ encode_all (cs1 ++ cs2) ++ tail).
Proof.
  intros Hwf1 Hwf2 Hwf Hin Htail.
  rewrite !decode_chunks;
    [|apply Forall_app; split; assumption|assumption
     |apply Forall_app; split; [assumption|constructor; assumption]|assumption].
  rewrite run_skip by (intros m; apply handle_inert, Hin). reflexivity.
Qed.

(** A chunk that stores one value: what the decoder reports under its key. *)
Lemma decode_stores (cs1 cs2 : list chunk) (c : chunk) (key value : string) (tail : bytes) :
  (forall m : meta, handle (c_type c) (c_data c) m = Some (set_text m key value)) ->
  Forall well_formed cs1 ->
  Forall well_formed cs2 ->
  well_formed c ->
  Forall (fun c => is_iend c = false) cs1 ->
  Forall (fun c => text_key utf8_decode_replace c ≠ Some key) cs2 ->
  len tail < 8 ->
  exists m,
    decode (PNG_SIG ++ encode_all (cs1 ++ c :: cs2) ++ tail) = Some m
    /\ raw_text_chunks m !! key = Some value.
Proof.
  intros Hc Hwf1 Hwf2 Hwf Hend Hkeys Htail. eexists. split.
  { apply decode_chunks; [|assumption].
    apply Forall_app. split; [assumption|]. constructor; assumption. }
  destruct (lift_fields json_loads (run_chunks (cs1 ++ c :: cs2) empty_meta))
    as (_ & _ & -> & _).
  rewrite run_app by assumption. rewrite run_cons, Hc.
  rewrite run_raw by assumption. simpl. apply lookup_insert_eq.
Qed.

(** X7: a [tEXt] chunk round trip.  The value written under a key is
    reported under that key, whatever earlier chunks stored there, as long as
    the chunk lies before [IEND] and no later chunk uses the key. *)
Theorem png_text_round_trip
  (cs1 cs2 : list chunk) (key value : string) (crc tail : bytes) :
  no_nul key ->
  Forall well_formed cs1 ->
  Forall well_formed cs2 ->
  well_formed (text key value crc) ->
  Forall (fun c => is_iend c = false) cs1 ->
  Forall (fun c => text_key utf8_decode_replace c ≠ Some key) cs2 ->
  len tail < 8 ->
  exists m,
    decode (PNG_SIG ++ encode_all (cs1 ++ text key value crc :: cs2) ++ tail) = Some m
    /\ raw_text_chunks m !! key = Some value.
Proof.
  intros Hkey. apply decode_stores. intros m. apply handle_text, Hkey.
Qed.

Lemma handle_good_ztxt
  (key : string) (method : byte) (z crc value : bytes) (m : meta) :
  no_nul key ->
  z <> [] ->
  zlib_decompress z = Some value ->
  handle (c_type (ztxt key method z crc)) (c_data (ztxt key method z crc)) m
  = Some (set_text m key (latin1 value)).
Proof.
  intros Hk Hne Hz. unfold ztxt. simpl c_type. simpl c_data.
  unfold handle_chunk.
  change (bytes_eqb (tag "zTXt") (tag "IHDR")) with false.
  change (bytes_eqb (tag "zTXt") (tag "tEXt")) with false.
  change (bytes_eqb (tag "zTXt") (tag "zTXt")) with true.
  cbv iota. simpl andb. cbv iota.
  unfold ztxt_chunk. simpl app.
  rewrite (find_nul_app _ _ Hk).
  set (k := String.list_byte_of_string key).
  pose proof (len_nonneg k) as Hlen.
  assert (negb (len k =? -1) && (len k + 2 <? len (k ++ Byte.x00 :: method :: z)) = true)
    as ->.
  { apply andb_true_iff. split.
    - apply negb_true_iff, Z.eqb_neq. lia.
    - apply Z.ltb_lt. destruct z; [contradiction|].
      unfold len. rewrite length_app. simpl length. lia. }
  rewrite slice_head. subst k. rewrite latin1_bytes.
  replace (String.list_byte_of_string key ++ Byte.x00 :: method :: z)
    with ((String.list_byte_of_string key ++ [Byte.x00; method]) ++ z)
    by (rewrite <- app_assoc; reflexivity).
  replace (len (String.list_byte_of_string key) + 2)
    with (len (String.list_byte_of_string key ++ [Byte.x00; method]))
    by (rewrite len_app; reflexivity).
  rewrite slice_from_tail, Hz. reflexivity.
Qed.

(** X8: a [zTXt] chunk round trip.  When the compressed stream of the chunk
    decompresses to some bytes, the decoder reports those bytes, read as
    Latin-1, under the chunk's key. *)
Theorem png_ztxt_round_trip
  (cs1 cs2 : list chunk) (key : string) (method : byte) (z crc value tail : bytes) :
  no_nul key ->
  z <> [] ->
  zlib_decompress z = Some value ->
  Forall well_formed cs1 ->
  Forall well_formed cs2 ->
  well_formed (ztxt key method z crc) ->
  Forall (fun c => is_iend c = false) cs1 ->
  Forall (fun c => text_key utf8_decode_replace c ≠ Some key) cs2 ->
  len tail < 8 ->
  exists m,
    decode (PNG_SIG ++ encode_all (cs1 ++ ztxt key method z crc :: cs2) ++ tail) = Some m
    /\ raw_text_chunks m !! key = Some (latin1 value).
Proof.
  intros Hkey Hne Hz. apply decode_stores. intros m. apply handle_good_ztxt; assumption.
Qed.

Lemma skip_field_app (field rest : bytes) :
  Byte.x00 ∉ field -> skip_field (field ++ Byte.x00 :: rest) = rest.
Proof.
  intros Hf. unfold skip_field. rewrite (find_nul_app _ _ Hf).
  pose proof (len_nonneg field).
  assert (negb (len field =? -1) = true) as ->
    by (apply negb_true_iff, Z.eqb_neq; lia).
  replace (field ++ Byte.x00 :: rest) with ((field ++ [Byte.x00]) ++ rest)
    by (rewrite <- app_assoc; reflexivity).
  replace (len field + 1) with (len (field ++ [Byte.x00]))
    by (rewrite len_app; reflexivity).
  apply slice_from_tail.
Qed.

Lemma flag_value (flag : byte) : (unpack_u32 [flag] =? 0) = bool_decide (flag = Byte.x00).
Proof. destruct flag; reflexivity. Qed.

(** The parts of an [iTXt] payload as the loop body cuts them out. *)
Lemma itxt_parts (key lang translated body : bytes) (flag method : byte) (crc : bytes) :
  Byte.x00 ∉ key -> Byte.x00 ∉ lang -> Byte.x00 ∉ translated ->
  let d := c_data (itxt key flag method lang translated body crc) in
  find_nul d = len key
  /\ (len key + 3 <? len d) = true
  /\ slice d 0 (len key) = key
  /\ slice d (len key + 1) (len key + 2) = [flag]
  /\ skip_field (skip_field (slice_from d (len key + 3))) = body.
Proof.
  intros Hk Hl Ht d.
  pose proof (len_nonneg key). pose proof (len_nonneg lang).
  pose proof (len_nonneg translated). pose proof (len_nonneg body).
  set (after_method := lang ++ Byte.x00 :: translated ++ Byte.x00 :: body).
  assert (d = key ++ Byte.x00 :: flag :: method :: after_method) as Hd by reflexivity.
  split; [rewrite Hd; apply (find_nul_app _ _ Hk)|].
  split.
  { apply Z.ltb_lt. rewrite Hd. subst after_method. unfold len.
    rewrite length_app. simpl length. rewrite length_app. simpl length. lia. }
  split; [rewrite Hd; apply slice_head|].
  split.
  - apply (slice_at _ (key ++ [Byte.x00]) [flag] (method :: after_method)).
    + rewrite Hd, <- app_assoc. reflexivity.
    + rewrite len_app. reflexivity.
    + unfold len. simpl length. lia.
  - replace d with ((key ++ [Byte.x00; flag; method]) ++ after_method)
      by (rewrite Hd, <- app_assoc; reflexivity).
    replace (len key + 3) with (len (key ++ [Byte.x00; flag; method]))
      by (rewrite len_app; reflexivity).
    rewrite slice_from_tail. subst after_method.
    rewrite (skip_field_app _ _ Hl), (skip_field_app _ _ Ht). reflexivity.
Qed.

Lemma handle_itxt
  (key lang translated body : bytes) (flag method : byte) (crc : bytes)
  (value : string) (m : meta) :
  Byte.x00 ∉ key -> Byte.x00 ∉ lang -> Byte.x00 ∉ translated ->
  (flag = Byte.x00 /\ value = utf8_decode_replace body)
  \/ (flag <> Byte.x00
      /\ exists raw, zlib_decompress body = Some raw /\ utf8_decode raw = Some value) ->
  let c := itxt key flag method lang translated body crc in
  handle (c_type c) (c_data c) m = Some (set_text m (utf8_decode_replace key) value).
Proof.
  intros Hk Hl Ht Hvalue c.
  destruct (itxt_parts key lang translated body flag method crc Hk Hl Ht)
    as (Hnul & Hlen & Hkey & Hflag & Hrest).
  fold c in Hnul, Hlen, Hkey, Hflag, Hrest.
  change (c_type c) with (tag "iTXt"). unfold handle_chunk.
  change (bytes_eqb (tag "iTXt") (tag "IHDR")) with false.
  change (bytes_eqb (tag "iTXt") (tag "tEXt")) with false.
  change (bytes_eqb (tag "iTXt") (tag "zTXt")) with false.
  change (bytes_eqb (tag "iTXt") (tag "iTXt")) with true.
  cbv iota. simpl andb. cbv iota.
  unfold itxt_chunk. rewrite Hnul, Hlen, Hkey, Hflag, Hrest, flag_value.
  pose proof (len_nonneg key).
  assert (negb (len key =? -1) = true) as ->
    by (apply negb_true_iff, Z.eqb_neq; lia).
  simpl andb. cbv iota.
  destruct Hvalue as [[-> ->]|(Hflagne & raw & Hz & Hu)].
  - reflexivity.
  - rewrite bool_decide_eq_false_2 by assumption. simpl negb. cbv iota.
    rewrite Hz, Hu. reflexivity.
Qed.

Lemma itxt_text_key (key lang translated body : bytes) (flag method : byte) (crc : bytes) :
  Byte.x00 ∉ key ->
  text_key utf8_decode_replace (itxt key flag method lang translated body crc)
  = Some (utf8_decode_replace key).
Proof.
  intros Hk. unfold text_key, itxt. simpl c_data. simpl c_type.
  rewrite (find_nul_app _ _ Hk). pose proof (len_nonneg key).
  assert ((len key =? -1) = false) as -> by (apply Z.eqb_neq; lia).
  rewrite slice_head. reflexivity.
Qed.

(** X9: an [iTXt] chunk round trip.  With a zero compression flag the text
    after the language tag and the translated keyword is reported, decoded as
    UTF-8, under the chunk's keyword; with a non-zero flag the reported text
    is the decompressed stream, when it decompresses and decodes. *)
Theorem png_itxt_round_trip
  (cs1 cs2 : list chunk) (key lang translated body : bytes) (flag method : byte)
  (crc tail : bytes) (value : string) :
  Byte.x00 ∉ key -> Byte.x00 ∉ lang -> Byte.x00 ∉ translated ->
  (flag = Byte.x00 /\ value = utf8_decode_replace body)
  \/ (flag <> Byte.x00
      /\ exists raw, zlib_decompress body = Some raw /\ utf8_decode raw = Some value) ->
  Forall well_formed cs1 ->
  Forall well_formed cs2 ->
  well_formed (itxt key flag method lang translated body crc) ->
  Forall (fun c => is_iend c = false) cs1 ->
  Forall (fun c => text_key utf8_decode_replace c ≠ Some (utf8_decode_replace key)) cs2 ->
  len tail < 8 ->
  exists m,
    decode (PNG_SIG
              ++ encode_all (cs1 ++ itxt key flag method lang translated body crc :: cs2)
              ++ tail) = Some m
    /\ raw_text_chunks m !! utf8_decode_replace key = Some value.
Proof.
  intros Hk Hl Ht Hvalue. apply decode_stores. intros m.
  apply handle_itxt; assumption.
Qed.

(** X10: where the lifted fields come from.  Whatever the buffer holds, a
    reported workflow is the parsed text stored under [workflow] (or under
    [Workflow] when there is no [workflow]), a reported prompt the parsed text
    under [prompt] (or [Prompt]); without such a text the field is unset. *)
Theorem png_lifted_from_text (data : bytes) (m : meta) :
  decode data = Some m ->
  (workflow m <> JNull ->
   exists key text v,
     key ∈ ["workflow"; "Workflow"] /\ raw_text_chunks m !! key = Some text
     /\ json_loads text = Some v /\ workflow m = v)
  /\ (prompt m <> JNull ->
      exists key text v,
        key ∈ ["prompt"; "Prompt"] /\ raw_text_chunks m !! key = Some text
        /\ json_loads text = Some v /\ prompt m = v).
Proof.
  intros Hdec. destruct (decode_lifted _ _ _ _ data m Hdec) as (Hw & Hp).
  unfold lift_candidates, _try_json in Hw, Hp.
  split; intros Hset.
  - destruct (raw_text_chunks m !! "workflow") as [text|] eqn:H1.
    + destruct (json_loads text) as [v|] eqn:Hv; [|contradiction].
      exists "workflow", text, v. rewrite elem_of_cons. auto.
    + destruct (raw_text_chunks m !! "Workflow") as [text|] eqn:H2; [|contradiction].
      destruct (json_loads text) as [v|] eqn:Hv; [|contradiction].
      exists "Workflow", text, v. rewrite !elem_of_cons. auto.
  - destruct (raw_text_chunks m !! "prompt") as [text|] eqn:H1.
    + destruct (json_loads text) as [v|] eqn:Hv; [|contradiction].
      exists "prompt", text, v. rewrite elem_of_cons. auto.
    + destruct (raw_text_chunks m !! "Prompt") as [text|] eqn:H2; [|contradiction].
      destruct (json_loads text) as [v|] eqn:Hv; [|contradiction].
      exists "Prompt", text, v. rewrite !elem_of_cons. auto.
Qed.

End ScannerFacts.

Lemma png_error_only_for_signature_witness :
  sample_decode [] = Some (set_error empty_meta "Not a valid PNG file")
  /\ exists m, sample_decode PNG_SIG = Some m /\ error m = None.
Proof.
  split.
  - apply (proj1 (png_error_only_for_signature (float := Instances.ratio)
                    Instances.inflate_stored Instances.utf8_ascii
                    Instances.utf8_ascii_replace JsonText.loads [])).
    reflexivity.
  - apply (proj2 (png_error_only_for_signature (float := Instances.ratio)
                    Instances.inflate_stored Instances.utf8_ascii
                    Instances.utf8_ascii_replace JsonText.loads PNG_SIG)).
    reflexivity.
Defined.

Lemma png_dims_are_u32_witness :
  exists m, sample_decode (PNG_SIG ++ encode_all two_ihdr) = Some m /\ dims_u32 m.
Proof.
  assert (exists m, sample_decode (PNG_SIG ++ encode_all two_ihdr) = Some m) as [m Hm]
    by (vm_compute; eauto).
  exists m. split; [exact Hm|].
  exact (png_dims_are_u32 Instances.inflate_stored Instances.utf8_ascii
           Instances.utf8_ascii_replace JsonText.loads _ m Hm).
Defined.

Lemma png_trailing_bytes_ignored_witness :
  sample_decode (PNG_SIG ++ encode_all two_ihdr ++ [Byte.x00; Byte.x01; Byte.x02])
  = sample_decode (PNG_SIG ++ encode_all two_ihdr).
Proof.
  apply (png_trailing_bytes_ignored (float := Instances.ratio)
           Instances.inflate_stored Instances.utf8_ascii
           Instances.utf8_ascii_replace JsonText.loads two_ihdr).
  - sample_chunks.
  - reflexivity.
Defined.

Lemma png_bytes_after_iend_ignored_witness :
  sample_decode (PNG_SIG ++ encode_all [ihdr 512 768 crc0] ++ encode (iend crc0)
                         ++ encode (text "workflow" workflow_text crc0))
  = sample_decode (PNG_SIG ++ encode_all [ihdr 512 768 crc0] ++ encode (iend crc0)).
Proof.
  apply (png_bytes_after_iend_ignored (float := Instances.ratio)
           Instances.inflate_stored Instances.utf8_ascii
           Instances.utf8_ascii_replace JsonText.loads [ihdr 512 768 crc0] crc0).
  - sample_chunks.
  - sample_chunks.
  - reflexivity.
Defined.

Lemma png_crc_ignored_witness :
  sample_decode (PNG_SIG ++ encode_all [ihdr 1 2 crc0; iend crc0] ++ [])
  = sample_decode (PNG_SIG ++ encode_all [ihdr 1 2 crc1; iend crc1] ++ []).
Proof.
  apply (png_crc_ignored (float := Instances.ratio)
           Instances.inflate_stored Instances.utf8_ascii
           Instances.utf8_ascii_replace JsonText.loads).
  - repeat constructor.
  - sample_chunks.
  - sample_chunks.
  - reflexivity.
Defined.

Lemma idat_inert : inert idat.
Proof.
  left. unfold known_tags. rewrite !not_elem_of_cons.
  repeat split; try discriminate. apply not_elem_of_nil.
Qed.

Lemma png_inert_chunk_skipped_witness :
  sample_decode (PNG_SIG ++ encode_all ([ihdr 512 768 crc0] ++ idat :: [iend crc0]) ++ [])
  = sample_decode (PNG_SIG ++ encode_all ([ihdr 512 768 crc0] ++ [iend crc0]) ++ []).
Proof.
  apply (png_inert_chunk_skipped (float := Instances.ratio)
           Instances.inflate_stored Instances.utf8_ascii
           Instances.utf8_ascii_replace JsonText.loads).
  - sample_chunks.
  - sample_chunks.
  - sample_chunks.
  - apply idat_inert.
  - reflexivity.
Defined.

Lemma no_nul_sample (key : string) :
  forallb (fun b => negb (Byte.eqb b Byte.x00)) (String.list_byte_of_string key) = true ->
  no_nul key.
Proof.
  unfold no_nul. intros Hall Hin. rewrite forallb_forall in Hall.
  apply list_elem_of_In in Hin. apply Hall in Hin. discriminate.
Qed.

Lemma png_text_round_trip_witness :
  exists m,
    sample_decode
      (PNG_SIG ++ encode_all ([text "note" "first" crc0] ++ text "note" "second" crc0
                                :: [iend crc0]) ++ []) = Some m
    /\ raw_text_chunks m !! "note" = Some "second".
Proof.
  apply (png_text_round_trip (float := Instances.ratio)
           Instances.inflate_stored Instances.utf8_ascii
           Instances.utf8_ascii_replace JsonText.loads).
  - apply no_nul_sample. reflexivity.
  - sample_chunks.
  - sample_chunks.
  - sample_chunks.
  - sample_chunks.
  - repeat constructor; discriminate.
  - reflexivity.
Defined.

Lemma png_ztxt_round_trip_witness :
  exists m,
    sample_decode
      (PNG_SIG ++ encode_all ([ihdr 512 768 crc0] ++ ztxt "note" Byte.x00 hi_stream crc0
                                :: [iend crc0]) ++ []) = Some m
    /\ raw_text_chunks m !! "note" = Some "hi".
Proof.
  apply (png_ztxt_round_trip (float := Instances.ratio)
           Instances.inflate_stored Instances.utf8_ascii
           Instances.utf8_ascii_replace JsonText.loads
           [ihdr 512 768 crc0] [iend crc0] "note" Byte.x00 hi_stream crc0
           [Byte.x68; Byte.x69] []).
  - apply no_nul_sample. reflexivity.
  - discriminate.
  - reflexivity.
  - sample_chunks.
  - sample_chunks.
  - sample_chunks.
  - sample_chunks.
  - repeat constructor; discriminate.
  - reflexivity.
Defined.

Lemma no_nul_bytes (bs : bytes) :
  forallb (fun b => negb (Byte.eqb b Byte.x00)) bs = true -> Byte.x00 ∉ bs.
Proof.
  intros Hall Hin. rewrite forallb_forall in Hall.
  apply list_elem_of_In in Hin. apply Hall in Hin. discriminate.
Qed.

Lemma png_itxt_round_trip_witness :
  exists m,
    sample_decode
      (PNG_SIG ++ encode_all ([ihdr 512 768 crc0] ++ itxt_prompt :: [iend crc0]) ++ [])
    = Some m
    /\ raw_text_chunks m !! "prompt" = Some prompt_text.
Proof.
  apply (png_itxt_round_trip (float := Instances.ratio)
           Instances.inflate_stored Instances.utf8_ascii
           Instances.utf8_ascii_replace JsonText.loads
           [ihdr 512 768 crc0] [iend crc0] (tag "prompt") (tag "en") (tag "Prompt")
           (String.list_byte_of_string prompt_text) Byte.x00 Byte.x00 crc0 [] prompt_text).
  - apply no_nul_bytes. reflexivity.
  - apply no_nul_bytes. reflexivity.
  - apply no_nul_bytes. reflexivity.
  - left. split; reflexivity.
  - sample_chunks.
  - sample_chunks.
  - sample_chunks.
  - sample_chunks.
  - repeat constructor; discriminate.
  - reflexivity.
Defined.

Lemma png_lifted_from_text_witness :
  exists m,
    sample_decode png_workflow = Some m
    /\ exists key text v,
        key ∈ ["workflow"; "Workflow"] /\ raw_text_chunks m !! key = Some text
        /\ JsonText.loads text = Some v /\ workflow m = v.
Proof.
  assert (exists m, sample_decode png_workflow = Some m /\ workflow m <> JNull)
    as (m & Hm & Hset) by (vm_compute; eexists; split; [reflexivity|discriminate]).
  exists m. split; [exact Hm|].
  exact (proj1 (png_lifted_from_text Instances.inflate_stored Instances.utf8_ascii
                  Instances.utf8_ascii_replace JsonText.loads _ m Hm) Hset).
Defined.

End PngMore.

(** ** Further properties of the video probe adapter *)

Module VideoMore.

Import Video MoreVideo VideoFacts.
Local Open Scope Z_scope.

Section AdapterMore.

Context {float : Type}.
Variable py_int : string -> option Z.
Variable float_div : Z -> Z -> option float.
Variable round3 : float -> float.
Variable float_of_str : string -> option float.
Variable float_is_zero : float -> bool.
Variable json_loads : string -> option json.

Abbreviation meta := (FileMetadata float).
Abbreviation rate := (@frame_rate float py_int float_div round3).
Abbreviation loop := (@stream_loop float py_int float_div round3).
Abbreviation parse_video :=
  (@_parse_video float py_int float_div round3 float_of_str float_is_zero json_loads).
Abbreviation from_comment := (@comment_pass float json_loads).
Abbreviation from_tags := (@standalone_pass float json_loads).
Abbreviation merge := (@merge_tags float json_loads).

(** *** The stream loop *)

Lemma stream_loop_skips (pre post : list stream) (m : meta) :
  Forall (fun s => ~ is_video s) pre ->
  loop (pre ++ post) m = loop post m.
Proof.
  induction 1 as [|s pre Hs _ IH]; [reflexivity|]. simpl.
  rewrite bool_decide_eq_false_2 by exact Hs. exact IH.
Qed.

Lemma stream_loop_video (s : stream) (post : list stream) (m : meta) :
  is_video s ->
  loop (s :: post) m =
  (f ← rate s (fps m);
   ret (set_fps (set_video_codec (set_dims m (s_width s) (s_height s)) (codec_name s)) f)).
Proof. intros Hs. simpl. rewrite bool_decide_eq_true_2 by exact Hs. reflexivity. Qed.

Lemma stream_loop_fields (ss : list stream) (m m' : meta) :
  loop ss m = inr m' ->
  workflow m' = workflow m /\ prompt m' = prompt m /\ comment m' = comment m
  /\ duration m' = duration m /\ error m' = error m
  /\ raw_text_chunks m' = raw_text_chunks m.
Proof.
  induction ss as [|s ss IH]; simpl.
  - intros [= <-]. auto 10.
  - destruct (negb _); [exact IH|].
    destruct (rate s _) as [e|f]; simpl; [discriminate|].
    intros [= <-]. simpl. auto 10.
Qed.

(** *** The tag merge *)

Lemma comment_pass_fields (tg : gmap string string) (m : meta) :
  same_probe_fields m (from_comment tg m).
Proof.
  unfold same_probe_fields, comment_pass.
  destruct (comment_tag tg) as [text|]; [|auto 10].
  destruct (truthy (Some text)); [|auto 10].
  destruct (_try_json json_loads text) as [| | | | |fields]; simpl; auto 10.
  destruct (Json.has_key fields "nodes").
  - destruct (Json.get fields "prompt") as [[]|]; simpl; auto 10.
  - destruct (Json.has_key fields "prompt"); simpl; auto 10.
    destruct (Json.get fields "workflow") as [[]|]; simpl; auto 10.
Qed.

Lemma workflow_loop_fields (keys : list string) (tg : gmap string string) (m : meta) :
  same_probe_fields m (workflow_loop json_loads keys tg m).
Proof.
  unfold same_probe_fields.
  induction keys as [|key keys IH]; simpl; [auto 10|].
  destruct (tg !! key) as [raw|]; [|exact IH].
  destruct (negb (String.eqb raw "")); [|exact IH].
  destruct (_try_json json_loads raw) as [| | | | |fields]; auto 10.
  destruct (Json.has_key fields "nodes"); [|auto 10].
  simpl. destruct (comment m); simpl; auto 10.
Qed.

Lemma prompt_loop_fields (keys : list string) (tg : gmap string string) (m : meta) :
  same_probe_fields m (prompt_loop json_loads keys tg m)
  /\ comment (prompt_loop json_loads keys tg m) = comment m.
Proof.
  unfold same_probe_fields.
  induction keys as [|key keys IH]; simpl; [auto 10|].
  destruct (tg !! key) as [raw|]; [|exact IH].
  destruct (negb (String.eqb raw "")); [|exact IH].
  destruct (_try_json json_loads raw); simpl; auto 10.
Qed.

Lemma same_probe_fields_trans (a b c : meta) :
  same_probe_fields a b -> same_probe_fields b c -> same_probe_fields a c.
Proof.
  unfold same_probe_fields.
  intros (-> & -> & -> & -> & -> & -> & ->) H. exact H.
Qed.

Lemma same_probe_fields_refl (a : meta) : same_probe_fields a a.
Proof. unfold same_probe_fields. auto 10. Qed.

Lemma standalone_pass_fields (tg : gmap string string) (m : meta) :
  same_probe_fields m (from_tags tg m).
Proof.
  unfold standalone_pass.
  set (m1 := if Json.is_none (workflow m) then _ else m).
  assert (same_probe_fields m m1) as H1
    by (subst m1; destruct (Json.is_none (workflow m));
        [apply workflow_loop_fields|apply same_probe_fields_refl]).
  apply (same_probe_fields_trans _ _ _ H1).
  destruct (Json.is_none (prompt m1));
    [apply prompt_loop_fields|apply same_probe_fields_refl].
Qed.

Lemma merge_fields (tg : gmap string string) (m : meta) :
  same_probe_fields m (merge tg m).
Proof.
  unfold merge_tags.
  apply (same_probe_fields_trans _ _ _ (comment_pass_fields tg m)).
  apply standalone_pass_fields.
Qed.

Lemma read_duration_value (d : option string) (m : meta) :
  duration m = None ->
  duration (read_duration float_of_str float_is_zero d m)
  = duration_of float_of_str float_is_zero d
  /\ width (read_duration float_of_str float_is_zero d m) = width m
  /\ height (read_duration float_of_str float_is_zero d m) = height m
  /\ fps (read_duration float_of_str float_is_zero d m) = fps m
  /\ video_codec (read_duration float_of_str float_is_zero d m) = video_codec m
  /\ error (read_duration float_of_str float_is_zero d m) = error m.
Proof.
  intros Hd. unfold read_duration, duration_of.
  destruct d as [text|]; simpl; [|auto 10].
  destruct (float_of_str text); simpl; auto 10.
Qed.

(** What [_parse_video] returns for parsed probe output. *)
Lemma parse_video_output (data : probe) (m : meta) :
  parse_video (ToolOutput (Some data)) = inr m ->
  exists m1,
    loop (streams data) empty_meta = inr m1
    /\ width m = width m1 /\ height m = height m1 /\ fps m = fps m1
    /\ video_codec m = video_codec m1
    /\ duration m = duration_of float_of_str float_is_zero (format_duration data)
    /\ error m = None.
Proof.
  simpl. destruct (loop (streams data) empty_meta) as [e|m1] eqn:Hloop; [discriminate|].
  simpl. intros [= <-]. exists m1. split; [reflexivity|].
  destruct (stream_loop_fields _ _ _ Hloop) as (_ & _ & _ & Hd & He & _).
  destruct (read_duration_value (format_duration data) m1 Hd)
    as (Hd' & Hw & Hh & Hf & Hc & He').
  destruct (merge_fields (tags data)
              (read_duration float_of_str float_is_zero (format_duration data) m1))
    as (-> & -> & -> & -> & -> & -> & _).
  rewrite Hw, Hh, Hf, Hc, Hd', He', He. auto 10.
Qed.

(** X11: only the first video stream is read.  Streams of other types
    before it are skipped and every stream after it is ignored: width, height
    and codec are those of the first stream whose type is [video].  Without a
    video stream they stay unset, and so does the frame rate. *)
Theorem video_first_stream_wins :
  (forall (pre post : list stream) (s : stream) (fmt_duration : option string)
          (tg : gmap string string) (m : meta),
      Forall (fun s' => ~ is_video s') pre ->
      is_video s ->
      parse_video (ToolOutput (Some (Probe (pre ++ s :: post) fmt_duration tg))) = inr m ->
      width m = s_width s /\ height m = s_height s /\ video_codec m = codec_name s
      /\ rate s None = inr (fps m))
  /\ (forall (ss : list stream) (fmt_duration : option string)
            (tg : gmap string string),
        Forall (fun s' => ~ is_video s') ss ->
        exists m,
          parse_video (ToolOutput (Some (Probe ss fmt_duration tg))) = inr m
          /\ width m = None /\ height m = None /\ video_codec m = None /\ fps m = None).
Proof.
  split.
  - intros pre post s d tg m Hpre Hs Hm.
    apply parse_video_output in Hm as (m1 & Hloop & -> & -> & -> & -> & _).
    simpl streams in Hloop.
    rewrite (stream_loop_skips pre (s :: post) _ Hpre) in Hloop.
    rewrite (stream_loop_video s post _ Hs) in Hloop.
    change (fps empty_meta) with (@None float) in Hloop.
    destruct (rate s None) as [e|f]; [discriminate|].
    injection Hloop as <-. simpl. auto.
  - intros ss d tg Hss.
    assert (loop ss empty_meta = inr empty_meta) as Hloop.
    { rewrite <- (app_nil_r ss). rewrite (stream_loop_skips ss [] _ Hss). reflexivity. }
    destruct (parse_video (ToolOutput (Some (Probe ss d tg)))) as [e|m] eqn:Hm.
    + simpl in Hm. rewrite Hloop in Hm. discriminate.
    + exists m. split; [reflexivity|].
      apply parse_video_output in Hm as (m1 & Hloop' & -> & -> & -> & -> & _).
      simpl streams in Hloop'. rewrite Hloop in Hloop'. injection Hloop' as <-.
      auto.
Qed.

(** X12: the error field of a probe result.  The three failures of the
    subprocess and unparsable output each give a record with the error set and
    every other field unset; parsed output never sets the error. *)
Theorem video_error_only_for_failures (run : run_result) (m : meta) :
  parse_video run = inr m ->
  match run with
  | ToolOutput (Some _) => error m = None
  | _ => exists msg, m = set_error empty_meta msg
  end.
Proof.
  destruct run as [| |msg|[data|]].
  - intros [= <-]. eauto.
  - intros [= <-]. eauto.
  - intros [= <-]. eauto.
  - intros Hm. apply parse_video_output in Hm as (m1 & _ & _ & _ & _ & _ & _ & He).
    exact He.
  - intros [= <-]. eauto.
Qed.

(** X13: the duration of a probe result is the format-level duration text
    read as a float; a missing, unparsable or zero duration is reported as
    unset, never as zero. *)
Theorem video_duration (data : probe) (m : meta) :
  parse_video (ToolOutput (Some data)) = inr m ->
  duration m = duration_of float_of_str float_is_zero (format_duration data)
  /\ (forall x, duration m = Some x -> float_is_zero x = false).
Proof.
  intros Hm. apply parse_video_output in Hm as (m1 & _ & _ & _ & _ & _ & Hd & _).
  split; [exact Hd|]. intros x. rewrite Hd. unfold duration_of.
  destruct (format_duration data) as [text|]; [|discriminate].
  destruct (float_of_str text) as [y|]; [|discriminate].
  destruct (float_is_zero y) eqn:Hy; [discriminate|]. intros [= <-]. exact Hy.
Qed.

(** *** Which tags are read *)

Lemma workflow_loop_ext (keys : list string) (tg tg' : gmap string string) (m : meta) :
  (forall k, k ∈ keys -> tg !! k = tg' !! k) ->
  workflow_loop json_loads keys tg m = workflow_loop json_loads keys tg' m.
Proof.
  induction keys as [|key keys IH]; intros Hsame; [reflexivity|]. simpl.
  rewrite <- (Hsame key) by (apply elem_of_cons; auto).
  rewrite IH by (intros k Hk; apply Hsame, elem_of_cons; auto). reflexivity.
Qed.

Lemma prompt_loop_ext (keys : list string) (tg tg' : gmap string string) (m : meta) :
  (forall k, k ∈ keys -> tg !! k = tg' !! k) ->
  prompt_loop json_loads keys tg m = prompt_loop json_loads keys tg' m.
Proof.
  induction keys as [|key keys IH]; intros Hsame; [reflexivity|]. simpl.
  rewrite <- (Hsame key) by (apply elem_of_cons; auto).
  rewrite IH by (intros k Hk; apply Hsame, elem_of_cons; auto). reflexivity.
Qed.

(** X14: the merge reads nine tag names and nothing else: [comment],
    [workflow] and [prompt], each in lower case, capitalised and in upper
    case.  Two tag sets that agree on these nine give the same result, so a
    tag in any other spelling or under any other name has no effect. *)
Theorem video_merge_reads_nine_keys (tg tg' : gmap string string) (m : meta) :
  (forall k, k ∈ tag_keys -> tg !! k = tg' !! k) ->
  merge tg m = merge tg' m.
Proof.
  intros Hsame. unfold tag_keys in Hsame.
  assert (forall k, k ∈ ["comment"; "Comment"; "COMMENT"] -> tg !! k = tg' !! k) as Hc
    by (intros k Hk; apply Hsame; rewrite !elem_of_cons in Hk;
        destruct Hk as [->|[->|[->|Hk]]];
        [rewrite !elem_of_cons; auto 12..|apply elem_of_nil in Hk; contradiction]).
  assert (forall k, k ∈ ["workflow"; "Workflow"; "WORKFLOW"] -> tg !! k = tg' !! k) as Hw
    by (intros k Hk; apply Hsame; rewrite !elem_of_cons in Hk;
        destruct Hk as [->|[->|[->|Hk]]];
        [rewrite !elem_of_cons; auto 12..|apply elem_of_nil in Hk; contradiction]).
  assert (forall k, k ∈ ["prompt"; "Prompt"; "PROMPT"] -> tg !! k = tg' !! k) as Hp
    by (intros k Hk; apply Hsame; rewrite !elem_of_cons in Hk;
        destruct Hk as [->|[->|[->|Hk]]];
        [rewrite !elem_of_cons; auto 12..|apply elem_of_nil in Hk; contradiction]).
  assert (comment_tag tg = comment_tag tg') as Htag.
  { unfold comment_tag.
    rewrite (Hc "comment"), (Hc "Comment"), (Hc "COMMENT")
      by (rewrite !elem_of_cons; auto). reflexivity. }
  unfold merge_tags, comment_pass, standalone_pass. rewrite Htag.
  set (m1 := match comment_tag tg' with Some _ => _ | None => m end).
  rewrite (workflow_loop_ext _ tg tg' m1 Hw).
  set (m2 := if Json.is_none (workflow m1) then _ else m1).
  rewrite (prompt_loop_ext _ tg tg' m2 Hp). reflexivity.
Qed.

(** *** The standalone prompt tag and the comment field *)

Lemma prompt_loop_result (keys : list string) (tg : gmap string string) (m : meta) :
  prompt (prompt_loop json_loads keys tg m) = prompt m
  \/ exists key raw fields,
      key ∈ keys /\ tg !! key = Some raw
      /\ json_loads raw = Some (JObj fields)
      /\ prompt (prompt_loop json_loads keys tg m) = JObj fields.
Proof.
  induction keys as [|key keys IH]; simpl; [left; reflexivity|].
  destruct (tg !! key) as [raw|] eqn:Hraw.
  2:{ destruct IH as [IH|(k & r & f & Hk & IH)]; [left; exact IH|].
      right. exists k, r, f. split; [apply elem_of_cons; right; exact Hk|exact IH]. }
  destruct (negb (String.eqb raw "")).
  2:{ destruct IH as [IH|(k & r & f & Hk & IH)]; [left; exact IH|].
      right. exists k, r, f. split; [apply elem_of_cons; right; exact Hk|exact IH]. }
  unfold _try_json. destruct (json_loads raw) as [[| | | | |fields]|] eqn:Hparse;
    try (left; reflexivity).
  right. exists key, raw, fields.
  split; [apply elem_of_cons; left; reflexivity|].
  split; [exact Hraw|]. split; [exact Hparse|]. reflexivity.
Qed.

Lemma prompt_loop_first (rest : list string) (tg : gmap string string) (m : meta)
  (raw : string) :
  tg !! "prompt" = Some raw ->
  raw <> "" ->
  prompt_loop json_loads ("prompt" :: rest) tg m =
  match _try_json json_loads raw with
  | JObj fields => set_prompt m (JObj fields)
  | _ => m
  end.
Proof.
  intros Htag Hne. simpl. rewrite Htag.
  assert (negb (String.eqb raw "") = true) as ->
    by (apply negb_true_iff, String.eqb_neq, Hne).
  reflexivity.
Qed.

(** X15: the standalone prompt tag.  When the comment block has left the
    prompt unset, a non-empty [prompt] tag that parses to any JSON object is
    taken as the prompt (no [nodes] key is asked for); when it parses to
    something else or does not parse, the prompt stays unset and the [Prompt]
    and [PROMPT] tags are not consulted.  A prompt the standalone pass sets
    always is an object parsed from one of the three tags. *)
Theorem video_standalone_prompt :
  (forall (tg : gmap string string) (m : meta) (raw : string),
      prompt (from_comment tg m) = JNull ->
      tg !! "prompt" = Some raw ->
      raw <> "" ->
      prompt (merge tg m) =
      match _try_json json_loads raw with
      | JObj fields => JObj fields
      | _ => JNull
      end)
  /\ (forall (tg : gmap string string) (m : meta),
        prompt (from_comment tg m) = JNull ->
        prompt (merge tg m) <> JNull ->
        exists key raw fields,
          key ∈ ["prompt"; "Prompt"; "PROMPT"]
          /\ tg !! key = Some raw
          /\ json_loads raw = Some (JObj fields)
          /\ prompt (merge tg m) = JObj fields).
Proof.
  split.
  - intros tg m raw Hunset Htag Hne. unfold merge_tags, standalone_pass.
    set (m1 := if Json.is_none (workflow (from_comment tg m)) then _ else _).
    assert (prompt m1 = JNull) as Hm1.
    { subst m1. destruct (Json.is_none (workflow (from_comment tg m)));
        [rewrite workflow_loop_prompt|]; exact Hunset. }
    rewrite Hm1. change (Json.is_none JNull) with true. cbv iota.
    rewrite (prompt_loop_first _ tg m1 raw Htag Hne).
    destruct (_try_json json_loads raw); try exact Hm1. reflexivity.
  - intros tg m Hunset Hset. unfold merge_tags, standalone_pass in *.
    set (m1 := if Json.is_none (workflow (from_comment tg m)) then _ else _) in *.
    assert (prompt m1 = JNull) as Hm1.
    { subst m1. destruct (Json.is_none (workflow (from_comment tg m)));
        [rewrite workflow_loop_prompt|]; exact Hunset. }
    rewrite Hm1 in *. change (Json.is_none JNull) with true in *. cbv iota in *.
    destruct (prompt_loop_result ["prompt"; "Prompt"; "PROMPT"] tg m1) as [Hkeep|Hfound].
    + rewrite Hkeep, Hm1 in Hset. contradiction.
    + exact Hfound.
Qed.

Lemma comment_pass_comment (tg : gmap string string) (m : meta) :
  comment (from_comment tg m) =
  if truthy (comment_tag tg) then comment_tag tg else comment m.
Proof.
  unfold comment_pass. destruct (comment_tag tg) as [text|] eqn:Htag; [|reflexivity].
  destruct (truthy (Some text)); [|reflexivity].
  destruct (_try_json json_loads text) as [| | | | |fields]; try reflexivity.
  destruct (Json.has_key fields "nodes").
  - destruct (Json.get fields "prompt") as [[]|]; reflexivity.
  - destruct (Json.has_key fields "prompt"); [|reflexivity].
    destruct (Json.get fields "workflow") as [[]|]; reflexivity.
Qed.

Lemma workflow_loop_comment (keys : list string) (tg : gmap string string) (m : meta) :
  comment m <> None -> comment (workflow_loop json_loads keys tg m) = comment m.
Proof.
  intros Hset. induction keys as [|key keys IH]; simpl; [reflexivity|].
  destruct (tg !! key) as [raw|]; [|exact IH].
  destruct (negb (String.eqb raw "")); [|exact IH].
  destruct (_try_json json_loads raw) as [| | | | |fields]; try reflexivity.
  destruct (Json.has_key fields "nodes"); [|reflexivity].
  simpl. destruct (comment m) eqn:Hc; [simpl; exact Hc|contradiction].
Qed.

(** X16: the comment field.  A non-empty comment tag is reported as it is,
    whether or not it parses as JSON, and the standalone tags never replace
    it.  Without a comment tag, a standalone [workflow] tag that is taken as
    the workflow is reported as the comment as well. *)
Theorem video_comment_field :
  (forall (tg : gmap string string) (m : meta),
      truthy (comment_tag tg) = true ->
      comment (merge tg m) = comment_tag tg)
  /\ (forall (tg : gmap string string) (m : meta) (raw : string)
            (fields : list (string * json)),
        truthy (comment_tag tg) = false ->
        comment m = None ->
        workflow m = JNull ->
        tg !! "workflow" = Some raw ->
        raw <> "" ->
        json_loads raw = Some (JObj fields) ->
        Json.has_key fields "nodes" = true ->
        comment (merge tg m) = Some raw /\ workflow (merge tg m) = JObj fields).
Proof.
  split.
  - intros tg m Htag. unfold merge_tags, standalone_pass.
    pose proof (comment_pass_comment tg m) as Hc. rewrite Htag in Hc.
    assert (comment (from_comment tg m) <> None) as Hset.
    { rewrite Hc. destruct (comment_tag tg); [discriminate|discriminate Htag]. }
    set (m0 := from_comment tg m) in *.
    set (m1 := if Json.is_none (workflow m0) then _ else m0).
    assert (comment m1 = comment m0) as Hm1
      by (subst m1; destruct (Json.is_none (workflow m0));
          [apply workflow_loop_comment, Hset|reflexivity]).
    destruct (Json.is_none (prompt m1)).
    + destruct (prompt_loop_fields ["prompt"; "Prompt"; "PROMPT"] tg m1) as [_ ->].
      rewrite Hm1. exact Hc.
    + rewrite Hm1. exact Hc.
  - intros tg m raw fields Htag Hcomment Hunset Hraw Hne Hparse Hnodes.
    unfold merge_tags. rewrite (comment_pass_none json_loads tg m Htag).
    unfold standalone_pass. rewrite Hunset.
    change (Json.is_none JNull) with true. cbv iota.
    assert (workflow_loop json_loads ["workflow"; "Workflow"; "WORKFLOW"] tg m
            = set_comment (set_workflow m (JObj fields)) raw) as ->.
    { simpl. rewrite Hraw.
      assert (negb (String.eqb raw "") = true) as ->
        by (apply negb_true_iff, String.eqb_neq, Hne).
      rewrite (try_json_object json_loads _ _ Hparse), Hnodes, Hcomment. reflexivity. }
    set (m1 := set_comment (set_workflow m (JObj fields)) raw).
    destruct (Json.is_none (prompt m1)).
    + destruct (prompt_loop_fields ["prompt"; "Prompt"; "PROMPT"] tg m1) as [_ ->].
      rewrite prompt_loop_workflow. split; reflexivity.
    + split; reflexivity.
Qed.

(** *** Frame rate source *)

(** X17: which field the frame rate of the first video stream is read
    from.  A non-empty [r_frame_rate] decides alone: with a zero divisor the
    frame rate is unset even when [avg_frame_rate] holds a usable rate.
    [avg_frame_rate] is read only when [r_frame_rate] is missing or empty. *)
Theorem video_frame_rate_source
  (pre post : list stream) (s : stream) (fmt_duration : option string)
  (tg : gmap string string) (m : meta) :
  Forall (fun s' => ~ is_video s') pre ->
  is_video s ->
  parse_video (ToolOutput (Some (Probe (pre ++ s :: post) fmt_duration tg))) = inr m ->
  (forall text num den,
      r_frame_rate s = Some text -> text <> "" ->
      has_slash text = true -> split_once text = (num, den) ->
      py_int den = Some 0 ->
      fps m = None)
  /\ (forall text num den n d q,
        truthy (r_frame_rate s) = false ->
        avg_frame_rate s = Some text ->
        has_slash text = true -> split_once text = (num, den) ->
        py_int num = Some n -> py_int den = Some d -> d <> 0 ->
        float_div n d = Some q ->
        fps m = Some (round3 q)).
Proof.
  intros Hpre Hs Hm.
  apply parse_video_output in Hm as (m1 & Hloop & _ & _ & -> & _).
  simpl streams in Hloop.
  rewrite (stream_loop_skips pre (s :: post) _ Hpre) in Hloop.
  rewrite (stream_loop_video s post _ Hs) in Hloop.
  change (fps empty_meta) with (@None float) in Hloop.
  split.
  - intros text num den Hr Hne Hslash Hsplit Hden.
    assert (fps_text s = text) as Htext
      by (unfold fps_text, py_or; rewrite Hr, (truthy_nonempty text Hne); reflexivity).
    unfold frame_rate in Hloop. rewrite Htext, Hslash, Hsplit in Hloop.
    rewrite (fps_expr_zero py_int float_div round3 num den Hden) in Hloop.
    injection Hloop as <-. reflexivity.
  - intros text num den n d q Hr Ha Hslash Hsplit Hnum Hden Hd Hq.
    assert (fps_text s = text) as Htext
      by (unfold fps_text, py_or; rewrite Hr, Ha; reflexivity).
    unfold frame_rate in Hloop. rewrite Htext, Hslash, Hsplit in Hloop.
    unfold fps_expr, int_of, truediv in Hloop. rewrite Hden, Hnum in Hloop.
    apply Z.eqb_neq in Hd. revert Hloop. run_raises. rewrite Hd. simpl.
    rewrite Hq. intros [= <-]. reflexivity.
Qed.

End AdapterMore.

Ltac not_video := repeat constructor; unfold is_video; simpl; discriminate.

Lemma video_first_stream_wins_witness :
  exists m,
    Samples.sample_parse_video (ToolOutput (Some sample_probe)) = inr m
    /\ width m = Some 1920 /\ height m = Some 1080 /\ video_codec m = Some "h264"
    /\ Samples.sample_frame_rate Samples.ntsc_stream None = inr (fps m).
Proof.
  assert (exists m, Samples.sample_parse_video (ToolOutput (Some sample_probe)) = inr m)
    as [m Hm] by (vm_compute; eauto).
  exists m. split; [exact Hm|].
  apply (proj1 (video_first_stream_wins (float := Instances.ratio)
                  Instances.int_decimal Instances.ratio_div Instances.ratio_round3
                  Instances.ratio_of_str Instances.ratio_is_zero JsonText.loads)
           [audio_stream] [second_video] Samples.ntsc_stream (Some "12")
           Samples.comment_tags m).
  - not_video.
  - reflexivity.
  - exact Hm.
Defined.

Lemma video_error_only_for_failures_witness :
  exists msg,
    set_error (float := Instances.ratio) empty_meta "ffprobe timed out"
    = set_error empty_meta msg.
Proof.
  apply (video_error_only_for_failures (float := Instances.ratio)
           Instances.int_decimal Instances.ratio_div Instances.ratio_round3
           Instances.ratio_of_str Instances.ratio_is_zero JsonText.loads ToolTimeout).
  reflexivity.
Defined.

Lemma video_duration_witness :
  exists m,
    Samples.sample_parse_video (ToolOutput (Some sample_probe)) = inr m
    /\ duration m = Some (12, 1).
Proof.
  assert (exists m, Samples.sample_parse_video (ToolOutput (Some sample_probe)) = inr m)
    as [m Hm] by (vm_compute; eauto).
  exists m. split; [exact Hm|].
  apply (proj1 (video_duration (float := Instances.ratio)
                  Instances.int_decimal Instances.ratio_div Instances.ratio_round3
                  Instances.ratio_of_str Instances.ratio_is_zero JsonText.loads
                  sample_probe m Hm)).
Defined.

Lemma video_merge_reads_nine_keys_witness :
  Samples.sample_merge noisy_tags empty_meta
  = Samples.sample_merge (delete "cOMMENT" noisy_tags) empty_meta.
Proof.
  apply (video_merge_reads_nine_keys (float := Instances.ratio) JsonText.loads).
  intros k Hk. unfold tag_keys in Hk. rewrite !elem_of_cons in Hk.
  rewrite lookup_delete_ne; [reflexivity|].
  intros Heq. subst k.
  repeat (destruct Hk as [Hk|Hk]; [discriminate Hk|]).
  apply elem_of_nil in Hk. exact Hk.
Defined.

Lemma video_standalone_prompt_witness :
  prompt (Samples.sample_merge split_tags empty_meta) = JObj [("x", JNum 1)].
Proof.
  apply (proj1 (video_standalone_prompt (float := Instances.ratio) JsonText.loads)
           split_tags empty_meta Chunks.prompt_text).
  - reflexivity.
  - reflexivity.
  - discriminate.
Defined.

Lemma video_comment_field_witness :
  comment (Samples.sample_merge split_tags empty_meta) = Some Chunks.workflow_text
  /\ workflow (Samples.sample_merge split_tags empty_meta) = JObj [("nodes", JArr [])].
Proof.
  apply (proj2 (video_comment_field (float := Instances.ratio) JsonText.loads)
           split_tags empty_meta Chunks.workflow_text [("nodes", JArr [])]).
  - reflexivity.
  - reflexivity.
  - reflexivity.
  - reflexivity.
  - discriminate.
  - vm_compute. reflexivity.
  - reflexivity.
Defined.

Lemma video_frame_rate_source_witness :
  exists m,
    Samples.sample_parse_video
      (ToolOutput (Some (Probe ([audio_stream] ++ zero_rate_stream :: [second_video])
                               None ∅))) = inr m
    /\ fps m = None.
Proof.
  assert (exists m,
             Samples.sample_parse_video
               (ToolOutput (Some (Probe ([audio_stream] ++ zero_rate_stream :: [second_video])
                                        None ∅))) = inr m)
    as [m Hm] by (vm_compute; eauto).
  exists m. split; [exact Hm|].
  apply (proj1 (video_frame_rate_source (float := Instances.ratio)
                  Instances.int_decimal Instances.ratio_div Instances.ratio_round3
                  Instances.ratio_of_str Instances.ratio_is_zero JsonText.loads
                  [audio_stream] [second_video] zero_rate_stream None ∅ m
                  ltac:(not_video) eq_refl Hm)
           "0/0" "0" "0"); try reflexivity.
  discriminate.
Defined.

End VideoMore.

(** ** Preview, metadata dispatch, endpoints and the preset guard *)

Module FacadeFacts.

Import Paths Facade.
Local Open Scope Z_scope.

Section ServiceFacts.

Context {float : Type}.
Variable is_file : path -> bool.
Variable read_bytes : path -> preview_exn + Png.bytes.
Variable path_is_dir : path -> bool.
Variable iterdir : path -> string + list (string * FilesService.kind).
Variable rglob : path -> list (list string * FilesService.kind).
Variable relative_to_message : path -> path -> string.
Variable suffix : path -> string.
Variable lower : string -> string.
Variable repr : string -> string.
Variable guess_type : string -> option string.
Variable run_probe : path -> Video.run_result.
Variable generic_image : path -> FileMetadata float.
Variable zlib_decompress : Png.bytes -> option Png.bytes.
Variable utf8_decode : Png.bytes -> option string.
Variable utf8_decode_replace : Png.bytes -> string.
Variable json_loads : string -> option json.
Variable py_int : string -> option Z.
Variable float_div : Z -> Z -> option float.
Variable round3 : float -> float.
Variable float_of_str : string -> option float.
Variable float_is_zero : float -> bool.

Abbreviation preview := (get_preview is_file read_bytes suffix lower repr guess_type).
Abbreviation file_meta :=
  (@get_file_meta float is_file read_bytes suffix lower repr run_probe generic_image
     zlib_decompress utf8_decode utf8_decode_replace json_loads
     py_int float_div round3 float_of_str float_is_zero).

Lemma media_type_nonempty (target : path) : media_type_of guess_type target <> "".
Proof.
  unfold media_type_of. destruct (guess_type (str_path target)) as [t|]; [|discriminate].
  destruct (String.eqb t "") eqn:Ht; [discriminate|]. apply String.eqb_neq, Ht.
Qed.

(** X25: what a preview serves.  Content is returned only for a path the
    guard lets through, that is a file and whose lower-cased suffix is on the
    allow-list; it is the bytes of that file, the media type is never empty
    (the guessed type, or the generic binary type) and the cache lifetime is
    one hour. *)
Theorem preview_serves_only_allowed (workdir : path) (p : string) (r : PreviewResult) :
  preview workdir p = inr r ->
  exists target,
    FilesService.get_safe_path workdir p = Some target
    /\ is_file target = true
    /\ lower (suffix target) ∈ PREVIEW_EXTS
    /\ read_bytes target = inr (content r)
    /\ media_type r = media_type_of guess_type target
    /\ media_type r <> ""
    /\ cache_max_age r = 3600.
Proof.
  unfold get_preview.
  destruct (FilesService.get_safe_path workdir p) as [target|]; [|discriminate].
  destruct (is_file target) eqn:Hfile; [|discriminate]. simpl.
  destruct (bool_decide (lower (suffix target) ∈ PREVIEW_EXTS)) eqn:Hext; [|discriminate].
  simpl. destruct (read_bytes target) as [e|data] eqn:Hread; [discriminate|].
  intros [= <-]. exists target. simpl.
  apply bool_decide_eq_true in Hext.
  repeat split; try assumption; try reflexivity. apply media_type_nonempty.
Qed.



(** X27: one rejected path, four answers.  For a path the guard rejects,
    the browse endpoint answers 400 and the export endpoint 403, both with
    [Access denied], while the preview and the metadata endpoints answer 404
    with the not-found message of a missing file. *)
Theorem rejected_path_answers (workdir : path) (p : string) :
  p <> "" ->
  FilesService.get_safe_path workdir p = None ->
  files_browse iterdir relative_to_message workdir (Some p)
  = HTTPException 400 "Access denied"
  /\ files_export_zip path_is_dir rglob workdir (Some p)
     = HTTPException 403 "Access denied"
  /\ files_preview is_file read_bytes suffix lower repr guess_type workdir p
     = HTTPException 404 (not_found repr p)
  /\ files_meta (float := float) is_file read_bytes suffix lower repr run_probe
       generic_image zlib_decompress utf8_decode utf8_decode_replace json_loads
       py_int float_div round3 float_of_str float_is_zero workdir p
     = HTTPException 404 (not_found repr p).
Proof.
  intros Hne Hsafe.
  assert (FilesService.target_of workdir (Some p) = resolve (joinpath workdir p)) as Htarget.
  { unfold FilesService.target_of, FilesService.truthy.
    apply String.eqb_neq in Hne. rewrite Hne. reflexivity. }
  assert (negb (String.prefix (str_path workdir) (str_path (resolve (joinpath workdir p))))
          = true) as Hreject.
  { unfold FilesService.get_safe_path in Hsafe.
    destruct (negb (String.prefix _ _)); [reflexivity|discriminate]. }
  split; [|split; [|split]].
  - unfold files_browse, FilesService.browse. rewrite Htarget, Hreject. reflexivity.
  - unfold files_export_zip, FilesService.build_zip. rewrite Htarget, Hreject. reflexivity.
  - unfold files_preview, get_preview. rewrite Hsafe. reflexivity.
  - unfold files_meta, get_file_meta. rewrite Hsafe. reflexivity.
Qed.

End ServiceFacts.

Lemma preview_serves_only_allowed_witness :
  exists target,
    FilesService.get_safe_path Samples.workdir "a.png" = Some target
    /\ FacadeSamples.sample_is_file target = true
    /\ FacadeSamples.sample_lower (FacadeSamples.sample_suffix target) ∈ PREVIEW_EXTS
    /\ FacadeSamples.sample_read_bytes target = inr Chunks.png_workflow
    /\ "image/png" = media_type_of FacadeSamples.sample_guess_type target
    /\ "image/png" <> ""
    /\ 3600 = 3600.
Proof.
  apply (preview_serves_only_allowed FacadeSamples.sample_is_file
           FacadeSamples.sample_read_bytes FacadeSamples.sample_suffix
           FacadeSamples.sample_lower FacadeSamples.sample_repr
           FacadeSamples.sample_guess_type Samples.workdir "a.png"
           (Preview Chunks.png_workflow "image/png" 3600)).
  vm_compute. reflexivity.
Defined.


Lemma rejected_path_answers_witness :
  files_browse Samples.sample_iterdir Samples.sample_message Samples.workdir
    (Some "../../etc/passwd") = HTTPException 400 "Access denied"
  /\ files_export_zip Samples.sample_is_dir Samples.sample_rglob Samples.workdir
       (Some "../../etc/passwd") = HTTPException 403 "Access denied"
  /\ files_preview FacadeSamples.sample_is_file FacadeSamples.sample_read_bytes
       FacadeSamples.sample_suffix FacadeSamples.sample_lower FacadeSamples.sample_repr
       FacadeSamples.sample_guess_type Samples.workdir "../../etc/passwd"
     = HTTPException 404 (not_found FacadeSamples.sample_repr "../../etc/passwd")
  /\ files_meta (float := Instances.ratio) FacadeSamples.sample_is_file
       FacadeSamples.sample_read_bytes FacadeSamples.sample_suffix
       FacadeSamples.sample_lower FacadeSamples.sample_repr
       FacadeSamples.sample_run_probe FacadeSamples.sample_generic_image
       Instances.inflate_stored Instances.utf8_ascii Instances.utf8_ascii_replace
       JsonText.loads Instances.int_decimal Instances.ratio_div
       Instances.ratio_round3 Instances.ratio_of_str Instances.ratio_is_zero
       Samples.workdir "../../etc/passwd"
     = HTTPException 404 (not_found FacadeSamples.sample_repr "../../etc/passwd").
Proof.
  apply rejected_path_answers; [discriminate|reflexivity].
Defined.

End FacadeFacts.

Module ConfigFacts.

Import Paths MorePaths ConfigLoader PathFacts PathMore.

Lemma app_boundary_inj (r : string) :
  forall (t s1 s2 : string),
    slash_free r = true -> slash_free t = true -> boundary s1 -> boundary s2 ->
    r +:+ s1 = t +:+ s2 -> r = t /\ s1 = s2.
Proof.
  induction r as [|a r IH]; intros t s1 s2 Hr Ht Hs1 Hs2 Heq.
  - destruct t as [|c t]; [split; [reflexivity|exact Heq]|].
    apply slash_free_cons in Ht as [Hc _]. rewrite string_app_cons in Heq.
    destruct Hs1 as [->|[x ->]]; [discriminate Heq|].
    injection Heq as <- _. contradiction.
  - apply slash_free_cons in Hr as [Ha Hr]. rewrite string_app_cons in Heq.
    destruct t as [|c t].
    + destruct Hs2 as [->|[x ->]]; [discriminate Heq|].
      injection Heq as -> _. contradiction.
    + rewrite string_app_cons in Heq. injection Heq as <- Heq.
      apply slash_free_cons in Ht as [_ Ht].
      destruct (IH t s1 s2 Hr Ht Hs1 Hs2 Heq) as [-> ->]. auto.
Qed.

(** Two resolved paths with the same string are the same path. *)
Lemma str_segments_inj (d : path) :
  forall t : path,
    Forall proper d -> Forall proper t -> str_segments d = str_segments t -> d = t.
Proof.
  induction d as [|r d IH]; intros t Hd Ht Heq.
  - destruct t as [|t1 ts]; [reflexivity|discriminate Heq].
  - destruct t as [|t1 ts]; [discriminate Heq|].
    apply Forall_cons in Hd as [[_ Hr] Hd]. apply Forall_cons in Ht as [[_ Ht1] Hts].
    change (String slash (r +:+ str_segments d) = String slash (t1 +:+ str_segments ts))
      in Heq.
    injection Heq as Heq.
    destruct (app_boundary_inj r t1 _ _ Hr Ht1 (str_segments_boundary d)
                (str_segments_boundary ts) Heq) as [-> Hrest].
    rewrite (IH ts Hd Hts Hrest). reflexivity.
Qed.

Lemma str_path_inj (d t : path) :
  Forall proper d -> Forall proper t -> str_path d = str_path t -> d = t.
Proof.
  intros Hd Ht Heq. destruct d as [|r d], t as [|t1 ts].
  - reflexivity.
  - apply Forall_cons in Ht as [[Hne _] _].
    change (String slash "" = String slash (t1 +:+ str_segments ts)) in Heq.
    injection Heq as Heq. destruct t1; [contradiction|discriminate Heq].
  - apply Forall_cons in Hd as [[Hne _] _].
    change (String slash (r +:+ str_segments d) = String slash "") in Heq.
    injection Heq as Heq. destruct r; [contradiction|discriminate Heq].
  - apply (str_segments_inj (r :: d) (t1 :: ts) Hd Ht Heq).
Qed.

Lemma str_segments_sep_boundary (p : path) :
  exists x, str_segments p +:+ "/" = String slash x.
Proof.
  destruct p as [|s p]; [exists ""; reflexivity|].
  exists ((s +:+ str_segments p) +:+ "/"). reflexivity.
Qed.

(** When the string of a path starts with the string of a directory
    followed by a separator, the path lies inside the directory. *)
Lemma str_prefix_sep (d : path) :
  forall t : path,
    Forall proper d -> Forall proper t ->
    String.prefix (str_segments d +:+ "/") (str_segments t) = true ->
    inside d t.
Proof.
  induction d as [|r d IH]; intros t Hd Ht Hp; [exists t; reflexivity|].
  apply Forall_cons in Hd as [[_ Hr] Hd].
  destruct t as [|t1 ts]; [discriminate Hp|].
  apply Forall_cons in Ht as [[_ Ht1] Hts].
  change (String.prefix (String slash ((r +:+ str_segments d) +:+ "/"))
            (String slash (t1 +:+ str_segments ts)) = true) in Hp.
  apply prefix_cons in Hp as [_ Hp].
  rewrite string_app_assoc in Hp.
  destruct (str_segments_sep_boundary d) as [x Hx]. rewrite Hx in Hp.
  destruct (prefix_segment r t1 x _ Hr Ht1 (str_segments_boundary ts) Hp) as [-> Hrest].
  rewrite <- Hx in Hrest.
  destruct (IH ts Hd Hts Hrest) as [rest ->].
  exists rest. reflexivity.
Qed.

(** X28: the preset guard is sound.  Whenever [_safe_filepath] returns a
    path, the resolved file lies inside the resolved presets directory,
    segment by segment: the separator it appends before the prefix test keeps
    out the siblings that the guard of the file explorer lets through. *)
Theorem safe_filepath_sound (cwd : path) (presets_path config_name filepath : string) :
  Forall proper cwd ->
  _safe_filepath cwd presets_path config_name = Some filepath ->
  inside (realpath cwd presets_path) (realpath cwd filepath).
Proof.
  intros Hcwd. unfold _safe_filepath.
  set (name := if negb (endswith config_name ".json") then _ else _).
  pose proof (resolved_proper cwd (os_join presets_path name) Hcwd) as Ht.
  pose proof (resolved_proper cwd presets_path Hcwd) as Hd.
  fold (realpath cwd (os_join presets_path name)) in Ht.
  fold (realpath cwd presets_path) in Hd.
  set (t := realpath cwd (os_join presets_path name)) in *.
  set (d := realpath cwd presets_path) in *.
  destruct (String.prefix (str_path d +:+ "/") (str_path t)) eqn:Hp.
  - simpl. intros [= <-]. fold t.
    destruct d as [|r d']; [exists t; reflexivity|].
    destruct t as [|t1 ts].
    + exfalso. apply Forall_cons in Hd as [[Hne _] _].
      change (String.prefix (String slash ((r +:+ str_segments d') +:+ "/"))
                (String slash "") = true) in Hp.
      apply prefix_cons in Hp as [_ Hp]. apply prefix_nil_r in Hp.
      destruct r; [contradiction|discriminate Hp].
    + apply (str_prefix_sep (r :: d') (t1 :: ts) Hd Ht Hp).
  - simpl. destruct (String.eqb (str_path t) (str_path d)) eqn:Heq; [|discriminate].
    intros [= <-]. fold t. apply String.eqb_eq in Heq.
    rewrite (str_path_inj t d Ht Hd Heq). exists []. symmetry. apply app_nil_r.
Qed.

Lemma safe_filepath_sound_witness :
  inside (realpath ["srv"; "app"] "./presets")
         (realpath ["srv"; "app"] "./presets/comfy/../base.json")
  /\ _safe_filepath ["srv"; "app"] "./presets" "../presets-old/base" = None.
Proof.
  split.
  - apply (safe_filepath_sound ["srv"; "app"] "./presets" "comfy/../base").
    + repeat constructor; discriminate.
    + reflexivity.
  - reflexivity.
Defined.

End ConfigFacts.
